(** * pgEdge node bootstrap: [scripts/init-database.py]

    A shallow embedding of the bootstrap script of the pgEdge container
    image, and the properties of its persisted progress record and of its
    phase selection.

    The script is sequential Python.  Its state is the progress file
    [/data/init-status.json]; its effects are connections and SQL statements
    sent to Postgres, probes, sleeps and writes of the progress file.  The
    embedding is a state-and-trace monad over that file: every effect is
    appended to a trace, the file is threaded through, and a computation
    ends by returning, by [sys.exit], by an uncaught exception, or by never
    returning.

    Conventions of the embedding:
    - [info(...)] only prints and is left out;
    - what the database servers do is not computed but asked of the
      environment, as a function of everything done so far: whether a probe
      connects, how many attempts [connect] needs and whether it ever gets
      through, whether a statement raises, how long a retried statement
      and a peer's [spock.node] keep failing.  A statement is recorded, not
      interpreted;
    - a loop that never ends ([while True] in [connect],
      [wait_for_spock_node], [spock_sub_create], [spock_sub_drop], and the
      offline mode of [main]) ends the computation with [Blocks]; the
      trace holds what was done before the wait began;
    - leaving a [with connect(...)] block (the driver commits or rolls
      back, and closes the connection) is not recorded: the trace says
      which statements were sent after which connection was opened, not
      what was committed;
    - the progress file, when it holds JSON, holds a record of the shape
      [InitStatus], which is what the script writes; the file system is
      not a source of errors (the file can be opened for reading when it
      exists, and for writing); the cluster specification holds values of
      its declared types;
    - the topology resolver ([get_default_db_info], [get_dbs_info]) is the
      producer of the [DatabaseInfo] values that [main] is run on. *)

From Stdlib Require Import String Ascii List ZArith Bool.
From stdpp Require Import base gmap strings list fin_maps pretty.

Import ListNotations.
Local Open Scope string_scope.
Local Open Scope list_scope.

(** ** Strings as Python builds them *)

Module Py.

(** [sep.join(parts)] *)
Fixpoint join (sep : string) (parts : list string) : string :=
  match parts with
  | [] => EmptyString
  | [p] => p
  | p :: rest => p +:+ sep +:+ join sep rest
  end.

(** [c.lower()] on one ASCII character; bytes above 127 are kept. *)
Definition lower_char (c : ascii) : ascii :=
  let n := nat_of_ascii c in
  if (65 <=? n)%nat && (n <=? 90)%nat then ascii_of_nat (n + 32) else c.

(** [s.lower()] *)
Fixpoint lower (s : string) : string :=
  match s with
  | EmptyString => EmptyString
  | String c rest => String (lower_char c) (lower rest)
  end.

(** Truth value of a string: [if s:] *)
Definition truthy (s : string) : bool :=
  match s with
  | EmptyString => false
  | String _ _ => true
  end.

(** The line feed of a triple-quoted literal. *)
Definition nl : string := String (ascii_of_nat 10) EmptyString.

End Py.

(** ** Errors *)

Inductive exn : Type :=
| ValueError (msg : string)
| KeyError (key : string)
| UnboundLocalError (var : string)
| UnicodeDecodeError             (* the progress file is not text *)
| DatabaseError (msg : string).  (* an error raised by the database driver *)

(** A value or a raised exception. *)
Inductive raising (A : Type) : Type :=
| Value (a : A)
| Raise (e : exn).
Arguments Value {A} a.
Arguments Raise {A} e.

(** ** The persisted progress record (lines 84-118) *)

(** [class DatabaseStatus(str, Enum)] *)
Inductive DatabaseStatus : Type :=
| CREATED
| INITED
| SUBSCRIBED.

#[global] Instance DatabaseStatus_eq_dec : EqDecision DatabaseStatus.
Proof. solve_decision. Defined.

(** [class InitStatus(TypedDict)] *)
Record InitStatus : Type := mkInitStatus {
  default_db_initialized : bool;
  dbs_initialized : gmap string DatabaseStatus
}.

(** The literal [{"default_db_initialized": False, "dbs_initialized": {}}]. *)
Definition empty_status : InitStatus :=
  {| default_db_initialized := false; dbs_initialized := ∅ |}.

(** What is on disk at [INIT_STATUS_FILE]: nothing; bytes that are not
    text in the encoding [open] reads with, on which [json.load] raises
    [UnicodeDecodeError]; a text on which [json.load] raises
    [JSONDecodeError] (an empty or a truncated file among them); or the JSON
    of a record. *)
Inductive status_file : Type :=
| NoFile
| NotText
| NotJson
| Json (st : InitStatus).

(** The process environment: the variables the script reads. *)
Record Environ : Type := mkEnviron {
  FORCE_INIT : option string;
  PGV : option string
}.

(** [os.getenv(name, default)] *)
Definition getenv_default (v : option string) (d : string) : string :=
  match v with
  | Some s => s
  | None => d
  end.

(** Line 95. *)
Definition force_update (env : Environ) : bool :=
  bool_decide (Py.lower (getenv_default (FORCE_INIT env) "false") = "true").

(** [read_init_status] (lines 93-106), as a function of the file.  Line
    105 catches [JSONDecodeError] only. *)
Definition read_init_status (env : Environ) (f : status_file) : raising InitStatus :=
  if force_update env then Value empty_status
  else match f with
       | NoFile => Value empty_status
       | NotText => Raise UnicodeDecodeError
       | NotJson => Value empty_status
       | Json st => Value st
       end.

(** The record a file holds: what a read without the force flag returns
    when it returns, and the empty record for a file that holds none. *)
Definition recorded (f : status_file) : InitStatus :=
  match f with
  | Json st => st
  | NoFile | NotText | NotJson => empty_status
  end.

(** The order absent < created < inited < subscribed. *)
Definition rank (s : option DatabaseStatus) : nat :=
  match s with
  | None => 0
  | Some CREATED => 1
  | Some INITED => 2
  | Some SUBSCRIBED => 3
  end.

(** ** Topology values (lines 48-76, 319-335) *)

(** [class NodeSpec(TypedDict)]; [hostname] and [internal_hostname] are
    looked up with [in], so either key may be missing. *)
Record NodeSpec : Type := mkNodeSpec {
  node_spec_id : string;
  node_spec_name : string;
  region : string;
  node_hostname : option string;
  internal_hostname : option string
}.

(** [class UserSpec(TypedDict)] *)
Record UserSpec : Type := mkUserSpec {
  username : string;
  password : string;
  superuser : option bool;
  service : string;
  user_type : string
}.

(** [class DatabaseInfo] (a dataclass); [postgres_users] is a dict in
    insertion order, kept as the list of its items. *)
Record DatabaseInfo : Type := mkDatabaseInfo {
  database_name : string;
  owner : string;
  hostname : string;
  mode : option string;
  nodes : list NodeSpec;
  node_id : string;
  node_name : string;
  postgres_users : list (string * UserSpec);
  spock_dsn : string;
  local_dsn : string;
  internal_dsn : string;
  init_dsn : string;
  init_username : string;
  init_dbname : string;
  pgedge_pw : string
}.

(** ** Pure helpers of the script *)

(** [SUPERUSER_PARAMETERS] (lines 14-45) *)
Definition SUPERUSER_PARAMETERS : string :=
  Py.join ", "
    [ "commit_delay"; "deadlock_timeout"; "lc_messages"; "log_duration";
      "log_error_verbosity"; "log_executor_stats"; "log_lock_waits";
      "log_min_duration_sample"; "log_min_duration_statement";
      "log_min_error_statement"; "log_min_messages"; "log_parser_stats";
      "log_planner_stats"; "log_replication_commands"; "log_statement";
      "log_statement_sample_rate"; "log_statement_stats"; "log_temp_files";
      "log_transaction_sample_rate"; "pg_stat_statements.track";
      "pg_stat_statements.track_planning"; "pg_stat_statements.track_utility";
      "session_replication_role"; "temp_file_limit"; "track_activities";
      "track_counts"; "track_functions"; "track_io_timing" ].

(** [dsn] (lines 142-158); [port] is formatted in decimal. *)
Definition dsn (dbname user : string) (pw : option string)
    (host : string) (port : N) : string :=
  let fields :=
    [ "host=" +:+ host;
      "dbname=" +:+ dbname;
      "user=" +:+ user;
      "port=" +:+ pretty port ] in
  let fields :=
    match pw with
    | Some p => if Py.truthy p then fields ++ ["password=" +:+ p] else fields
    | None => fields
    end in
  Py.join " " fields.

(** [f"{v}"] for the value of [os.getenv]: [None] prints as [None]. *)
Definition fmt_optional (v : option string) : string :=
  match v with
  | Some s => s
  | None => "None"
  end.

(** [get_superuser_roles] (lines 220-251) *)
Definition get_superuser_roles (env : Environ) : raising string :=
  let pg_version := PGV env in
  if bool_decide (pg_version = Some "15") then
    Value (Py.join ", "
      [ "pg_read_all_data"; "pg_write_all_data"; "pg_read_all_settings";
        "pg_read_all_stats"; "pg_stat_scan_tables"; "pg_monitor";
        "pg_signal_backend"; "pg_checkpoint" ])
  else if bool_decide (pg_version ∈ [Some "16"; Some "17"]) then
    Value (Py.join ", "
      [ "pg_read_all_data"; "pg_write_all_data"; "pg_read_all_settings";
        "pg_read_all_stats"; "pg_stat_scan_tables"; "pg_monitor";
        "pg_signal_backend"; "pg_checkpoint"; "pg_use_reserved_connections";
        "pg_create_subscription" ])
  else
    Raise (ValueError ("unrecognized postgres version: '" +:+ fmt_optional pg_version +:+ "'")).

(** [create_user_statement] (lines 254-268); [superuser] is truthy only
    when it is [True]. *)
Definition create_user_statement (user : UserSpec) : list string :=
  let username := username user in
  let password := password user in
  match superuser user with
  | Some true =>
      [ "CREATE USER " +:+ username +:+ " WITH LOGIN SUPERUSER PASSWORD '" +:+ password +:+ "';" ]
  | _ =>
      if bool_decide (user_type user ∈ ["admin"; "internal_admin"])
      then
        [ "CREATE USER " +:+ username +:+ " WITH LOGIN CREATEROLE CREATEDB PASSWORD '" +:+ password +:+ "';";
          "GRANT pgedge_superuser to " +:+ username +:+ " WITH ADMIN TRUE;" ]
      else
        [ "CREATE USER " +:+ username +:+ " WITH LOGIN PASSWORD '" +:+ password +:+ "';" ]
  end.

(** [alter_user_statements] (lines 271-294) *)
Definition alter_user_statements (user : UserSpec) (dbname : string)
    (schemas : list string) : list string :=
  let name := username user in
  let stmts := [ "GRANT CONNECT ON DATABASE " +:+ dbname +:+ " TO " +:+ name +:+ ";" ] in
  if bool_decide (user_type user ∈ ["application_read_only"; "internal_read_only"; "pooler_auth"])
  then
    let stmts :=
      stmts ++ flat_map (fun schema =>
        [ "GRANT USAGE ON SCHEMA " +:+ schema +:+ " TO " +:+ name +:+ ";";
          "GRANT SELECT ON ALL TABLES IN SCHEMA " +:+ schema +:+ " TO " +:+ name +:+ ";";
          "ALTER DEFAULT PRIVILEGES IN SCHEMA " +:+ schema +:+ " GRANT SELECT ON TABLES TO " +:+ name +:+ ";" ])
        schemas in
    if bool_decide (user_type user = "internal_read_only")
    then stmts ++ [ "GRANT EXECUTE ON FUNCTION pg_ls_waldir TO " +:+ name +:+ ";";
                    "GRANT pg_read_all_stats TO " +:+ name +:+ ";" ]
    else stmts
  else
    stmts ++ flat_map (fun schema =>
      [ "GRANT USAGE, CREATE ON SCHEMA " +:+ schema +:+ " TO " +:+ name +:+ ";";
        "GRANT ALL PRIVILEGES ON ALL TABLES IN SCHEMA " +:+ schema +:+ " TO " +:+ name +:+ ";";
        "GRANT ALL PRIVILEGES ON ALL SEQUENCES IN SCHEMA " +:+ schema +:+ " TO " +:+ name +:+ ";";
        "ALTER DEFAULT PRIVILEGES IN SCHEMA " +:+ schema +:+ " GRANT ALL PRIVILEGES ON TABLES TO " +:+ name +:+ ";";
        "ALTER DEFAULT PRIVILEGES IN SCHEMA " +:+ schema +:+ " GRANT ALL PRIVILEGES ON SEQUENCES TO " +:+ name +:+ ";" ])
      schemas.

(** [get_hostname] (lines 312-316): [KeyError] when neither key is there. *)
Definition get_hostname (node : NodeSpec) : raising string :=
  match node_hostname node with
  | Some h => Value h
  | None =>
      match internal_hostname node with
      | Some h => Value h
      | None => Raise (KeyError "internal_hostname")
      end
  end.

(** The statement text of [spock_sub_create] (lines 176-187). *)
Definition sub_create_statement (sub_name other_dsn : string) : string :=
  let forward_origins := "{}" in
  let replication_sets := "{default, default_insert_only, ddl_sql}" in
  Py.nl +:+
  "    SELECT spock.sub_create(" +:+ Py.nl +:+
  "        subscription_name := '" +:+ sub_name +:+ "'," +:+ Py.nl +:+
  "        provider_dsn := '" +:+ other_dsn +:+ "'," +:+ Py.nl +:+
  "        replication_sets := '" +:+ replication_sets +:+ "'," +:+ Py.nl +:+
  "        forward_origins := '" +:+ forward_origins +:+ "'," +:+ Py.nl +:+
  "        synchronize_structure := 'true'," +:+ Py.nl +:+
  "        synchronize_data := 'true'," +:+ Py.nl +:+
  "        apply_delay := '0'" +:+ Py.nl +:+
  "    );".

(** The statement text of [spock_sub_drop] (lines 198-202). *)
Definition sub_drop_statement (sub_name : string) : string :=
  Py.nl +:+
  "    SELECT spock.sub_drop(" +:+ Py.nl +:+
  "        subscription_name := '" +:+ sub_name +:+ "'," +:+ Py.nl +:+
  "        ifexists := 'true'" +:+ Py.nl +:+
  "    );".

(** ** Effects, outcomes and the monad of the script *)

(** The four phases of the bootstrap.  A [Begin] event marks the point at
    which the body of a phase starts for a database; it stands for no
    statement of its own and is what the theorems count. *)
Inductive phase : Type :=
| PrimaryBootstrap   (* body of [init_default_database], after its guard *)
| DatabaseCreation   (* body of [init_database], after its guard *)
| SpockNodeInit      (* [init_spock_node] *)
| PeerRendezvous.    (* [init_peer_spock_subscriptions], once it has peers *)

#[global] Instance phase_eq_dec : EqDecision phase.
Proof. solve_decision. Defined.

Inductive event : Type :=
| Begin (ph : phase) (db : string)
| CanConnect (dsn : string)                      (* [can_connect(dsn)] *)
| Connect (dsn : string) (autocommit : bool)     (* [psycopg.connect] returned a connection *)
| Execute (stmt : string)                        (* [cur.execute(stmt)] *)
| ExecuteParams (stmt : string) (params : list string)
| Sleep (secs : nat)                             (* [time.sleep(secs)] *)
| WriteStatus (st : InitStatus).                 (* [json.dump(st, f)] on the progress file *)

(** How a loop that retries until an attempt succeeds goes on. *)
Inductive waiting : Type :=
| Through (failed : nat)                (* it succeeds after [failed] failed attempts *)
| Never                                 (* every attempt fails *)
| Broken (failed : nat) (msg : string). (* an attempt raises what the loop does not catch *)

(** What the database servers do, given everything done so far. *)
Record Postgres : Type := mkPostgres {
  (* does the one attempt of [can_connect(dsn)] succeed *)
  accepts : list event -> string -> bool;
  (* how [connect(dsn)] goes on: it retries on [OperationalError] *)
  connects : list event -> string -> waiting;
  (* the error [cur.execute(stmt)] raises, if it raises *)
  runs : list event -> string -> option string;
  (* is there a row in [pg_database] *)
  has_database : list event -> string -> bool;
  (* the attempts of a statement retried until it works that fail, if it
     ever works *)
  settles : list event -> string -> option nat;
  (* the polls of a peer's [spock.node] that find no node, if one ever
     finds one: [true] for a poll that raised, [false] for one that counted
     no row *)
  registered : list event -> string -> option (list bool)
}.

(** How a computation ends. *)
Inductive outcome (A : Type) : Type :=
| Returns (a : A)
| Exits (code : Z)       (* [sys.exit(code)] *)
| Raises (e : exn)       (* an exception nobody catches *)
| Blocks.                (* the computation never ends *)
Arguments Returns {A} a.
Arguments Exits {A} code.
Arguments Raises {A} e.
Arguments Blocks {A}.

Record run (A : Type) : Type := mkRun {
  result : outcome A;
  file_after : status_file;
  events : list event
}.
Arguments mkRun {A} result file_after events.
Arguments result {A} r.
Arguments file_after {A} r.
Arguments events {A} r.

(** A computation reads the history and the progress file, and yields an
    outcome, the new file and the events it added. *)
Definition prog (A : Type) : Type := list event -> status_file -> run A.

(** A run that comes [after] the events [es] of an earlier step. *)
Definition after {A} (es : list event) (r : run A) : run A :=
  mkRun (result r) (file_after r) (es ++ events r).

#[global] Instance prog_ret : MRet prog :=
  fun A a _ f => mkRun (Returns a) f [].

(** Sequencing: the second step sees the history and the file the first
    one left; an exit, an exception or a block ends the computation. *)
#[global] Instance prog_bind : MBind prog :=
  fun A B k m h f =>
    let r := m h f in
    match result r with
    | Returns a => after (events r) (k a (h ++ events r) (file_after r))
    | Exits code => mkRun (Exits code) (file_after r) (events r)
    | Raises e => mkRun (Raises e) (file_after r) (events r)
    | Blocks => mkRun Blocks (file_after r) (events r)
    end.

Definition emit (e : event) : prog unit :=
  fun _ f => mkRun (Returns tt) f [e].

(** [pass], and falling out of a branch. *)
Definition skip : prog unit := mret tt.

Definition sys_exit {A} (code : Z) : prog A :=
  fun _ f => mkRun (Exits code) f [].

Definition raise {A} (e : exn) : prog A :=
  fun _ f => mkRun (Raises e) f [].

Definition block_forever {A} : prog A :=
  fun _ f => mkRun Blocks f [].

Definition lift_raising {A} (v : raising A) : prog A :=
  match v with
  | Value a => mret a
  | Raise e => raise e
  end.

(** [for x in xs: body(x)] *)
Fixpoint for_each {A} (xs : list A) (body : A -> prog unit) : prog unit :=
  match xs with
  | [] => skip
  | x :: rest => body x ;; for_each rest body
  end.

Section Script.

Context (env : Environ) (pg : Postgres).

(** *** Primitive effects *)

(** [read_init_status()] *)
Definition get_init_status : prog InitStatus :=
  fun h f => lift_raising (read_init_status env f) h f.

(** Lines 111-112 and 117-118: [json.dump(init_status, f)] on the file
    opened for writing. *)
Definition write_init_status (init_status : InitStatus) : prog unit :=
  fun _ _ => mkRun (Returns tt) (Json init_status) [WriteStatus init_status].

(** [update_database_init_status(database_name, status)] (lines 108-112) *)
Definition update_database_init_status
    (database_name : string) (status : DatabaseStatus) : prog unit :=
  init_status ← get_init_status;
  let init_status :=
    {| default_db_initialized := default_db_initialized init_status;
       dbs_initialized := <[database_name := status]> (dbs_initialized init_status) |} in
  write_init_status init_status.

(** [update_default_db_init_status(initialized)] (lines 114-118) *)
Definition update_default_db_init_status (initialized : bool) : prog unit :=
  init_status ← get_init_status;
  let init_status :=
    {| default_db_initialized := initialized;
       dbs_initialized := dbs_initialized init_status |} in
  write_init_status init_status.

(** [connect(dsn, autocommit)] (lines 125-131): an [OperationalError] is
    answered by a pause of two seconds and another attempt, anything else
    the attempt raises is let through. *)
Definition connect (dsn : string) (autocommit : bool) : prog unit :=
  fun h f =>
    match connects pg h dsn with
    | Through failed =>
        mkRun (Returns tt) f (repeat (Sleep 2) failed ++ [Connect dsn autocommit])
    | Never => mkRun Blocks f []
    | Broken failed msg => mkRun (Raises (DatabaseError msg)) f (repeat (Sleep 2) failed)
    end.

(** [can_connect(dsn)] (lines 134-139) *)
Definition can_connect (dsn : string) : prog bool :=
  fun h f => mkRun (Returns (accepts pg h dsn)) f [CanConnect dsn].

(** [cur.execute(stmt)], outside any [try]. *)
Definition execute (stmt : string) : prog unit :=
  fun h f =>
    match runs pg h stmt with
    | None => mkRun (Returns tt) f [Execute stmt]
    | Some msg => mkRun (Raises (DatabaseError msg)) f [Execute stmt]
    end.

(** Lines 582-586: the query on [pg_database] and [cur.fetchone() is not
    None]. *)
Definition database_exists (name : string) : prog bool :=
  fun h f =>
    let query := "SELECT 1 FROM pg_database WHERE datname = %s" in
    match runs pg h query with
    | None => mkRun (Returns (has_database pg h name)) f [ExecuteParams query [name]]
    | Some msg => mkRun (Raises (DatabaseError msg)) f [ExecuteParams query [name]]
    end.

Definition sleep (secs : nat) : prog unit := emit (Sleep secs).

(** Lines 189-195 and 205-211: [cursor.execute(stmt)] retried every two
    seconds until it raises nothing. *)
Definition execute_until_it_works (stmt : string) : prog unit :=
  fun h f =>
    match settles pg h stmt with
    | Some failed =>
        mkRun (Returns tt) f
          (concat (repeat [Execute stmt; Sleep 2] failed) ++ [Execute stmt])
    | None => mkRun Blocks f []
    end.

(** Lines 164-172: the count of [spock.node] asked until it is positive;
    a poll that raises is answered by a pause, one that counts no row is
    repeated at once. *)
Definition poll_spock_node (dsn : string) : prog unit :=
  fun h f =>
    let query := "SELECT COUNT(*) FROM spock.node;" in
    match registered pg h dsn with
    | Some misses =>
        mkRun (Returns tt) f
          (flat_map (fun raised : bool =>
                       Execute query :: (if raised then [Sleep 2] else []))
                    misses
           ++ [Execute query])
    | None => mkRun Blocks f []
    end.

(** [wait_for_spock_node(dsn)] (lines 161-172), on a connection of its
    own. *)
Definition wait_for_spock_node (dsn : string) : prog unit :=
  connect dsn true ;;
  poll_spock_node dsn.

(** [spock_sub_create(cursor, sub_name, other_dsn)] (lines 175-195) *)
Definition spock_sub_create (sub_name other_dsn : string) : prog unit :=
  execute_until_it_works (sub_create_statement sub_name other_dsn).

(** [spock_sub_drop(cursor, sub_name)] (lines 197-211) *)
Definition spock_sub_drop (sub_name : string) : prog unit :=
  execute_until_it_works (sub_drop_statement sub_name).

(** *** [init_spock_node] (lines 632-675) *)
Definition init_spock_node (db_info : DatabaseInfo) (schemas : list string) : prog unit :=
  emit (Begin SpockNodeInit (database_name db_info)) ;;
  connect (spock_dsn db_info) false ;;
  execute "SET log_statement = 'none';" ;;
  (let stmts :=
     [ "CREATE EXTENSION IF NOT EXISTS spock;";
       "CREATE EXTENSION IF NOT EXISTS snowflake;";
       "CREATE EXTENSION IF NOT EXISTS pg_stat_statements;" ] in
   let stmts :=
     if bool_decide ("pgcat_auth" ∈ map fst (postgres_users db_info))
     then stmts ++ [ "GRANT SELECT ON pg_shadow TO pgcat_auth;" ]
     else stmts in
   let stmts :=
     stmts ++ flat_map (fun user => alter_user_statements user (database_name db_info) schemas)
                       (map snd (postgres_users db_info)) in
   let stmts :=
     stmts ++ [ "SELECT spock.node_create(node_name := '" +:+ node_name db_info
                +:+ "', dsn := '" +:+ spock_dsn db_info
                +:+ "') WHERE '" +:+ node_name db_info
                +:+ "' NOT IN (SELECT node_name FROM spock.node);" ] in
   for_each stmts execute) ;;
  connect (local_dsn db_info) true ;;
  execute "SET log_statement = 'none';" ;;
  (let stmts :=
     flat_map (fun user => alter_user_statements user (database_name db_info) ["public"])
              (map snd (postgres_users db_info)) in
   for_each stmts execute) ;;
  connect (spock_dsn db_info) false ;;
  execute "SET log_statement = 'none';" ;;
  (let stmts :=
     flat_map (fun user => alter_user_statements user (database_name db_info) schemas)
              (map snd (postgres_users db_info)) in
   for_each stmts execute).

(** *** [init_peer_spock_subscriptions] (lines 607-631) *)

(** Line 608. *)
Definition peers_of (db_info : DatabaseInfo) : list NodeSpec :=
  filter (fun node => node_spec_id node ≠ node_id db_info) (nodes db_info).

(** The body of the loop over the peers (lines 615-629). *)
Definition subscribe_to_peer (db_info : DatabaseInfo) (drop_existing : bool)
    (peer : NodeSpec) : prog unit :=
  host ← lift_raising (get_hostname peer);
  let peer_dsn := dsn (database_name db_info) "pgedge" None host 5432 in
  let sub_name :=
    "sub_" +:+ database_name db_info +:+ "_" +:+ node_name db_info
    +:+ "_" +:+ node_spec_name peer in
  wait_for_spock_node peer_dsn ;;
  (if drop_existing then spock_sub_drop sub_name else skip) ;;
  sleep 2 ;;
  spock_sub_create sub_name peer_dsn.

Definition init_peer_spock_subscriptions (db_info : DatabaseInfo)
    (drop_existing : bool) : prog bool :=
  let peers := peers_of db_info in
  if bool_decide (length peers = 0) then mret false
  else
    emit (Begin PeerRendezvous (database_name db_info)) ;;
    connect (local_dsn db_info) false ;;
    for_each peers (subscribe_to_peer db_info drop_existing) ;;
    mret true.

(** *** [init_default_database] (lines 504-568) *)
Definition init_default_database (db_info : DatabaseInfo) : prog unit :=
  init_status ← get_init_status;
  let default_db_initialized := default_db_initialized init_status in
  if default_db_initialized then skip
  else
    let admin_username := owner db_info in
    emit (Begin PrimaryBootstrap (database_name db_info)) ;;
    connect (init_dsn db_info) true ;;
    (if negb (Py.truthy (init_dsn db_info)) then sys_exit 1 else skip) ;;
    execute "SET log_statement = 'none';" ;;
    roles ← lift_raising (get_superuser_roles env);
    (let stmts :=
       [ "CREATE ROLE pgedge_superuser WITH NOLOGIN;";
         "GRANT " +:+ roles +:+ " TO pgedge_superuser WITH ADMIN true;";
         "GRANT SET ON PARAMETER " +:+ SUPERUSER_PARAMETERS +:+ " TO pgedge_superuser;" ] in
     let stmts :=
       stmts ++ flat_map create_user_statement (map snd (postgres_users db_info)) in
     let stmts :=
       stmts ++
       [ "CREATE DATABASE " +:+ database_name db_info +:+ " OWNER " +:+ admin_username +:+ ";";
         "GRANT ALL PRIVILEGES ON DATABASE " +:+ database_name db_info +:+ " TO " +:+ admin_username +:+ ";";
         "GRANT ALL PRIVILEGES ON DATABASE " +:+ init_dbname db_info +:+ " TO " +:+ admin_username +:+ ";";
         "GRANT ALL PRIVILEGES ON DATABASE " +:+ database_name db_info +:+ " TO pgedge;";
         "ALTER USER pgedge WITH PASSWORD '" +:+ pgedge_pw db_info +:+ "' LOGIN SUPERUSER REPLICATION;" ] in
     for_each stmts execute) ;;
    connect (internal_dsn db_info) true ;;
    execute "SET log_statement = 'none';" ;;
    (let stmts :=
       [ "DROP DATABASE " +:+ init_dbname db_info +:+ ";";
         "DROP USER " +:+ init_username db_info +:+ ";" ] in
     for_each stmts execute) ;;
    (let schemas := ["public"; "spock"; "pg_catalog"; "information_schema"] in
     init_spock_node db_info schemas) ;;
    sleep 5 ;;
    subscribed ← init_peer_spock_subscriptions db_info true;
    if negb subscribed then skip
    else update_default_db_init_status true.

(** *** [init_database] (lines 570-604) *)
Definition init_database (db_info : DatabaseInfo) : prog unit :=
  init_status ← get_init_status;
  let current_status := dbs_initialized init_status !! database_name db_info in
  match current_status with
  | Some _ => skip
  | None =>
      emit (Begin DatabaseCreation (database_name db_info)) ;;
      connect (internal_dsn db_info) true ;;
      execute "SET log_statement = 'none';" ;;
      db_exists ← database_exists (database_name db_info);
      (if negb db_exists
       then execute ("CREATE DATABASE " +:+ database_name db_info
                     +:+ " OWNER " +:+ owner db_info +:+ ";")
       else skip) ;;
      (let stmts :=
         [ "GRANT ALL PRIVILEGES ON DATABASE " +:+ database_name db_info
           +:+ " TO " +:+ owner db_info +:+ ";";
           "GRANT ALL PRIVILEGES ON DATABASE " +:+ database_name db_info +:+ " TO pgedge;" ] in
       for_each stmts execute) ;;
      update_database_init_status (database_name db_info) CREATED
  end.

(** *** [main] (lines 678-742) *)

(** Lines 689-703: offline mode, or the probes and the primary bootstrap. *)
Definition init_node (default_db_info : DatabaseInfo) : prog unit :=
  if bool_decide (mode default_db_info = Some "offline") then block_forever
  else
    sleep 3 ;;
    init_reachable ← can_connect (init_dsn default_db_info);
    initialized ← (if negb init_reachable
                   then can_connect (local_dsn default_db_info)
                   else (mret false : prog bool));
    if (initialized : bool) then skip
    else init_default_database default_db_info.

(** Lines 713-725: the body of the loop that initialises the spock nodes. *)
Definition spock_node_step (schemas : list string) (db_info : DatabaseInfo) : prog unit :=
  init_status ← get_init_status;
  let current_status := dbs_initialized init_status !! database_name db_info in
  match current_status with
  | None => sys_exit 1
  | Some CREATED =>
      init_spock_node db_info schemas ;;
      update_database_init_status (database_name db_info) INITED ;;
      sleep 5
  | Some _ => skip
  end.

(** Lines 729-740: the body of the loop that subscribes to the peers. *)
Definition peer_step (db_info : DatabaseInfo) : prog unit :=
  init_status ← get_init_status;
  let current_status := dbs_initialized init_status !! database_name db_info in
  if bool_decide (current_status = Some SUBSCRIBED) then skip
  else
    subscribed ← init_peer_spock_subscriptions db_info true;
    if (subscribed : bool)
    then update_database_init_status (database_name db_info) SUBSCRIBED
    else skip.

(** Lines 705-740: the three loops over the additional databases. *)
Definition init_other_databases (dbs_info : list DatabaseInfo) : prog unit :=
  for_each dbs_info init_database ;;
  (let schemas := ["public"; "spock"; "pg_catalog"; "information_schema"] in
   for_each dbs_info (spock_node_step schemas)) ;;
  for_each dbs_info peer_step.

(** [main], run on what the resolver produced.  Line 742 reads the loop
    variable [db_info], which is unbound when there is no additional
    database. *)
Definition main (default_db_info : DatabaseInfo) (dbs_info : list DatabaseInfo) : prog unit :=
  init_node default_db_info ;;
  init_other_databases dbs_info ;;
  match last dbs_info with
  | Some _ => skip
  | None => raise (UnboundLocalError "db_info")
  end.

End Script.


(** ** Observations on runs and traces *)

(** The exit status the operating system sees: 0 on return, the argument
    of [sys.exit], 1 for an uncaught exception, none while blocked. *)
Definition exit_code {A} (o : outcome A) : option Z :=
  match o with
  | Returns _ => Some 0%Z
  | Exits code => Some code
  | Raises _ => Some 1%Z
  | Blocks => None
  end.

(** The phases begun for database [D], in order. *)
Definition phases_for (D : string) (tr : list event) : list phase :=
  flat_map (fun e => match e with
                     | Begin ph db => if decide (db = D) then [ph] else []
                     | _ => []
                     end) tr.

(** The records written to the progress file, in order. *)
Definition writes (tr : list event) : list InitStatus :=
  flat_map (fun e => match e with
                     | WriteStatus st => [st]
                     | _ => []
                     end) tr.

(** The persisted status of [D]: what the file records for it. *)
Definition status_of (f : status_file) (D : string) : option DatabaseStatus :=
  dbs_initialized (recorded f) !! D.

(** Starting from status [cur] of [D], no record of [ws] lowers it. *)
Fixpoint forward_chain (D : string) (cur : option DatabaseStatus)
    (ws : list InitStatus) : Prop :=
  match ws with
  | [] => True
  | st :: rest =>
      rank cur <= rank (dbs_initialized st !! D)
      /\ forward_chain D (dbs_initialized st !! D) rest
  end.

(** The status of [D] once the records [ws] have been written over [cur]. *)
Definition status_after (D : string) (cur : option DatabaseStatus)
    (ws : list InitStatus) : option DatabaseStatus :=
  fold_left (fun _ st => dbs_initialized st !! D) ws cur.

(** The host a peer is reached at, when it has one. *)
Definition hostname_of (node : NodeSpec) : string :=
  match get_hostname node with
  | Value h => h
  | Raise _ => EmptyString
  end.

Definition has_hostname (node : NodeSpec) : Prop :=
  get_hostname node = Value (hostname_of node).

(** *** The subscription calls, as the specification words them *)

(** A call of [spock.sub_create] by its named arguments. *)
Record sub_create_call : Type := mkSubCreate {
  subscription_name : string;
  provider_dsn : string;
  replication_sets : list string;
  forward_origins : list string;
  synchronize_structure : bool;
  synchronize_data : bool;
  apply_delay : N
}.

(** A Postgres array literal and a boolean literal. *)
Definition pg_array (xs : list string) : string := "{" +:+ Py.join ", " xs +:+ "}".
Definition pg_bool (b : bool) : string := if b then "true" else "false".

(** The text of a [spock.sub_create] call. *)
Definition render_sub_create (c : sub_create_call) : string :=
  Py.nl +:+
  "    SELECT spock.sub_create(" +:+ Py.nl +:+
  "        subscription_name := '" +:+ subscription_name c +:+ "'," +:+ Py.nl +:+
  "        provider_dsn := '" +:+ provider_dsn c +:+ "'," +:+ Py.nl +:+
  "        replication_sets := '" +:+ pg_array (replication_sets c) +:+ "'," +:+ Py.nl +:+
  "        forward_origins := '" +:+ pg_array (forward_origins c) +:+ "'," +:+ Py.nl +:+
  "        synchronize_structure := '" +:+ pg_bool (synchronize_structure c) +:+ "'," +:+ Py.nl +:+
  "        synchronize_data := '" +:+ pg_bool (synchronize_data c) +:+ "'," +:+ Py.nl +:+
  "        apply_delay := '" +:+ pretty (apply_delay c) +:+ "'" +:+ Py.nl +:+
  "    );".

(** The text of a [spock.sub_drop] call. *)
Definition render_sub_drop (name : string) (ifexists : bool) : string :=
  Py.nl +:+
  "    SELECT spock.sub_drop(" +:+ Py.nl +:+
  "        subscription_name := '" +:+ name +:+ "'," +:+ Py.nl +:+
  "        ifexists := '" +:+ pg_bool ifexists +:+ "'" +:+ Py.nl +:+
  "    );".

(** The name of the subscription of [self] to [peer] for [database]. *)
Definition subscription_name_of (database self peer : string) : string :=
  "sub_" +:+ database +:+ "_" +:+ self +:+ "_" +:+ peer.

(** The subscription the specification asks for. *)
Definition peer_subscription (database self peer host : string) : sub_create_call :=
  {| subscription_name := subscription_name_of database self peer;
     provider_dsn := dsn database "pgedge" None host 5432;
     replication_sets := ["default"; "default_insert_only"; "ddl_sql"];
     forward_origins := [];
     synchronize_structure := true;
     synchronize_data := true;
     apply_delay := 0 |}.

(** What the rendezvous does for one peer when nothing has to be
    repeated: connect to the peer and find its node, drop the subscription
    of that name when asked to, pause, create it. *)
Definition rendezvous_events (db_info : DatabaseInfo) (drop_existing : bool)
    (peer : NodeSpec) : list event :=
  let call := peer_subscription (database_name db_info) (node_name db_info)
                                (node_spec_name peer) (hostname_of peer) in
  [Connect (provider_dsn call) true; Execute "SELECT COUNT(*) FROM spock.node;"]
  ++ (if drop_existing then [Execute (render_sub_drop (subscription_name call) true)] else [])
  ++ [Sleep 2; Execute (render_sub_create call)].

(** The two role sets of the specification. *)
Definition roles_pg15 : list string :=
  [ "pg_read_all_data"; "pg_write_all_data"; "pg_read_all_settings";
    "pg_read_all_stats"; "pg_stat_scan_tables"; "pg_monitor";
    "pg_signal_backend"; "pg_checkpoint" ].

Definition roles_pg16 : list string :=
  roles_pg15 ++ [ "pg_use_reserved_connections"; "pg_create_subscription" ].

(** The role set the specification gives a version. *)
Definition roles_of_version (env : Environ) : option (list string) :=
  match PGV env with
  | Some "15" => Some roles_pg15
  | Some "16" | Some "17" => Some roles_pg16
  | _ => None
  end.

(** Whether [PGV] names a version the script knows. *)
Definition recognized_version (env : Environ) : Prop :=
  PGV env = Some "15" \/ PGV env = Some "16" \/ PGV env = Some "17".

(** *** The database servers *)

(** Servers that let everything through at the first attempt: every
    connection is accepted, every statement succeeds, every peer has its
    node registered. *)
Record prompt (pg : Postgres) : Prop := mkPrompt {
  prompt_connects : forall h d, connects pg h d = Through 0;
  prompt_runs : forall h stmt, runs pg h stmt = None;
  prompt_settles : forall h stmt, settles pg h stmt = Some 0;
  prompt_registered : forall h d, registered pg h d = Some []
}.

(** Servers that let everything through in the end: every connection is
    accepted after some attempts, every statement outside a retry loop
    succeeds, every retried statement works after some attempts, every peer
    registers its node after some polls. *)
Record cooperative (pg : Postgres) : Prop := mkCooperative {
  cooperative_connects : forall h d, exists failed, connects pg h d = Through failed;
  cooperative_runs : forall h stmt, runs pg h stmt = None;
  cooperative_settles : forall h stmt, is_Some (settles pg h stmt);
  cooperative_registered : forall h d, is_Some (registered pg h d)
}.

(** *** The progress file *)

(** A file the script can read: anything but bytes that are not text. *)
Definition readable (f : status_file) : Prop := f <> NotText.

(** The frame a status write would have to keep for the rest of the file
    to survive it: the flag, and the status of every other database. *)
Definition write_keeps_rest (env : Environ) (D : string) (s : DatabaseStatus)
    (f : status_file) : Prop :=
  let f' := file_after (update_database_init_status env D s [] f) in
  default_db_initialized (recorded f') = default_db_initialized (recorded f)
  /\ forall D', D' <> D -> status_of f' D' = status_of f D'.


(** An event that neither begins a phase nor writes the progress file. *)
Definition quiet (e : event) : Prop :=
  match e with
  | Begin _ _ | WriteStatus _ => False
  | _ => True
  end.

(** Whether some entry of [dbs_info] for database [D] has peers. *)
Definition has_peers_for (D : string) (dbs_info : list DatabaseInfo) : bool :=
  existsb (fun db_info =>
             bool_decide (D = database_name db_info)
             && negb (bool_decide (length (peers_of db_info) = 0)))
          dbs_info.

(** *** Relations between the file before a run, its events, and the file
        after it *)

(** A relation that holds of a run of quiet events that leaves the file
    alone, and composes along a sequence. *)
Class Compositional (R : status_file -> list event -> status_file -> Prop) : Prop := {
  comp_quiet : forall f es, Forall quiet es -> R f es f;
  comp_app : forall f e1 f1 e2 f2, R f e1 f1 -> R f1 e2 f2 -> R f (e1 ++ e2) f2
}.

(** [m] satisfies [R] from the history [h] and the file [f]. *)
Definition respects_at (R : status_file -> list event -> status_file -> Prop)
    {A} (m : prog A) (h : list event) (f : status_file) : Prop :=
  R f (events (m h f)) (file_after (m h f)).

(** [m] satisfies [R] wherever it is run. *)
Definition respects (R : status_file -> list event -> status_file -> Prop)
    {A} (m : prog A) : Prop :=
  forall h f, respects_at R m h f.

(** The run leaves the file alone. *)
Definition unwritten : status_file -> list event -> status_file -> Prop :=
  fun f es f' => f' = f /\ writes es = [].

(** The run never lowers the status of [D], write after write, and the file
    ends with the status of the last write. *)
Definition forward (D : string) : status_file -> list event -> status_file -> Prop :=
  fun f es f' =>
    status_of f' D = status_after D (status_of f D) (writes es)
    /\ forward_chain D (status_of f D) (writes es).

(** The run ends with the status of [D] it started with. *)
Definition unchanged (D : string) : status_file -> list event -> status_file -> Prop :=
  fun f _ f' => status_of f' D = status_of f D.

(** The run never begins phase [ph]. *)
Definition without_phase (ph : phase) : status_file -> list event -> status_file -> Prop :=
  fun _ es _ => Forall (fun e => forall db, e <> Begin ph db) es.

(** Phase [ph] is begun for database [db] in the trace. *)
Definition begins (ph : phase) (db : string) (tr : list event) : Prop :=
  ph ∈ phases_for db tr.

(** The answers to the two probes of line 697, at the moment [main] makes
    them: the seed connection [init_dsn] after the pause, and the admin
    connection [local_dsn] after the first probe. *)
Definition seed_reachable (pg : Postgres) (h : list event)
    (default_db_info : DatabaseInfo) : bool :=
  accepts pg (h ++ [Sleep 3]) (init_dsn default_db_info).

Definition admin_reachable (pg : Postgres) (h : list event)
    (default_db_info : DatabaseInfo) : bool :=
  accepts pg ((h ++ [Sleep 3]) ++ [CanConnect (init_dsn default_db_info)])
          (local_dsn default_db_info).

(** The run does not bring [D] to [subscribed]: if [D] was not recorded as
    subscribed, no record written says so and the file does not end so. *)
Definition not_subscribed (D : string) : status_file -> list event -> status_file -> Prop :=
  fun f es f' =>
    status_of f D <> Some SUBSCRIBED ->
    status_of f' D <> Some SUBSCRIBED
    /\ Forall (fun st => dbs_initialized st !! D <> Some SUBSCRIBED) (writes es).

(** The run begins no phase for [D]. *)
Definition silent_about (D : string) : status_file -> list event -> status_file -> Prop :=
  fun _ es _ => phases_for D es = [].

(** The run keeps the record of [D] and does not create [D] again: if the
    file records a status for [D], it does so after the run, and the
    creation phase is not begun for [D]. *)
Definition record_kept (D : string) : status_file -> list event -> status_file -> Prop :=
  fun f es f' =>
    is_Some (status_of f D) ->
    is_Some (status_of f' D) /\ ~ begins DatabaseCreation D es.

(** [m] only talks to the servers: it leaves the progress file alone,
    begins no phase and writes nothing. *)
Definition quietly {A} (m : prog A) : Prop :=
  forall h f, file_after (m h f) = f /\ Forall quiet (events (m h f)).

(** [m] gets through: it returns, having only talked to the servers. *)
Definition passes {A} (m : prog A) : Prop :=
  forall h f, exists a es, m h f = mkRun (Returns a) f es /\ Forall quiet es.

(** Every event of every run of [m] satisfies [Q]. *)
Definition always {A} (Q : event -> Prop) (m : prog A) : Prop :=
  forall h f, Forall Q (events (m h f)).

(** The statements the rendezvous of a database is made of: the count of
    a peer's [spock.node], and for a peer of the database the drop, when
    asked for, and the creation of the subscription the specification asks
    for. *)
Definition rendezvous_statement (db_info : DatabaseInfo) (drop_existing : bool)
    (stmt : string) : Prop :=
  stmt = "SELECT COUNT(*) FROM spock.node;"
  \/ exists peer,
       peer ∈ peers_of db_info
       /\ let call := peer_subscription (database_name db_info) (node_name db_info)
                        (node_spec_name peer) (hostname_of peer) in
          (drop_existing = true /\ stmt = render_sub_drop (subscription_name call) true)
          \/ stmt = render_sub_create call.


(** ** A concrete cluster: database [main], nodes [n1] (self) and [n2],
       one additional database [analytics] *)

Module Example.

Definition n1 : NodeSpec := mkNodeSpec "1" "n1" "eu" (Some "pg-n1") None.
Definition n2 : NodeSpec := mkNodeSpec "2" "n2" "us" (Some "pg-n2") None.

Definition admin1 : UserSpec := mkUserSpec "admin1" "secret" None "postgres" "admin".

Definition info_of (name : string) (cluster : list NodeSpec) : DatabaseInfo :=
  {| database_name := name;
     owner := "admin1";
     hostname := "pg-n1";
     mode := Some "online";
     nodes := cluster;
     node_id := "1";
     node_name := "n1";
     postgres_users := [("admin1", admin1)];
     spock_dsn := dsn name "pgedge" (Some "pw") "pg-n1" 5432;
     local_dsn := dsn name "admin1" (Some "secret") "localhost" 5432;
     internal_dsn := dsn "main" "pgedge" (Some "pw") "localhost" 5432;
     init_dsn := dsn "init" "seed" (Some "pw") "localhost" 5432;
     init_username := "seed";
     init_dbname := "init";
     pgedge_pw := "pw" |}.

Definition main_db : DatabaseInfo := info_of "main" [n1; n2].
Definition analytics : DatabaseInfo := info_of "analytics" [n1; n2].
Definition analytics_alone : DatabaseInfo := info_of "analytics" [n1].

(** Environments: version 16, with and without the force flag; a version
    the script does not know. *)
Definition env16 : Environ := {| FORCE_INIT := None; PGV := Some "16" |}.
Definition env_force : Environ := {| FORCE_INIT := Some "true"; PGV := Some "16" |}.

(** Servers that accept every connection and every statement at once,
    where every peer has its node registered and no additional database
    exists yet. *)
Definition pg_up : Postgres :=
  {| accepts := fun _ _ => true;
     connects := fun _ _ => Through 0;
     runs := fun _ _ => None;
     has_database := fun _ _ => false;
     settles := fun _ _ => Some 0;
     registered := fun _ _ => Some [] |}.

(** The same servers when they are slow: every connection is refused
    twice before it is accepted, a retried statement fails once, the first
    poll of a peer raises and the second counts no node. *)
Definition pg_slow : Postgres :=
  {| accepts := fun _ _ => true;
     connects := fun _ _ => Through 2;
     runs := fun _ _ => None;
     has_database := fun _ _ => false;
     settles := fun _ _ => Some 1;
     registered := fun _ _ => Some [true; false] |}.

(** Servers on which every [CREATE DATABASE] fails. *)
Definition pg_no_create : Postgres :=
  {| accepts := fun _ _ => true;
     connects := fun _ _ => Through 0;
     runs := fun _ stmt =>
               if String.prefix "CREATE DATABASE" stmt
               then Some "permission denied to create database" else None;
     has_database := fun _ _ => false;
     settles := fun _ _ => Some 0;
     registered := fun _ _ => Some [] |}.

(** Servers whose peers never register their node. *)
Definition pg_silent_peers : Postgres :=
  {| accepts := fun _ _ => true;
     connects := fun _ _ => Through 0;
     runs := fun _ _ => None;
     has_database := fun _ _ => false;
     settles := fun _ _ => Some 0;
     registered := fun _ _ => None |}.

(** A bootstrapped node whose [analytics] database stopped at [created]. *)
Definition crashed_after_created : status_file :=
  Json {| default_db_initialized := true;
          dbs_initialized := {[ "analytics" := CREATED ]} |}.

(** A node with [analytics] at [inited]. *)
Definition analytics_inited : status_file :=
  Json {| default_db_initialized := true;
          dbs_initialized := {[ "analytics" := INITED ]} |}.

(** A node that finished, with a second database [reports]. *)
Definition all_subscribed : status_file :=
  Json {| default_db_initialized := true;
          dbs_initialized := {[ "reports" := SUBSCRIBED ]} |}.

End Example.


(** ** The cluster specification and the topology resolver
       (lines 63-82, 214-218, 297-309, 338-501) *)

(** [class DatabaseSpec(TypedDict)]; [owner] is read with [get]. *)
Record DatabaseSpec : Type := mkDatabaseSpec {
  db_spec_name : string;
  db_spec_owner : option string
}.

(** [class ClusterSpec(TypedDict)], as the resolver reads it: every key is
    looked up with [get] or [in], so a key may be missing. *)
Record ClusterSpec : Type := mkClusterSpec {
  spec_name : option string;
  spec_nodes : option (list NodeSpec);
  spec_users : option (list UserSpec);
  spec_mode : option string;
  spec_self : option NodeSpec;
  spec_databases : option (list DatabaseSpec)
}.

(** The variables of the process environment the resolver reads. *)
Record NodeEnviron : Type := mkNodeEnviron {
  NODE_NAME : option string;
  NODE_ID : option string;
  INIT_DATABASE : option string;
  INIT_USERNAME : option string;
  INIT_PASSWORD : option string
}.

(** A Python [dict] with string keys, as the list of its items in
    insertion order. *)
Module Dict.

(** [d[k] = v]: an existing key keeps its place. *)
Fixpoint set {V} (k : string) (v : V) (d : list (string * V)) : list (string * V) :=
  match d with
  | [] => [(k, v)]
  | (k', v') :: rest =>
      if decide (k' = k) then (k, v) :: rest else (k', v') :: set k v rest
  end.

(** [dict(items)] *)
Definition of_items {V} (items : list (string * V)) : list (string * V) :=
  fold_left (fun d item => set (fst item) (snd item) d) items [].

(** [d.get(k)] *)
Fixpoint get {V} (k : string) (d : list (string * V)) : option V :=
  match d with
  | [] => None
  | (k', v) :: rest => if decide (k' = k) then Some v else get k rest
  end.

(** [d] once [k] is removed. *)
Fixpoint remove {V} (k : string) (d : list (string * V)) : list (string * V) :=
  match d with
  | [] => []
  | (k', v) :: rest => if decide (k' = k) then remove k rest else (k', v) :: remove k rest
  end.

(** [d.pop(k, default)]: the value found, if any, and the dict left. *)
Definition pop {V} (k : string) (d : list (string * V)) : option V * list (string * V) :=
  (get k d, remove k d).

End Dict.

(** Outcomes of a function that touches neither Postgres nor the progress
    file. *)
#[global] Instance outcome_ret : MRet outcome := fun A a => Returns a.

#[global] Instance outcome_bind : MBind outcome :=
  fun A B k o =>
    match o with
    | Returns a => k a
    | Exits code => Exits code
    | Raises e => Raises e
    | Blocks => Blocks
    end.

Definition of_raising {A} (v : raising A) : outcome A :=
  match v with
  | Value a => Returns a
  | Raise e => Raises e
  end.

(** [x = spec.get(key)] followed by [if not x: sys.exit(1)], for a string. *)
Definition text_or_exit (v : option string) : outcome string :=
  match v with
  | Some s => if Py.truthy s then Returns s else Exits 1
  | None => Exits 1
  end.

(** The same for a list. *)
Definition list_or_exit {A} (v : option (list A)) : outcome (list A) :=
  match v with
  | Some (x :: rest) => Returns (x :: rest)
  | Some [] | None => Exits 1
  end.

(** [get_admin_creds] (lines 214-218) *)
Fixpoint get_admin_creds (postgres_users : list (string * UserSpec)) : string * string :=
  match postgres_users with
  | [] => (EmptyString, EmptyString)
  | (_, user) :: rest =>
      if bool_decide (service user = "postgres") && bool_decide (user_type user = "admin")
      then (username user, password user)
      else get_admin_creds rest
  end.

(** [get_self_node] (lines 297-309) *)
Definition get_self_node (nenv : NodeEnviron) (spec : ClusterSpec) : outcome NodeSpec :=
  match spec_nodes spec with
  | None => Raises (KeyError "nodes")
  | Some nodes =>
      match spec_self spec with
      | Some self_node => Returns self_node
      | None =>
          let node_id := getenv_default (NODE_ID nenv) "-1" in
          match List.find (fun node => bool_decide (node_spec_id node = node_id)) nodes with
          | Some self_node => Returns self_node
          | None => Exits 1
          end
      end
  end.

(** Lines 359-367 and 440-446: the users of the [postgres] service by
    name, the [pgedge] user taken out, and its password. *)
Definition postgres_users_of (users : list UserSpec) : list (string * UserSpec) :=
  Dict.of_items
    (map (fun user => (username user, user))
         (filter (fun user => service user = "postgres") users)).

Definition pgedge_password (nenv : NodeEnviron) (pgedge : option UserSpec) : option string :=
  match pgedge with
  | Some user => Some (password user)
  | None => INIT_PASSWORD nenv
  end.

(** [get_default_db_info] (lines 338-410).  [None] from [os.getenv] is kept
    as it prints in the statements and connection strings built from it. *)
Definition get_default_db_info (nenv : NodeEnviron) (spec : ClusterSpec)
    : outcome DatabaseInfo :=
  default_db_name ← text_or_exit (spec_name spec);
  nodes ← list_or_exit (spec_nodes spec);
  users ← list_or_exit (spec_users spec);
  self_node ← get_self_node nenv spec;
  hostname ← of_raising (get_hostname self_node);
  let node_name := node_spec_name self_node in
  let node_id := node_spec_id self_node in
  let postgres_users := postgres_users_of users in
  let popped := Dict.pop "pgedge" postgres_users in
  let postgres_users := snd popped in
  pgedge_pw ← text_or_exit (pgedge_password nenv (fst popped));
  let admin := get_admin_creds postgres_users in
  let admin_username := fst admin in
  let admin_password := snd admin in
  if negb (Py.truthy admin_username) || negb (Py.truthy admin_password)
  then Exits 1
  else
    let spock_dsn := dsn default_db_name "pgedge" (Some pgedge_pw) hostname 5432 in
    let local_dsn := dsn default_db_name admin_username (Some admin_password) "localhost" 5432 in
    let internal_dsn := dsn default_db_name "pgedge" (Some pgedge_pw) "localhost" 5432 in
    let init_dbname := fmt_optional (INIT_DATABASE nenv) in
    let init_username := fmt_optional (INIT_USERNAME nenv) in
    let init_password := INIT_PASSWORD nenv in
    let init_dsn := dsn init_dbname init_username init_password "localhost" 5432 in
    let mode := getenv_default (spec_mode spec) "online" in
    Returns
      {| database_name := default_db_name;
         owner := admin_username;
         nodes := nodes;
         hostname := hostname;
         node_name := node_name;
         node_id := node_id;
         postgres_users := postgres_users;
         spock_dsn := spock_dsn;
         local_dsn := local_dsn;
         internal_dsn := internal_dsn;
         init_dsn := init_dsn;
         init_dbname := init_dbname;
         init_username := init_username;
         pgedge_pw := pgedge_pw;
         mode := Some mode |}.

(** [get_dbs_info] (lines 412-501) *)
Definition get_dbs_info (nenv : NodeEnviron) (spec : ClusterSpec)
    : outcome (list DatabaseInfo) :=
  default_db_name ← text_or_exit (spec_name spec);
  match spec_databases spec with
  | None | Some [] => Returns []
  | Some databases =>
      nodes ← list_or_exit (spec_nodes spec);
      users ← list_or_exit (spec_users spec);
      self_node ← get_self_node nenv spec;
      hostname ← of_raising (get_hostname self_node);
      let node_name := node_spec_name self_node in
      let node_id := node_spec_id self_node in
      let postgres_users := postgres_users_of users in
      let popped := Dict.pop "pgedge" postgres_users in
      let postgres_users := snd popped in
      pgedge_pw ← text_or_exit (pgedge_password nenv (fst popped));
      let admin := get_admin_creds postgres_users in
      let admin_username := fst admin in
      let admin_password := snd admin in
      if negb (Py.truthy admin_username) || negb (Py.truthy admin_password)
      then Exits 1
      else
        let init_dbname := fmt_optional (INIT_DATABASE nenv) in
        let init_username := fmt_optional (INIT_USERNAME nenv) in
        let init_password := INIT_PASSWORD nenv in
        let init_dsn := dsn init_dbname init_username init_password "localhost" 5432 in
        let mode := getenv_default (spec_mode spec) "online" in
        Returns
          (map (fun db =>
                  let db_name := db_spec_name db in
                  let db_owner :=
                    match db_spec_owner db with
                    | Some o => if Py.truthy o then o else admin_username
                    | None => admin_username
                    end in
                  let spock_dsn := dsn db_name "pgedge" (Some pgedge_pw) hostname 5432 in
                  let local_dsn :=
                    dsn db_name admin_username (Some admin_password) "localhost" 5432 in
                  let internal_dsn :=
                    dsn default_db_name "pgedge" (Some pgedge_pw) "localhost" 5432 in
                  {| database_name := db_name;
                     owner := db_owner;
                     nodes := nodes;
                     hostname := hostname;
                     node_name := node_name;
                     node_id := node_id;
                     postgres_users := postgres_users;
                     spock_dsn := spock_dsn;
                     local_dsn := local_dsn;
                     internal_dsn := internal_dsn;
                     pgedge_pw := pgedge_pw;
                     mode := Some mode;
                     init_dsn := init_dsn;
                     init_dbname := init_dbname;
                     init_username := init_username |})
               databases)
  end.

(** An outcome of the resolver, inside the script. *)
Definition lift_outcome {A} (o : outcome A) : prog A :=
  fun _ f => mkRun o f [].

(** The whole of [main] (lines 678-742), from the configuration file:
    [None] when [CLUSTER_CONF_FILE] does not exist, in which case
    [read_config] raises [FileNotFoundError] and line 684 exits. *)
Definition script_main (env : Environ) (nenv : NodeEnviron) (pg : Postgres)
    (config : option ClusterSpec) : prog unit :=
  match config with
  | None => sys_exit 1
  | Some spec =>
      default_db_info ← lift_outcome (get_default_db_info nenv spec);
      init_node env pg default_db_info ;;
      dbs_info ← lift_outcome (get_dbs_info nenv spec);
      init_other_databases env pg dbs_info ;;
      match last dbs_info with
      | Some _ => skip
      | None => raise (UnboundLocalError "db_info")
      end
  end.


(** ** Further observations, for the properties beyond the claims *)

(** The connections a trace opens, in order. *)
Definition connections (tr : list event) : list (string * bool) :=
  flat_map (fun e => match e with
                     | Connect d autocommit => [(d, autocommit)]
                     | _ => []
                     end) tr.

(** The statements a trace executes without parameters, in order. *)
Definition statements (tr : list event) : list string :=
  flat_map (fun e => match e with
                     | Execute stmt => [stmt]
                     | _ => []
                     end) tr.

(** The outcome is not a [sys.exit]. *)
Definition ends_without_exit {A} (o : outcome A) : Prop :=
  match o with
  | Exits _ => False
  | _ => True
  end.

(** The run does not clear the primary flag. *)
Definition flag_kept : status_file -> list event -> status_file -> Prop :=
  fun f _ f' =>
    default_db_initialized (recorded f) = true ->
    default_db_initialized (recorded f') = true.

(** The two families of user types of [alter_user_statements]. *)
Definition read_only_type (user : UserSpec) : Prop :=
  user_type user ∈ ["application_read_only"; "internal_read_only"; "pooler_auth"].

(** The databases of a specification, none when the key is missing. *)
Definition databases_of (spec : ClusterSpec) : list DatabaseSpec :=
  match spec_databases spec with
  | Some databases => databases
  | None => []
  end.

(** The owner [get_dbs_info] gives a database: its own when it names one,
    the admin user otherwise. *)
Definition owner_or (admin_username : string) (db : DatabaseSpec) : string :=
  match db_spec_owner db with
  | Some o => if Py.truthy o then o else admin_username
  | None => admin_username
  end.

(** A concrete specification: database [main], nodes [n1] and [n2], the
    users [pgedge] and [admin1], one additional database. *)
Module Cluster.

Definition pgedge : UserSpec := mkUserSpec "pgedge" "pw" (Some true) "postgres" "internal_admin".
Definition pooler : UserSpec := mkUserSpec "pgcat_auth" "pc" None "pgcat" "pooler_auth".

Definition spec : ClusterSpec :=
  {| spec_name := Some "main";
     spec_nodes := Some [Example.n1; Example.n2];
     spec_users := Some [pgedge; Example.admin1; pooler];
     spec_mode := None;
     spec_self := None;
     spec_databases := Some [mkDatabaseSpec "analytics" None] |}.

Definition spec_without_databases : ClusterSpec :=
  {| spec_name := Some "main";
     spec_nodes := Some [Example.n1; Example.n2];
     spec_users := Some [pgedge; Example.admin1; pooler];
     spec_mode := None;
     spec_self := None;
     spec_databases := None |}.

Definition nenv : NodeEnviron :=
  {| NODE_NAME := Some "n1";
     NODE_ID := Some "1";
     INIT_DATABASE := Some "init";
     INIT_USERNAME := Some "seed";
     INIT_PASSWORD := Some "seedpw" |}.

(** A node whose only peer has no hostname key. *)
Definition n3 : NodeSpec := mkNodeSpec "3" "n3" "ap" None None.
Definition analytics_lost_peer : DatabaseInfo := Example.info_of "analytics" [Example.n1; Example.n2; n3].

(** Every database finished. *)
Definition finished : status_file :=
  Json {| default_db_initialized := true;
          dbs_initialized := {[ "analytics" := SUBSCRIBED ]} |}.

End Cluster.

(** The users the resolver keeps: those of the [postgres] service, by
    name, without [pgedge]. *)
Definition resolved_users (users : list UserSpec) : list (string * UserSpec) :=
  snd (Dict.pop "pgedge" (postgres_users_of users)).

(** Everything of a [DatabaseInfo] that does not depend on the database. *)
Definition same_node (a b : DatabaseInfo) : Prop :=
  nodes a = nodes b
  /\ hostname a = hostname b
  /\ node_name a = node_name b
  /\ node_id a = node_id b
  /\ postgres_users a = postgres_users b
  /\ mode a = mode b
  /\ internal_dsn a = internal_dsn b
  /\ init_dsn a = init_dsn b
  /\ init_dbname a = init_dbname b
  /\ init_username a = init_username b
  /\ pgedge_pw a = pgedge_pw b.

(** A key of the specification that is missing or empty. *)
Definition no_text (v : option string) : Prop := v = None \/ v = Some EmptyString.
Definition no_items {A} (v : option (list A)) : Prop := v = None \/ v = Some [].

(** No explicit [self] entry and no node with the id of [NODE_ID]. *)
Definition self_unknown (nenv : NodeEnviron) (spec : ClusterSpec) : Prop :=
  spec_self spec = None
  /\ forall cluster node,
       spec_nodes spec = Some cluster -> node ∈ cluster ->
       node_spec_id node <> getenv_default (NODE_ID nenv) "-1".

(** The computation never ends by [sys.exit]. *)
Definition never_exits {A} (m : prog A) : Prop :=
  forall h f, ends_without_exit (result (m h f)).

(** The statements executed from the start of a trace up to the next
    connection. *)
Fixpoint until_connect (tr : list event) : list string :=
  match tr with
  | [] => []
  | Connect _ _ :: _ => []
  | Execute stmt :: rest => stmt :: until_connect rest
  | _ :: rest => until_connect rest
  end.

(** The sessions of a trace: each connection with the statements executed
    on it. *)
Fixpoint sessions (tr : list event) : list (string * bool * list string) :=
  match tr with
  | [] => []
  | Connect d autocommit :: rest => (d, autocommit, until_connect rest) :: sessions rest
  | _ :: rest => sessions rest
  end.

(** The run has returned with the record [st] written as its last effect
    and nothing written before, or it has not returned and has left the
    file [f] as it was, with nothing written. *)
Definition written_last_or_never {A} (st : InitStatus) (f : status_file)
    (r : run A) : Prop :=
  (exists a es, result r = Returns a
                /\ file_after r = Json st
                /\ events r = es ++ [WriteStatus st]
                /\ writes es = [])
  \/ ((forall a, result r <> Returns a)
      /\ file_after r = f
      /\ writes (events r) = []).

(** The trace of one session: the pauses before the connection is
    accepted, the connection, and the statements executed on it. *)
Definition session_events (failed : nat) (d : string) (autocommit : bool)
    (stmts : list string) : list event :=
  repeat (Sleep 2) failed ++ Connect d autocommit :: map Execute stmts.

(** The grants of every user of a database over some schemas
    (the loops of lines 645-648, 659-662 and 670-673). *)
Definition grants_for (db_info : DatabaseInfo) (schemas : list string) : list string :=
  flat_map (fun user => alter_user_statements user (database_name db_info) schemas)
           (map snd (postgres_users db_info)).

(** * Properties *)

(** ** The monad *)

Lemma run_eta {A} (r : run A) : mkRun (result r) (file_after r) (events r) = r.
Proof. by destruct r. Qed.

Lemma after_nil {A} (r : run A) : after [] r = r.
Proof. by destruct r. Qed.

Lemma after_after {A} (es1 es2 : list event) (r : run A) :
  after es1 (after es2 r) = after (es1 ++ es2) r.
Proof. unfold after; simpl. by rewrite app_assoc. Qed.

Lemma after_run {A} (es : list event) (o : outcome A) f es' :
  after es (mkRun o f es') = mkRun o f (es ++ es').
Proof. reflexivity. Qed.

Lemma ret_run {A} (a : A) h f : (mret a : prog A) h f = mkRun (Returns a) f [].
Proof. reflexivity. Qed.

Lemma skip_run h f : skip h f = mkRun (Returns tt) f [].
Proof. reflexivity. Qed.

Lemma bind_known {A B} (m : prog A) (k : A -> prog B) h f a f1 e1 :
  m h f = mkRun (Returns a) f1 e1 ->
  (m ≫= k) h f = after e1 (k a (h ++ e1) f1).
Proof. intros Hm. unfold mbind, prog_bind. by rewrite Hm. Qed.

Lemma bind_ret {A B} (a : A) (k : A -> prog B) h f :
  (mret a ≫= k) h f = k a h f.
Proof.
  rewrite (bind_known _ _ h f a f []); [|done].
  by rewrite app_nil_r, after_nil.
Qed.

Lemma bind_skip {B} (k : unit -> prog B) h f : (skip ≫= k) h f = k tt h f.
Proof. apply bind_ret. Qed.

Lemma bind_emit {B} (e : event) (k : unit -> prog B) h f :
  (emit e ≫= k) h f = after [e] (k tt (h ++ [e]) f).
Proof. by apply bind_known. Qed.

Lemma bind_exit {A B} (code : Z) (k : A -> prog B) h f :
  (sys_exit code ≫= k) h f = mkRun (Exits code) f [].
Proof. done. Qed.

Lemma bind_raise {A B} (e : exn) (k : A -> prog B) h f :
  (raise e ≫= k) h f = mkRun (Raises e) f [].
Proof. done. Qed.

Lemma bind_returns {A B} (m : prog A) (k : A -> prog B) h f a :
  result (m h f) = Returns a ->
  (m ≫= k) h f
  = after (events (m h f)) (k a (h ++ events (m h f)) (file_after (m h f))).
Proof.
  intros Hret. apply bind_known. rewrite <- Hret. symmetry. apply run_eta.
Qed.

Lemma bind_stops {A B} (m : prog A) (k : A -> prog B) h f :
  (forall a, result (m h f) <> Returns a) ->
  result ((m ≫= k) h f) = match result (m h f) with
                          | Returns _ => Blocks
                          | Exits c => Exits c
                          | Raises e => Raises e
                          | Blocks => Blocks
                          end
  /\ file_after ((m ≫= k) h f) = file_after (m h f)
  /\ events ((m ≫= k) h f) = events (m h f).
Proof.
  intros Hstop. unfold mbind, prog_bind.
  destruct (result (m h f)) as [a| | |]; [by destruct (Hstop a)|done..].
Qed.

Lemma bind_raises {A B} (m : prog A) (k : A -> prog B) h f e f1 e1 :
  m h f = mkRun (Raises e) f1 e1 -> (m ≫= k) h f = mkRun (Raises e) f1 e1.
Proof. intros Hm. unfold mbind, prog_bind. by rewrite Hm. Qed.

Lemma bind_exits {A B} (m : prog A) (k : A -> prog B) h f c f1 e1 :
  m h f = mkRun (Exits c) f1 e1 -> (m ≫= k) h f = mkRun (Exits c) f1 e1.
Proof. intros Hm. unfold mbind, prog_bind. by rewrite Hm. Qed.

Lemma bind_blocks {A B} (m : prog A) (k : A -> prog B) h f f1 e1 :
  m h f = mkRun Blocks f1 e1 -> (m ≫= k) h f = mkRun Blocks f1 e1.
Proof. intros Hm. unfold mbind, prog_bind. by rewrite Hm. Qed.

(** A sequence that returns went through its first step. *)
Lemma bind_result_returns {A B} (m : prog A) (k : A -> prog B) h f b :
  result ((m ≫= k) h f) = Returns b ->
  exists a, result (m h f) = Returns a
            /\ result (k a (h ++ events (m h f)) (file_after (m h f))) = Returns b.
Proof.
  unfold mbind, prog_bind.
  destruct (result (m h f)) as [a| | |]; cbn [after result]; try discriminate.
  intros Hk. by exists a.
Qed.

(** ** The progress record *)

Lemma read_without_force env f :
  force_update env = false -> readable f ->
  read_init_status env f = Value (recorded f).
Proof. intros Hf Hr. unfold read_init_status. rewrite Hf. by destruct f. Qed.

Lemma read_with_force env f :
  force_update env = true -> read_init_status env f = Value empty_status.
Proof. intros Hf. unfold read_init_status. by rewrite Hf. Qed.

Lemma read_not_text env :
  force_update env = false -> read_init_status env NotText = Raise UnicodeDecodeError.
Proof. intros Hf. unfold read_init_status. by rewrite Hf. Qed.

(** A read that returns, returns what the file records, unless the force
    flag makes it return the empty record. *)
Lemma read_value env f st :
  read_init_status env f = Value st ->
  if force_update env then st = empty_status else readable f /\ st = recorded f.
Proof.
  unfold read_init_status. destruct (force_update env); [congruence|].
  destruct f; intros [= <-]; done.
Qed.

(** A read raises only on a file that is not text, without the force
    flag. *)
Lemma read_raise env f e :
  read_init_status env f = Raise e ->
  force_update env = false /\ f = NotText /\ e = UnicodeDecodeError.
Proof.
  unfold read_init_status. destruct (force_update env); [discriminate|].
  destruct f; intros [= <-]; done.
Qed.

(** A file in which something is recorded is a file the script can read. *)
Lemma recorded_readable f D s :
  dbs_initialized (recorded f) !! D = Some s -> readable f.
Proof. by intros Hs ->. Qed.

Lemma flagged_readable f : default_db_initialized (recorded f) = true -> readable f.
Proof. by intros Hs ->. Qed.

(** ** Stepping through a computation *)

Lemma bind_get {B} env (k : InitStatus -> prog B) h f st :
  read_init_status env f = Value st ->
  (get_init_status env ≫= k) h f = k st h f.
Proof.
  intros Hread. rewrite (bind_known _ _ h f st f []).
  - by rewrite app_nil_r, after_nil.
  - unfold get_init_status. by rewrite Hread.
Qed.

Lemma bind_get_raises {B} env (k : InitStatus -> prog B) h f e :
  read_init_status env f = Raise e ->
  (get_init_status env ≫= k) h f = mkRun (Raises e) f [].
Proof.
  intros Hread. apply bind_raises. unfold get_init_status. by rewrite Hread.
Qed.

Lemma bind_can_connect {B} pg (d : string) (k : bool -> prog B) h f :
  (can_connect pg d ≫= k) h f
  = after [CanConnect d] (k (accepts pg h d) (h ++ [CanConnect d]) f).
Proof. by apply bind_known. Qed.

(** What an update does once its read has returned. *)
Lemma update_database_run env D s h f st :
  read_init_status env f = Value st ->
  update_database_init_status env D s h f
  = let st' := {| default_db_initialized := default_db_initialized st;
                  dbs_initialized := <[D := s]> (dbs_initialized st) |} in
    mkRun (Returns tt) (Json st') [WriteStatus st'].
Proof.
  intros Hread. unfold update_database_init_status. by rewrite (bind_get _ _ _ _ _ Hread).
Qed.

Lemma update_default_run env b h f st :
  read_init_status env f = Value st ->
  update_default_db_init_status env b h f
  = let st' := {| default_db_initialized := b;
                  dbs_initialized := dbs_initialized st |} in
    mkRun (Returns tt) (Json st') [WriteStatus st'].
Proof.
  intros Hread. unfold update_default_db_init_status. by rewrite (bind_get _ _ _ _ _ Hread).
Qed.

Lemma update_database_raises env D s h f e :
  read_init_status env f = Raise e ->
  update_database_init_status env D s h f = mkRun (Raises e) f [].
Proof. intros Hread. by apply bind_get_raises. Qed.

Lemma update_default_raises env b h f e :
  read_init_status env f = Raise e ->
  update_default_db_init_status env b h f = mkRun (Raises e) f [].
Proof. intros Hread. by apply bind_get_raises. Qed.

(** *** With servers that let everything through at once *)

Section Prompt.

Context (pg : Postgres) (Hprompt : prompt pg).

Lemma connect_prompt d autocommit h f :
  connect pg d autocommit h f = mkRun (Returns tt) f [Connect d autocommit].
Proof. unfold connect. by rewrite (prompt_connects pg Hprompt). Qed.

Lemma execute_prompt stmt h f :
  execute pg stmt h f = mkRun (Returns tt) f [Execute stmt].
Proof. unfold execute. by rewrite (prompt_runs pg Hprompt). Qed.

Lemma execute_until_it_works_prompt stmt h f :
  execute_until_it_works pg stmt h f = mkRun (Returns tt) f [Execute stmt].
Proof. unfold execute_until_it_works. by rewrite (prompt_settles pg Hprompt). Qed.

Lemma database_exists_prompt name h f :
  database_exists pg name h f
  = mkRun (Returns (has_database pg h name)) f
      [ExecuteParams "SELECT 1 FROM pg_database WHERE datname = %s" [name]].
Proof. unfold database_exists. cbv zeta. by rewrite (prompt_runs pg Hprompt). Qed.

Lemma wait_for_spock_node_prompt d h f :
  wait_for_spock_node pg d h f
  = mkRun (Returns tt) f [Connect d true; Execute "SELECT COUNT(*) FROM spock.node;"].
Proof.
  unfold wait_for_spock_node.
  rewrite (bind_known _ _ h f tt f _ (connect_prompt d true h f)).
  unfold poll_spock_node. cbv zeta. by rewrite (prompt_registered pg Hprompt).
Qed.

Lemma bind_connect {B} d autocommit (k : unit -> prog B) h f :
  (connect pg d autocommit ≫= k) h f
  = after [Connect d autocommit] (k tt (h ++ [Connect d autocommit]) f).
Proof. apply bind_known, connect_prompt. Qed.

Lemma bind_execute {B} stmt (k : unit -> prog B) h f :
  (execute pg stmt ≫= k) h f = after [Execute stmt] (k tt (h ++ [Execute stmt]) f).
Proof. apply bind_known, execute_prompt. Qed.

Lemma bind_execute_until_it_works {B} stmt (k : unit -> prog B) h f :
  (execute_until_it_works pg stmt ≫= k) h f
  = after [Execute stmt] (k tt (h ++ [Execute stmt]) f).
Proof. apply bind_known, execute_until_it_works_prompt. Qed.

Lemma bind_database_exists {B} name (k : bool -> prog B) h f :
  (database_exists pg name ≫= k) h f
  = after [ExecuteParams "SELECT 1 FROM pg_database WHERE datname = %s" [name]]
      (k (has_database pg h name)
         (h ++ [ExecuteParams "SELECT 1 FROM pg_database WHERE datname = %s" [name]]) f).
Proof. apply bind_known, database_exists_prompt. Qed.

Lemma bind_wait_for_spock_node {B} d (k : unit -> prog B) h f :
  (wait_for_spock_node pg d ≫= k) h f
  = after [Connect d true; Execute "SELECT COUNT(*) FROM spock.node;"]
      (k tt (h ++ [Connect d true; Execute "SELECT COUNT(*) FROM spock.node;"]) f).
Proof. apply bind_known, wait_for_spock_node_prompt. Qed.

Lemma for_each_execute (stmts : list string) h f :
  for_each stmts (execute pg) h f = mkRun (Returns tt) f (map Execute stmts).
Proof.
  revert h. induction stmts as [|s stmts IH]; intros h; cbn [for_each map]; [done|].
  rewrite bind_execute, IH. done.
Qed.

Lemma bind_for_each_execute {B} (stmts : list string) (k : unit -> prog B) h f :
  (for_each stmts (execute pg) ≫= k) h f
  = after (map Execute stmts) (k tt (h ++ map Execute stmts) f).
Proof. apply bind_known, for_each_execute. Qed.

End Prompt.

(** One step of symbolic execution of a sequence, with prompt servers. *)
Ltac step :=
  unfold sleep, spock_sub_create, spock_sub_drop;
  first [ rewrite bind_emit
        | rewrite bind_skip
        | rewrite bind_ret
        | rewrite bind_can_connect
        | rewrite bind_raise
        | rewrite bind_exit
        | match goal with
          | Hp : prompt ?pg |- _ =>
              first [ rewrite (bind_for_each_execute pg Hp)
                    | rewrite (bind_connect pg Hp)
                    | rewrite (bind_execute pg Hp)
                    | rewrite (bind_execute_until_it_works pg Hp)
                    | rewrite (bind_wait_for_spock_node pg Hp)
                    | rewrite (bind_database_exists pg Hp) ]
          end ].

(** The servers of the examples are prompt. *)
Lemma pg_up_prompt : prompt Example.pg_up.
Proof. by split. Qed.

Lemma prompt_cooperative pg : prompt pg -> cooperative pg.
Proof.
  intros [Hc Hr Hs Hg]. split; intros h x.
  - exists 0. apply Hc.
  - apply Hr.
  - rewrite Hs. by eexists.
  - rewrite Hg. by eexists.
Qed.

(** ** Reading the progress file *)

(** C8. Reading the progress file returns the empty record
    [{default_db_initialized: False, dbs_initialized: {}}] when the file
    is absent and when it holds a text that is not JSON. A file that is not
    text is not caught by line 105: the read raises [UnicodeDecodeError],
    and so does [main], once it has made its probes. *)
Theorem C8_file_that_is_not_text_raises :
  forall (env : Environ),
    read_init_status env NoFile = Value empty_status
    /\ read_init_status env NotJson = Value empty_status
    /\ (forall h, get_init_status env h NoFile = mkRun (Returns empty_status) NoFile [])
    /\ (forall h, get_init_status env h NotJson = mkRun (Returns empty_status) NotJson [])
    /\ read_init_status Example.env16 NotText = Raise UnicodeDecodeError
    /\ get_init_status Example.env16 [] NotText = mkRun (Raises UnicodeDecodeError) NotText []
    /\ main Example.env16 Example.pg_up Example.main_db [Example.analytics] [] NotText
       = mkRun (Raises UnicodeDecodeError) NotText
           [Sleep 3; CanConnect (init_dsn Example.main_db)].
Proof.
  intros env.
  assert (Hno : read_init_status env NoFile = Value empty_status)
    by (unfold read_init_status; by destruct (force_update env)).
  assert (Hbad : read_init_status env NotJson = Value empty_status)
    by (unfold read_init_status; by destruct (force_update env)).
  split; [done|]. split; [done|].
  split; [intros h; unfold get_init_status; by rewrite Hno|].
  split; [intros h; unfold get_init_status; by rewrite Hbad|].
  split; [reflexivity|]. split; [reflexivity|].
  unfold main. apply bind_raises. unfold init_node.
  rewrite bool_decide_eq_false_2 by discriminate.
  step. step. cbn [Example.pg_up accepts negb]. rewrite bind_ret.
  unfold init_default_database.
  by rewrite (bind_get_raises _ _ _ _ UnicodeDecodeError).
Qed.

(** C10. Without the force flag each update of the progress file is
    frame-preserving: [update_database_init_status] for [D] leaves the flag
    and every other database's status as they were, and
    [update_default_db_init_status] leaves every per-database status as it
    was, whatever the file holds. On a file the script can read the update
    returns and what is read afterwards has the new status of [D], or the
    new flag; on a file that is not text the update raises at its read and
    leaves the file as it is. *)
Theorem C10_updates_preserve_the_frame :
  forall (env : Environ) (D : string) (s : DatabaseStatus) (b : bool) h f,
    force_update env = false ->
    (let r := update_database_init_status env D s h f in
     default_db_initialized (recorded (file_after r)) = default_db_initialized (recorded f)
     /\ (forall D', D' <> D ->
           dbs_initialized (recorded (file_after r)) !! D'
           = dbs_initialized (recorded f) !! D')
     /\ (readable f ->
         read_init_status env f = Value (recorded f)
         /\ result r = Returns tt
         /\ read_init_status env (file_after r) = Value (recorded (file_after r))
         /\ dbs_initialized (recorded (file_after r)) !! D = Some s)
     /\ (f = NotText -> r = mkRun (Raises UnicodeDecodeError) f []))
    /\
    (let r := update_default_db_init_status env b h f in
     dbs_initialized (recorded (file_after r)) = dbs_initialized (recorded f)
     /\ (readable f ->
         read_init_status env f = Value (recorded f)
         /\ result r = Returns tt
         /\ read_init_status env (file_after r) = Value (recorded (file_after r))
         /\ default_db_initialized (recorded (file_after r)) = b)
     /\ (f = NotText -> r = mkRun (Raises UnicodeDecodeError) f [])).
Proof.
  intros env D s b h f Hforce. cbv zeta.
  assert (Hcases : f = NotText \/ readable f)
    by (destruct f; [by right|by left|by right|by right]).
  destruct Hcases as [->|Hread].
  - rewrite (update_database_raises env D s h NotText _ (read_not_text env Hforce)).
    rewrite (update_default_raises env b h NotText _ (read_not_text env Hforce)).
    cbn [file_after]. repeat split; try done; by intros [].
  - pose proof (read_without_force env f Hforce Hread) as Hf.
    rewrite (update_database_run env D s h f _ Hf).
    rewrite (update_default_run env b h f _ Hf).
    cbv zeta. cbn [file_after result recorded default_db_initialized dbs_initialized].
    split; [split; [done|split; [|split]]|split; [done|split]].
    + intros D' Hne. by apply lookup_insert_ne.
    + intros _. split; [done|]. split; [done|].
      split; [by apply read_without_force|]. apply lookup_insert_eq.
    + done.
    + intros _. split; [done|]. split; [done|].
      split; [by apply read_without_force|]. done.
    + done.
Qed.

Lemma C10_witness :
  force_update Example.env16 = false
  /\ status_of (file_after (update_database_init_status Example.env16 "analytics" INITED []
                               Example.all_subscribed)) "reports" = Some SUBSCRIBED.
Proof.
  split; [reflexivity|].
  destruct (C10_updates_preserve_the_frame Example.env16 "analytics" INITED true []
              Example.all_subscribed eq_refl) as [(_ & Hother & _) _].
  unfold status_of. rewrite (Hother "reports") by discriminate. reflexivity.
Defined.

(** ** Relations that compose along a run *)

Lemma writes_app (e1 e2 : list event) : writes (e1 ++ e2) = writes e1 ++ writes e2.
Proof. apply flat_map_app. Qed.

Lemma phases_for_app D (e1 e2 : list event) :
  phases_for D (e1 ++ e2) = phases_for D e1 ++ phases_for D e2.
Proof. apply flat_map_app. Qed.

Lemma status_after_app D cur (w1 w2 : list InitStatus) :
  status_after D cur (w1 ++ w2) = status_after D (status_after D cur w1) w2.
Proof. apply fold_left_app. Qed.

Lemma forward_chain_app D cur (w1 w2 : list InitStatus) :
  forward_chain D cur w1 ->
  forward_chain D (status_after D cur w1) w2 ->
  forward_chain D cur (w1 ++ w2).
Proof.
  revert cur. induction w1 as [|st w1 IH]; intros cur H1 H2; [done|].
  destruct H1 as [Hle H1]. split; [done|]. by apply IH.
Qed.

Lemma quiet_no_phase D (es : list event) : Forall quiet es -> phases_for D es = [].
Proof.
  unfold phases_for. induction 1 as [|e es He _ IH]; [done|].
  cbn [flat_map]. rewrite IH. by destruct e.
Qed.

Lemma quiet_no_write (es : list event) : Forall quiet es -> writes es = [].
Proof.
  unfold writes. induction 1 as [|e es He _ IH]; [done|].
  cbn [flat_map]. rewrite IH. by destruct e.
Qed.

Lemma quiet_map_execute (stmts : list string) : Forall quiet (map Execute stmts).
Proof. induction stmts; by constructor. Qed.

Lemma quiet_repeat (e : event) n : quiet e -> Forall quiet (repeat e n).
Proof. intros He. induction n; by constructor. Qed.

#[global] Instance unwritten_compositional : Compositional unwritten.
Proof.
  split.
  - intros f es Hq. split; [done|]. by apply quiet_no_write.
  - intros f e1 f1 e2 f2 [-> H1] [-> H2]. split; [done|].
    by rewrite writes_app, H1, H2.
Qed.

#[global] Instance forward_compositional D : Compositional (forward D).
Proof.
  split.
  - intros f es Hq. unfold forward. by rewrite (quiet_no_write es Hq).
  - intros f e1 f1 e2 f2 [S1 C1] [S2 C2]. unfold forward.
    rewrite writes_app, status_after_app. rewrite <- S1. split; [done|].
    apply forward_chain_app; [done|]. by rewrite <- S1.
Qed.

#[global] Instance unchanged_compositional D : Compositional (unchanged D).
Proof.
  split; [done|].
  unfold unchanged. intros f e1 f1 e2 f2 H1 H2. by rewrite H2.
Qed.

#[global] Instance without_phase_compositional ph : Compositional (without_phase ph).
Proof.
  split.
  - intros f es Hq. unfold without_phase. eapply Forall_impl; [exact Hq|].
    intros e He db ->. exact He.
  - unfold without_phase. intros f e1 f1 e2 f2 H1 H2. by apply Forall_app.
Qed.

#[global] Instance not_subscribed_compositional D : Compositional (not_subscribed D).
Proof.
  split.
  - intros f es Hq Hf. split; [done|]. rewrite (quiet_no_write es Hq). constructor.
  - intros f e1 f1 e2 f2 H1 H2 Hf.
    destruct (H1 Hf) as [Hf1 Hw1]. destruct (H2 Hf1) as [Hf2 Hw2].
    split; [done|]. rewrite writes_app. by apply Forall_app.
Qed.

#[global] Instance flag_kept_compositional : Compositional flag_kept.
Proof.
  split; unfold flag_kept; [by intros f es _ Hf|].
  intros f e1 f1 e2 f2 H1 H2 Hf. auto.
Qed.

#[global] Instance silent_about_compositional D : Compositional (silent_about D).
Proof.
  split.
  - intros f es Hq. by apply quiet_no_phase.
  - unfold silent_about. intros f e1 f1 e2 f2 H1 H2.
    by rewrite phases_for_app, H1, H2.
Qed.

#[global] Instance record_kept_compositional D : Compositional (record_kept D).
Proof.
  split.
  - intros f es Hq Hf. split; [done|]. unfold begins.
    rewrite (quiet_no_phase D es Hq). apply not_elem_of_nil.
  - intros f e1 f1 e2 f2 H1 H2 Hf.
    destruct (H1 Hf) as [Hf1 Hw1]. destruct (H2 Hf1) as [Hf2 Hw2].
    split; [done|]. unfold begins in *. rewrite phases_for_app, elem_of_app. tauto.
Qed.

(** *** Computations that only talk to the servers *)

Lemma quietly_ret {A} (a : A) : quietly (mret a).
Proof. intros h f. split; [done|constructor]. Qed.

Lemma quietly_skip : quietly skip.
Proof. apply quietly_ret. Qed.

Lemma quietly_exit {A} code : quietly (@sys_exit A code).
Proof. intros h f. split; [done|constructor]. Qed.

Lemma quietly_raise {A} e : quietly (@raise A e).
Proof. intros h f. split; [done|constructor]. Qed.

Lemma quietly_block {A} : quietly (@block_forever A).
Proof. intros h f. split; [done|constructor]. Qed.

Lemma quietly_lift_raising {A} (v : raising A) : quietly (lift_raising v).
Proof. destruct v; [apply quietly_ret|apply quietly_raise]. Qed.

Lemma quietly_get env : quietly (get_init_status env).
Proof. intros h f. unfold get_init_status. apply quietly_lift_raising. Qed.

Lemma quietly_emit e : quiet e -> quietly (emit e).
Proof. intros He h f. split; [done|]. by repeat constructor. Qed.

Lemma quietly_sleep secs : quietly (sleep secs).
Proof. by apply quietly_emit. Qed.

Lemma quietly_can_connect pg d : quietly (can_connect pg d).
Proof. intros h f. split; [done|]. by repeat constructor. Qed.

Lemma quietly_connect pg d autocommit : quietly (connect pg d autocommit).
Proof.
  intros h f. unfold connect.
  destruct (connects pg h d) as [failed| |failed msg]; cbn [file_after events];
    (split; [done|]).
  - apply Forall_app. split; [by apply quiet_repeat|by repeat constructor].
  - constructor.
  - by apply quiet_repeat.
Qed.

Lemma quietly_execute pg stmt : quietly (execute pg stmt).
Proof.
  intros h f. unfold execute.
  destruct (runs pg h stmt); cbn [file_after events]; (split; [done|]);
    by repeat constructor.
Qed.

Lemma quietly_database_exists pg name : quietly (database_exists pg name).
Proof.
  intros h f. unfold database_exists. cbv zeta.
  destruct (runs pg h _); cbn [file_after events]; (split; [done|]);
    by repeat constructor.
Qed.

Lemma quietly_execute_until_it_works pg stmt : quietly (execute_until_it_works pg stmt).
Proof.
  intros h f. unfold execute_until_it_works.
  destruct (settles pg h stmt) as [failed|]; cbn [file_after events];
    (split; [done|]); [|constructor].
  apply Forall_app. split; [|by repeat constructor].
  induction failed as [|n IH]; cbn [repeat concat]; [constructor|].
  by repeat constructor.
Qed.

Lemma quietly_poll_spock_node pg d : quietly (poll_spock_node pg d).
Proof.
  intros h f. unfold poll_spock_node. cbv zeta.
  destruct (registered pg h d) as [misses|]; cbn [file_after events];
    (split; [done|]); [|constructor].
  apply Forall_app. split; [|by repeat constructor].
  induction misses as [|[] misses IH]; cbn [flat_map]; by repeat constructor.
Qed.

Lemma quietly_bind {A B} (m : prog A) (k : A -> prog B) :
  quietly m -> (forall a, quietly (k a)) -> quietly (m ≫= k).
Proof.
  intros Hm Hk h f. destruct (Hm h f) as [Hfile Hq].
  unfold mbind, prog_bind.
  destruct (result (m h f)) as [a| | |]; cbn [after file_after events]; try done.
  destruct (Hk a (h ++ events (m h f)) (file_after (m h f))) as [Hfile' Hq'].
  split; [congruence|]. by apply Forall_app.
Qed.

Lemma quietly_for_each {A} (xs : list A) (body : A -> prog unit) :
  (forall x, x ∈ xs -> quietly (body x)) -> quietly (for_each xs body).
Proof.
  induction xs as [|x xs IH]; intros Hbody; cbn [for_each]; [apply quietly_skip|].
  apply quietly_bind; [apply Hbody; by left|].
  intros _. apply IH. intros y Hy. apply Hbody. by right.
Qed.

Lemma quietly_wait_for_spock_node pg d : quietly (wait_for_spock_node pg d).
Proof.
  unfold wait_for_spock_node.
  apply quietly_bind; [apply quietly_connect|]. intros _. apply quietly_poll_spock_node.
Qed.

Lemma quietly_spock_sub_create pg name d : quietly (spock_sub_create pg name d).
Proof. apply quietly_execute_until_it_works. Qed.

Lemma quietly_spock_sub_drop pg name : quietly (spock_sub_drop pg name).
Proof. apply quietly_execute_until_it_works. Qed.

(** Facts about the functions of the script, for the automation below. *)
Create HintDb script discriminated.

#[global] Hint Resolve quietly_ret quietly_skip quietly_exit quietly_raise quietly_block
  quietly_lift_raising quietly_get quietly_sleep quietly_can_connect quietly_connect
  quietly_execute quietly_database_exists quietly_execute_until_it_works
  quietly_poll_spock_node quietly_wait_for_spock_node quietly_spock_sub_create
  quietly_spock_sub_drop : script.

(** Proves [quietly m] for a computation built from the primitives. *)
Ltac quietly_tac :=
  repeat first
    [ progress intros
    | progress cbv zeta
    | solve [eauto 2 with script nocore]
    | apply quietly_bind
    | apply quietly_for_each
    | apply quietly_emit; exact I
    | match goal with
      | |- quietly (if ?b then _ else _) => destruct b
      | |- quietly (match ?x with _ => _ end) => destruct x
      end ].

Section Closure.

Context (R : status_file -> list event -> status_file -> Prop) `{!Compositional R}.

Lemma comp_nil f : R f [] f.
Proof. apply comp_quiet. constructor. Qed.

Lemma respects_at_bind {A B} (m : prog A) (k : A -> prog B) h f :
  respects_at R m h f ->
  (forall a, result (m h f) = Returns a ->
             respects_at R (k a) (h ++ events (m h f)) (file_after (m h f))) ->
  respects_at R (m ≫= k) h f.
Proof.
  unfold respects_at, mbind, prog_bind. intros Hm Hk.
  destruct (result (m h f)) as [a| | |]; cbn [after events file_after]; try done.
  eapply comp_app; [done|]. by apply Hk.
Qed.

Lemma respects_quietly {A} (m : prog A) : quietly m -> respects R m.
Proof.
  intros Hm h f. destruct (Hm h f) as [Hfile Hq].
  unfold respects_at. rewrite Hfile. by apply comp_quiet.
Qed.

Lemma respects_ret {A} (a : A) : respects R (mret a).
Proof. apply respects_quietly, quietly_ret. Qed.

Lemma respects_skip : respects R skip.
Proof. apply respects_ret. Qed.

Lemma respects_exit {A} code : respects R (@sys_exit A code).
Proof. apply respects_quietly, quietly_exit. Qed.

Lemma respects_raise {A} e : respects R (@raise A e).
Proof. apply respects_quietly, quietly_raise. Qed.

Lemma respects_bind {A B} (m : prog A) (k : A -> prog B) :
  respects R m -> (forall a, respects R (k a)) -> respects R (m ≫= k).
Proof.
  intros Hm Hk h f. apply respects_at_bind; [apply Hm|]. intros a _. apply Hk.
Qed.

Lemma respects_for_each {A} (xs : list A) (body : A -> prog unit) :
  (forall x, x ∈ xs -> respects R (body x)) -> respects R (for_each xs body).
Proof.
  induction xs as [|x xs IH]; intros Hbody; cbn [for_each]; [apply respects_skip|].
  apply respects_bind; [apply Hbody; by left|].
  intros _. apply IH. intros y Hy. apply Hbody. by right.
Qed.

Lemma respects_emit e : (forall f, R f [e] f) -> respects R (emit e).
Proof. intros He h f. apply He. Qed.

(** A status write, once the record has been read. *)
Lemma respects_write st : (forall f, R f [WriteStatus st] (Json st)) -> respects R (write_init_status st).
Proof. intros He h f. apply He. Qed.

(** A step that leaves the file alone, followed by a continuation that
    satisfies [R] from the same file. *)
Lemma respects_at_after_quietly {A B} (m : prog A) (k : A -> prog B) h f :
  quietly m ->
  (forall a h', respects_at R (k a) h' f) ->
  respects_at R (m ≫= k) h f.
Proof.
  intros Hm Hk. destruct (Hm h f) as [Hfile Hq].
  apply respects_at_bind.
  - unfold respects_at. rewrite Hfile. by apply comp_quiet.
  - intros a _. rewrite Hfile. apply Hk.
Qed.

(** A step that writes nothing, followed by a continuation that
    satisfies [R] from the same file, for a relation that looks at the
    writes only. *)
Lemma respects_at_after_unwritten {A B} (m : prog A) (k : A -> prog B) h f :
  (forall f es, writes es = [] -> R f es f) ->
  respects unwritten m ->
  (forall a h', respects_at R (k a) h' f) ->
  respects_at R (m ≫= k) h f.
Proof.
  intros Hquiet Hm Hk. destruct (Hm h f) as [Hfile Hw].
  apply respects_at_bind.
  - unfold respects_at. rewrite Hfile. by apply Hquiet.
  - intros a _. rewrite Hfile. apply Hk.
Qed.

(** A step that begins a phase, likewise. *)
Lemma respects_at_after_emit {B} e (k : unit -> prog B) h f :
  R f [e] f ->
  (forall h', respects_at R (k tt) h' f) ->
  respects_at R (emit e ≫= k) h f.
Proof.
  intros He Hk. apply respects_at_bind; [exact He|]. intros [] _. apply Hk.
Qed.

(** The read of the progress file, followed by a continuation. *)
Lemma respects_at_get {B} env (k : InitStatus -> prog B) h f :
  (forall st, read_init_status env f = Value st -> respects_at R (k st) h f) ->
  respects_at R (get_init_status env ≫= k) h f.
Proof.
  intros Hk. unfold respects_at.
  destruct (read_init_status env f) as [st|e] eqn:Hread.
  - rewrite (bind_get _ _ _ _ _ Hread). by apply Hk.
  - rewrite (bind_get_raises _ _ _ _ _ Hread). apply comp_nil.
Qed.

(** A status update that satisfies [R] whatever it reads. *)
Lemma respects_at_update_database env D s h f :
  (forall st, read_init_status env f = Value st ->
     let st' := {| default_db_initialized := default_db_initialized st;
                   dbs_initialized := <[D := s]> (dbs_initialized st) |} in
     R f [WriteStatus st'] (Json st')) ->
  respects_at R (update_database_init_status env D s) h f.
Proof.
  intros He. unfold update_database_init_status.
  apply respects_at_get. intros st Hst. apply (He st Hst).
Qed.

Lemma respects_at_update_default env b h f :
  (forall st, read_init_status env f = Value st ->
     let st' := {| default_db_initialized := b;
                   dbs_initialized := dbs_initialized st |} in
     R f [WriteStatus st'] (Json st')) ->
  respects_at R (update_default_db_init_status env b) h f.
Proof.
  intros He. unfold update_default_db_init_status.
  apply respects_at_get. intros st Hst. apply (He st Hst).
Qed.

Lemma respects_at_of {A} (m : prog A) h f : respects R m -> respects_at R m h f.
Proof. intros Hm. apply Hm. Qed.

End Closure.

(** Proves [respects R m] for a computation built from the primitives and
    from functions already covered by [script], given a tactic for the
    phases it begins. *)
Ltac respects_with emits :=
  repeat first
    [ progress intros
    | match goal with |- Compositional _ => typeclasses eauto end
    | progress cbv zeta
    | solve [eauto 3 with script nocore]
    | apply respects_quietly; solve [typeclasses eauto | quietly_tac]
    | apply respects_bind
    | apply respects_for_each
    | apply respects_emit; emits
    | apply respects_write; emits
    | match goal with
      | |- respects _ (if ?b then _ else _) => destruct b
      | |- respects _ (match ?x with _ => _ end) => destruct x
      end ].

(** *** Steps that leave the progress file alone *)

Lemma init_spock_node_unwritten pg db_info schemas :
  respects unwritten (init_spock_node pg db_info schemas).
Proof. unfold init_spock_node. respects_with ltac:(intros; split; reflexivity). Qed.

Lemma init_peer_spock_subscriptions_unwritten pg db_info drop_existing :
  respects unwritten (init_peer_spock_subscriptions pg db_info drop_existing).
Proof.
  unfold init_peer_spock_subscriptions, subscribe_to_peer.
  respects_with ltac:(intros; split; reflexivity).
Qed.

#[global] Hint Resolve init_spock_node_unwritten
  init_peer_spock_subscriptions_unwritten : script.

(** A computation that leaves the file alone satisfies every relation
    that quiet events satisfy, once its phases are accounted for. *)
Lemma unwritten_file {A} (m : prog A) h f :
  respects unwritten m -> file_after (m h f) = f /\ writes (events (m h f)) = [].
Proof. intros Hm. apply (Hm h f). Qed.

(** ** C1: when the primary bootstrap runs *)

Ltac emits_without_phase :=
  intros; unfold without_phase; repeat constructor; intros; discriminate.

Lemma without_phase_not_begun ph D (es : list event) :
  Forall (fun e => forall db, e <> Begin ph db) es -> ~ begins ph D es.
Proof.
  unfold begins. induction 1 as [|e es He _ IH]; cbn.
  - apply not_elem_of_nil.
  - rewrite elem_of_app. intros [Hin|Hin]; [|by apply IH].
    destruct e as [ph' db| | | | | |]; try by apply elem_of_nil in Hin.
    destruct (decide (db = D)); [|by apply elem_of_nil in Hin].
    apply list_elem_of_singleton in Hin. subst ph'. by apply (He db).
Qed.

Lemma begins_app ph D (e1 e2 : list event) :
  begins ph D (e1 ++ e2) <-> begins ph D e1 \/ begins ph D e2.
Proof. unfold begins. rewrite phases_for_app. apply elem_of_app. Qed.

Lemma begins_quiet ph D (es : list event) : Forall quiet es -> ~ begins ph D es.
Proof. intros Hq. unfold begins. rewrite (quiet_no_phase D es Hq). apply not_elem_of_nil. Qed.

(** What follows a step does not begin a phase it is built without. *)
Lemma begins_bind_without {A B} ph D (m : prog A) (k : A -> prog B) h f :
  (forall a, respects (without_phase ph) (k a)) ->
  begins ph D (events ((m ≫= k) h f)) <-> begins ph D (events (m h f)).
Proof.
  intros Hk. unfold mbind, prog_bind.
  destruct (result (m h f)) as [a| | |]; cbn [after events]; try done.
  rewrite begins_app. split; [|by left].
  intros [Hm|Hrest]; [done|].
  by destruct (without_phase_not_begun ph D _ (Hk a _ _) Hrest).
Qed.

Lemma init_other_databases_without_bootstrap env pg dbs_info :
  respects (without_phase PrimaryBootstrap) (init_other_databases env pg dbs_info).
Proof.
  unfold init_other_databases, init_database, spock_node_step, peer_step,
    init_spock_node, init_peer_spock_subscriptions, subscribe_to_peer,
    update_database_init_status.
  respects_with emits_without_phase.
Qed.

(** The bootstrap begins as soon as the flag it reads is not set, whatever
    the servers do afterwards. *)
Lemma init_default_database_begins env pg db_info h f :
  begins PrimaryBootstrap (database_name db_info)
         (events (init_default_database env pg db_info h f))
  <-> exists st, read_init_status env f = Value st
                 /\ default_db_initialized st = false.
Proof.
  unfold init_default_database.
  destruct (read_init_status env f) as [st|e] eqn:Hread.
  - rewrite (bind_get _ _ _ _ _ Hread). cbv zeta.
    destruct (default_db_initialized st) eqn:Hflag.
    + split.
      * intros Hb. unfold begins in Hb. by apply elem_of_nil in Hb.
      * intros (st' & [= <-] & Hst'). congruence.
    + rewrite bind_emit. cbn [after events]. rewrite begins_app. split.
      * intros _. by exists st.
      * intros _. left. unfold begins. cbn. rewrite decide_True by done. by left.
  - rewrite (bind_get_raises _ _ _ _ _ Hread). cbn [events]. split.
    + intros Hb. unfold begins in Hb. by apply elem_of_nil in Hb.
    + intros (st' & [=] & _).
Qed.

(** The three ways [init_node] goes in online mode. *)
Lemma init_node_online env pg default_db_info h f :
  mode default_db_info <> Some "offline" ->
  init_node env pg default_db_info h f
  = if seed_reachable pg h default_db_info
    then after [Sleep 3; CanConnect (init_dsn default_db_info)]
           (init_default_database env pg default_db_info
              ((h ++ [Sleep 3]) ++ [CanConnect (init_dsn default_db_info)]) f)
    else if admin_reachable pg h default_db_info
    then mkRun (Returns tt) f
           [Sleep 3; CanConnect (init_dsn default_db_info);
            CanConnect (local_dsn default_db_info)]
    else after [Sleep 3; CanConnect (init_dsn default_db_info);
                CanConnect (local_dsn default_db_info)]
           (init_default_database env pg default_db_info
              (((h ++ [Sleep 3]) ++ [CanConnect (init_dsn default_db_info)])
               ++ [CanConnect (local_dsn default_db_info)]) f).
Proof.
  intros Hmode. unfold init_node, seed_reachable, admin_reachable.
  rewrite bool_decide_eq_false_2 by done.
  step. step.
  destruct (accepts pg (h ++ [Sleep 3]) (init_dsn default_db_info)); cbn [negb].
  - rewrite bind_ret. by rewrite after_after.
  - step.
    destruct (accepts pg ((h ++ [Sleep 3]) ++ [CanConnect (init_dsn default_db_info)])
                (local_dsn default_db_info)).
    + reflexivity.
    + by rewrite !after_after.
Qed.

(** C1, as the specification states it, fails: with the seed connection
    and the admin connection both reachable and no progress recorded, the
    primary bootstrap runs, although the admin connection is reachable. *)
Lemma C1_counterexample :
  ~ (begins PrimaryBootstrap "main"
       (events (main Example.env16 Example.pg_up Example.main_db [Example.analytics]
                     [] NoFile))
     <-> seed_reachable Example.pg_up [] Example.main_db = true
         /\ admin_reachable Example.pg_up [] Example.main_db = false).
Proof.
  intros [Hruns _].
  assert (Hbegun : begins PrimaryBootstrap "main"
            (events (main Example.env16 Example.pg_up Example.main_db
                          [Example.analytics] [] NoFile))).
  { unfold begins. vm_compute. by left. }
  destruct (Hruns Hbegun) as [_ Hadmin]. discriminate Hadmin.
Qed.

(** C1, amended. In online mode [main] calls [init_default_database] unless
    the probes show a node already initialised, that is unless the seed
    connection is unreachable and the admin connection is reachable; the
    bootstrap then runs when the progress read does not have the primary
    flag set. So the primary bootstrap runs if and only if the seed
    connection is reachable or the admin connection is not reachable, and
    the read of the progress file returns a record whose flag is false. In
    offline mode nothing runs: [main] never ends. *)
Theorem C1_bootstrap_runs_unless_probed_initialized :
  forall (env : Environ) (pg : Postgres) (default_db_info : DatabaseInfo)
         (dbs_info : list DatabaseInfo) h f,
    (mode default_db_info = Some "offline" ->
       main env pg default_db_info dbs_info h f = mkRun Blocks f [])
    /\ (mode default_db_info <> Some "offline" ->
        (begins PrimaryBootstrap (database_name default_db_info)
                (events (main env pg default_db_info dbs_info h f))
         <-> (seed_reachable pg h default_db_info = true
              \/ admin_reachable pg h default_db_info = false)
             /\ exists st, read_init_status env f = Value st
                           /\ default_db_initialized st = false)).
Proof.
  intros env pg ddb dbs h f. split.
  - intros Hmode. unfold main, init_node.
    rewrite bool_decide_eq_true_2 by done. reflexivity.
  - intros Hmode. unfold main.
    rewrite begins_bind_without.
    2:{ intros []. apply respects_bind; [typeclasses eauto| |].
        - apply init_other_databases_without_bootstrap.
        - intros []. destruct (last dbs);
            [apply respects_skip|apply respects_raise]; typeclasses eauto. }
    rewrite (init_node_online env pg ddb h f Hmode).
    destruct (seed_reachable pg h ddb).
    + cbn [after events]. rewrite begins_app, init_default_database_begins.
      split; [|tauto]. intros [Hpre|Hflag]; [|tauto].
      unfold begins in Hpre. cbn in Hpre. by apply elem_of_nil in Hpre.
    + destruct (admin_reachable pg h ddb).
      * cbn [events]. split.
        -- intros Hpre. unfold begins in Hpre. cbn in Hpre.
           by apply elem_of_nil in Hpre.
        -- intros [[?|?] _]; discriminate.
      * cbn [after events]. rewrite begins_app, init_default_database_begins.
        split; [|tauto]. intros [Hpre|Hflag]; [|tauto].
        unfold begins in Hpre. cbn in Hpre. by apply elem_of_nil in Hpre.
Qed.

Lemma C1_witness :
  mode Example.main_db <> Some "offline"
  /\ begins PrimaryBootstrap "main"
       (events (main Example.env16 Example.pg_up Example.main_db [Example.analytics]
                     [] NoFile)).
Proof.
  split; [discriminate|].
  apply (proj2 (C1_bootstrap_runs_unless_probed_initialized Example.env16 Example.pg_up
                  Example.main_db [Example.analytics] [] NoFile));
    [discriminate|].
  split; [by left|]. by exists empty_status.
Defined.

(** ** C2: the status of a database only moves forward *)

Lemma forward_of_unwritten D f (es : list event) :
  writes es = [] -> forward D f es f.
Proof. intros Hw. unfold forward. by rewrite Hw. Qed.

Lemma rank_top s : rank s <= rank (Some SUBSCRIBED).
Proof. destruct s as [[]|]; cbn; lia. Qed.

(** A status write for [name] moves [D] forward as soon as it does not
    lower [D] itself. *)
Lemma update_database_forward_at env D name s h f :
  force_update env = false ->
  (name = D -> rank (status_of f D) <= rank (Some s)) ->
  respects_at (forward D) (update_database_init_status env name s) h f.
Proof.
  intros Hforce Hrank. apply respects_at_update_database; [typeclasses eauto|].
  intros st Hst. pose proof (read_value _ _ _ Hst) as Hval.
  rewrite Hforce in Hval. destruct Hval as [_ ->].
  unfold forward, status_of.
  cbn [writes flat_map app status_after fold_left forward_chain recorded dbs_initialized].
  split; [done|]. split; [|done].
  destruct (decide (name = D)) as [->|Hne].
  - rewrite lookup_insert_eq. by apply Hrank.
  - by rewrite lookup_insert_ne.
Qed.

Lemma update_default_forward env D b :
  force_update env = false ->
  respects (forward D) (update_default_db_init_status env b).
Proof.
  intros Hforce h f. apply respects_at_update_default; [typeclasses eauto|].
  intros st Hst. pose proof (read_value _ _ _ Hst) as Hval.
  rewrite Hforce in Hval. destruct Hval as [_ ->].
  unfold forward, status_of. by cbn.
Qed.

#[global] Hint Resolve update_default_forward : script.

Ltac emits_forward := intros; split; [reflexivity|exact I].

Lemma init_default_database_forward env pg D db_info :
  force_update env = false ->
  respects (forward D) (init_default_database env pg db_info).
Proof.
  intros Hforce.
  unfold init_default_database, init_spock_node, init_peer_spock_subscriptions,
    subscribe_to_peer.
  respects_with emits_forward.
Qed.

#[global] Hint Resolve init_default_database_forward : script.

Lemma init_node_forward env pg D default_db_info :
  force_update env = false ->
  respects (forward D) (init_node env pg default_db_info).
Proof.
  intros Hforce. unfold init_node.
  respects_with emits_forward.
Qed.

(** Runs the steps that only talk to the servers or begin a phase, up to
    the next step that matters. *)
Ltac past_quiet emits :=
  repeat (lazymatch goal with
          | |- respects_at _ (_ ≫= _) _ _ => idtac
          end;
          first
            [ apply respects_at_after_emit; try typeclasses eauto; [emits | intros]
            | apply respects_at_after_quietly; try typeclasses eauto;
              [solve [quietly_tac] | intros] ]).

Lemma init_database_forward env pg D db_info :
  force_update env = false ->
  respects (forward D) (init_database env pg db_info).
Proof.
  intros Hforce h f. unfold init_database.
  apply respects_at_get; [typeclasses eauto|]. intros st Hst.
  pose proof (read_value _ _ _ Hst) as Hval.
  rewrite Hforce in Hval. destruct Hval as [_ ->]. cbv zeta.
  destruct (dbs_initialized (recorded f) !! database_name db_info) as [s|] eqn:Hstatus.
  - apply (respects_skip (forward D)).
  - past_quiet emits_forward.
    apply update_database_forward_at; [done|].
    intros <-. unfold status_of. rewrite Hstatus. cbn. lia.
Qed.

Lemma spock_node_step_forward env pg D schemas db_info :
  force_update env = false ->
  respects (forward D) (spock_node_step env pg schemas db_info).
Proof.
  intros Hforce h f. unfold spock_node_step.
  apply respects_at_get; [typeclasses eauto|]. intros st Hst.
  pose proof (read_value _ _ _ Hst) as Hval.
  rewrite Hforce in Hval. destruct Hval as [_ ->]. cbv zeta.
  destruct (dbs_initialized (recorded f) !! database_name db_info) as [[]|] eqn:Hstatus.
  - apply respects_at_after_unwritten;
      [typeclasses eauto|apply forward_of_unwritten|apply init_spock_node_unwritten|].
    intros [] h'.
    apply respects_at_bind; [typeclasses eauto| |].
    + apply update_database_forward_at; [done|].
      intros <-. unfold status_of. rewrite Hstatus. cbn. lia.
    + intros [] _. apply (respects_quietly (forward D)), quietly_sleep.
  - apply (respects_skip (forward D)).
  - apply (respects_skip (forward D)).
  - apply (respects_exit (forward D)).
Qed.

Lemma peer_step_forward env pg D db_info :
  force_update env = false ->
  respects (forward D) (peer_step env pg db_info).
Proof.
  intros Hforce h f. unfold peer_step.
  apply respects_at_get; [typeclasses eauto|]. intros st Hst. cbv zeta.
  destruct (bool_decide _).
  - apply (respects_skip (forward D)).
  - apply respects_at_after_unwritten;
      [typeclasses eauto|apply forward_of_unwritten
      |apply init_peer_spock_subscriptions_unwritten|].
    intros [] h'.
    + apply update_database_forward_at; [done|]. intros _. apply rank_top.
    + apply (respects_skip (forward D)).
Qed.

#[global] Hint Resolve init_node_forward init_database_forward
  spock_node_step_forward peer_step_forward : script.

Lemma main_forward env pg D default_db_info dbs_info :
  force_update env = false ->
  respects (forward D) (main env pg default_db_info dbs_info).
Proof.
  intros Hforce. unfold main, init_other_databases.
  respects_with emits_forward.
Qed.

Lemma forward_chain_prefix D cur (w1 w2 : list InitStatus) :
  forward_chain D cur (w1 ++ w2) -> forward_chain D cur w1.
Proof.
  revert cur. induction w1 as [|st w1 IH]; intros cur; [done|].
  intros [Hle Hrest]. split; [done|]. by apply IH.
Qed.

(** Along a chain that only moves forward the status does not decrease. *)
Lemma forward_chain_rank D cur (ws : list InitStatus) :
  forward_chain D cur ws -> rank cur <= rank (status_after D cur ws).
Proof.
  revert cur. induction ws as [|st ws IH]; intros cur Hchain; cbn; [lia|].
  destruct Hchain as [Hle Hchain]. specialize (IH _ Hchain).
  unfold status_after in IH. lia.
Qed.

(** C2. In a run without the force flag, the persisted status of a database
    [D] only moves forward through absent < created < inited < subscribed:
    write after write, from the status the run finds, no record written to
    the progress file gives [D] a lower status than the one before it. This
    holds of the writes of the whole run and of those done up to any point
    of it, where the process may be killed, and whatever the servers
    answer. *)
Theorem C2_status_only_moves_forward :
  forall (env : Environ) (pg : Postgres) (default_db_info : DatabaseInfo)
         (dbs_info : list DatabaseInfo) (D : string) h f,
    force_update env = false ->
    let r := main env pg default_db_info dbs_info h f in
    forward_chain D (status_of f D) (writes (events r))
    /\ (forall done_so_far rest,
          writes (events r) = done_so_far ++ rest ->
          forward_chain D (status_of f D) done_so_far)
    /\ status_of (file_after r) D = status_after D (status_of f D) (writes (events r))
    /\ rank (status_of f D) <= rank (status_of (file_after r) D).
Proof.
  intros env pg ddb dbs D h f Hforce r.
  destruct (main_forward env pg D ddb dbs Hforce h f) as [Hlast Hchain].
  fold r in Hlast, Hchain. split; [done|]. split.
  { intros pre post Hsplit. rewrite Hsplit in Hchain.
    by apply forward_chain_prefix in Hchain. }
  split; [done|].
  rewrite Hlast. by apply forward_chain_rank.
Qed.

Lemma C2_witness :
  force_update Example.env16 = false
  /\ forward_chain "analytics" (Some CREATED)
       (writes (events (main Example.env16 Example.pg_up Example.main_db
                             [Example.analytics] [] Example.crashed_after_created))).
Proof.
  split; [reflexivity|].
  exact (proj1 (C2_status_only_moves_forward Example.env16 Example.pg_up Example.main_db
                  [Example.analytics] "analytics" [] Example.crashed_after_created
                  eq_refl)).
Defined.

(** ** The peer rendezvous *)

Lemma sub_create_statement_renders (database self peer host : string) :
  let call := peer_subscription database self peer host in
  sub_create_statement (subscription_name call) (provider_dsn call)
  = render_sub_create call.
Proof. reflexivity. Qed.

Lemma sub_drop_statement_renders (name : string) :
  sub_drop_statement name = render_sub_drop name true.
Proof. reflexivity. Qed.

Lemma init_peer_spock_subscriptions_no_peers pg db_info drop_existing h f :
  peers_of db_info = [] ->
  init_peer_spock_subscriptions pg db_info drop_existing h f = mkRun (Returns false) f [].
Proof.
  intros Hnone. unfold init_peer_spock_subscriptions. by rewrite Hnone.
Qed.

(** *** With prompt servers *)

Lemma subscribe_to_peer_run pg db_info drop_existing peer h f :
  prompt pg ->
  has_hostname peer ->
  subscribe_to_peer pg db_info drop_existing peer h f
  = mkRun (Returns tt) f (rendezvous_events db_info drop_existing peer).
Proof.
  intros Hp Hhost. unfold subscribe_to_peer. rewrite Hhost.
  cbn [lift_raising]. rewrite bind_ret. cbv zeta.
  destruct drop_existing; repeat step; unfold spock_sub_create;
    rewrite (execute_until_it_works_prompt pg Hp); reflexivity.
Qed.

Lemma subscribe_to_peers_run pg db_info drop_existing (peers : list NodeSpec) h f :
  prompt pg ->
  Forall has_hostname peers ->
  for_each peers (subscribe_to_peer pg db_info drop_existing) h f
  = mkRun (Returns tt) f (flat_map (rendezvous_events db_info drop_existing) peers).
Proof.
  intros Hp Hall. revert h.
  induction Hall as [|peer peers Hpeer _ IH]; intros h; cbn [for_each flat_map]; [done|].
  rewrite (bind_known _ _ h f tt f _ (subscribe_to_peer_run _ _ _ _ h f Hp Hpeer)).
  rewrite IH. reflexivity.
Qed.

Lemma init_peer_spock_subscriptions_run pg db_info drop_existing h f :
  prompt pg ->
  peers_of db_info <> [] ->
  Forall has_hostname (peers_of db_info) ->
  init_peer_spock_subscriptions pg db_info drop_existing h f
  = mkRun (Returns true) f
      (Begin PeerRendezvous (database_name db_info)
       :: Connect (local_dsn db_info) false
       :: flat_map (rendezvous_events db_info drop_existing) (peers_of db_info)).
Proof.
  intros Hp Hsome Hall. unfold init_peer_spock_subscriptions.
  rewrite bool_decide_eq_false_2 by (by destruct (peers_of db_info)).
  step. step.
  rewrite (bind_known _ _ _ f tt f _ (subscribe_to_peers_run _ _ _ _ _ f Hp Hall)).
  rewrite !after_after, ret_run, after_run. cbn [app]. by rewrite app_nil_r.
Qed.

(** *** Whatever the servers do *)

Lemma always_ret {A} Q (a : A) : always Q (mret a).
Proof. intros h f. constructor. Qed.

Lemma always_lift_raising {A} Q (v : raising A) : always Q (lift_raising v).
Proof. intros h f. destruct v; constructor. Qed.

Lemma always_emit Q e : Q e -> always Q (emit e).
Proof. intros He h f. by repeat constructor. Qed.

Lemma always_bind {A B} Q (m : prog A) (k : A -> prog B) :
  always Q m -> (forall a, always Q (k a)) -> always Q (m ≫= k).
Proof.
  intros Hm Hk h f. specialize (Hm h f). unfold mbind, prog_bind.
  destruct (result (m h f)) as [a| | |]; cbn [after events]; try done.
  apply Forall_app. split; [done|]. apply Hk.
Qed.

Lemma always_bind_returns {A B} Q (m : prog A) (k : A -> prog B) :
  always Q m ->
  (forall a h f, result (m h f) = Returns a -> always Q (k a)) ->
  always Q (m ≫= k).
Proof.
  intros Hm Hk h f. specialize (Hm h f). unfold mbind, prog_bind.
  destruct (result (m h f)) as [a| | |] eqn:Hret; cbn [after events]; try done.
  apply Forall_app. split; [done|]. by apply (Hk a h f).
Qed.

Lemma always_for_each {A} Q (xs : list A) (body : A -> prog unit) :
  (forall x, x ∈ xs -> always Q (body x)) -> always Q (for_each xs body).
Proof.
  induction xs as [|x xs IH]; intros Hbody; cbn [for_each]; [apply always_ret|].
  apply always_bind; [apply Hbody; by left|].
  intros _. apply IH. intros y Hy. apply Hbody. by right.
Qed.

Lemma always_connect Q pg d autocommit :
  Q (Sleep 2) -> Q (Connect d autocommit) -> always Q (connect pg d autocommit).
Proof.
  intros Hs Hc h f. unfold connect.
  destruct (connects pg h d) as [failed| |failed msg]; cbn [events].
  - apply Forall_app. split; [|by repeat constructor].
    induction failed; by constructor.
  - constructor.
  - induction failed; by constructor.
Qed.

Lemma always_execute_until_it_works Q pg stmt :
  Q (Sleep 2) -> Q (Execute stmt) -> always Q (execute_until_it_works pg stmt).
Proof.
  intros Hs He h f. unfold execute_until_it_works.
  destruct (settles pg h stmt) as [failed|]; cbn [events]; [|constructor].
  apply Forall_app. split; [|by repeat constructor].
  induction failed as [|n IH]; cbn [repeat concat]; [constructor|].
  by repeat constructor.
Qed.

Lemma always_poll_spock_node Q pg d :
  Q (Sleep 2) -> Q (Execute "SELECT COUNT(*) FROM spock.node;") ->
  always Q (poll_spock_node pg d).
Proof.
  intros Hs He h f. unfold poll_spock_node. cbv zeta.
  destruct (registered pg h d) as [misses|]; cbn [events]; [|constructor].
  apply Forall_app. split; [|by repeat constructor].
  induction misses as [|[] misses IH]; cbn [flat_map]; by repeat constructor.
Qed.

(** Every statement of the rendezvous is one of those it is made of. *)
Lemma init_peer_spock_subscriptions_statements pg db_info drop_existing :
  always (fun e => forall stmt, e = Execute stmt ->
                                rendezvous_statement db_info drop_existing stmt)
         (init_peer_spock_subscriptions pg db_info drop_existing).
Proof.
  unfold init_peer_spock_subscriptions. cbv zeta.
  destruct (bool_decide _); [apply always_ret|].
  apply always_bind; [by apply always_emit|]. intros _.
  apply always_bind; [by apply always_connect|]. intros _.
  apply always_bind; [|intros _; apply always_ret].
  apply always_for_each. intros peer Hpeer. unfold subscribe_to_peer.
  apply always_bind_returns; [apply always_lift_raising|].
  intros host h f Hret. cbv zeta.
  assert (Hname : host = hostname_of peer).
  { unfold hostname_of. destruct (get_hostname peer); [|discriminate].
    cbn in Hret. congruence. }
  subst host. clear Hret h f.
  apply always_bind.
  { unfold wait_for_spock_node.
    apply always_bind; [by apply always_connect|]. intros _.
    apply always_poll_spock_node; [done|]. intros stmt [= <-]. by left. }
  intros _. apply always_bind.
  { destruct drop_existing; [|apply always_ret].
    apply always_execute_until_it_works; [done|].
    intros stmt [= <-]. right. exists peer. split; [done|]. left. by split. }
  intros _. apply always_bind; [by apply always_emit|]. intros _.
  apply always_execute_until_it_works; [done|].
  intros stmt [= <-]. right. exists peer. split; [done|]. by right.
Qed.

(** C9. Every peer subscription is created by a [spock.sub_create] call
    with the replication sets [default], [default_insert_only], [ddl_sql],
    no forward origins, structure and data synchronisation on and apply
    delay 0, under the name [sub_<database>_<self>_<peer>], which is also
    the name of the drop issued for that peer. Whatever the servers do and
    however often a statement is repeated, the rendezvous sends no statement
    but the count of a peer's nodes and, for its peers, that drop and that
    creation. With prompt servers and a hostname for every peer it returns
    [True] after it has, for each peer in turn, connected to the peer and
    found its node, dropped the subscription when asked to, paused and
    created it. *)
Theorem C9_peer_subscription_calls :
  forall (pg : Postgres) (db_info : DatabaseInfo) (drop_existing : bool) h f,
    (forall peer,
        let call := peer_subscription (database_name db_info) (node_name db_info)
                      (node_spec_name peer) (hostname_of peer) in
        sub_create_statement (subscription_name call) (provider_dsn call)
        = render_sub_create call
        /\ sub_drop_statement (subscription_name call)
           = render_sub_drop (subscription_name call) true
        /\ subscription_name call
           = "sub_" +:+ database_name db_info +:+ "_" +:+ node_name db_info
             +:+ "_" +:+ node_spec_name peer
        /\ replication_sets call = ["default"; "default_insert_only"; "ddl_sql"]
        /\ forward_origins call = []
        /\ synchronize_structure call = true
        /\ synchronize_data call = true
        /\ apply_delay call = 0%N)
    /\ Forall (fun e => forall stmt, e = Execute stmt ->
                                     rendezvous_statement db_info drop_existing stmt)
              (events (init_peer_spock_subscriptions pg db_info drop_existing h f))
    /\ (prompt pg ->
        peers_of db_info <> [] ->
        Forall has_hostname (peers_of db_info) ->
        init_peer_spock_subscriptions pg db_info drop_existing h f
        = mkRun (Returns true) f
            (Begin PeerRendezvous (database_name db_info)
             :: Connect (local_dsn db_info) false
             :: flat_map (rendezvous_events db_info drop_existing) (peers_of db_info))
        /\ forall peer,
             peer ∈ peers_of db_info ->
             let call := peer_subscription (database_name db_info) (node_name db_info)
                           (node_spec_name peer) (hostname_of peer) in
             subscribe_to_peer pg db_info drop_existing peer h f
             = mkRun (Returns tt) f
                 ([Connect (provider_dsn call) true;
                   Execute "SELECT COUNT(*) FROM spock.node;"]
                  ++ (if drop_existing
                      then [Execute (sub_drop_statement (subscription_name call))]
                      else [])
                  ++ [Sleep 2;
                      Execute (sub_create_statement (subscription_name call)
                                                    (provider_dsn call))])).
Proof.
  intros pg db_info drop_existing h f. split; [by repeat split|]. split.
  - apply init_peer_spock_subscriptions_statements.
  - intros Hp Hsome Hall. split.
    + by apply init_peer_spock_subscriptions_run.
    + intros peer Hpeer call.
      assert (Hhost : has_hostname peer)
        by (rewrite Forall_forall in Hall; by apply Hall).
      rewrite (subscribe_to_peer_run _ _ _ _ h f Hp Hhost). reflexivity.
Qed.

Lemma C9_witness :
  events (init_peer_spock_subscriptions Example.pg_up Example.analytics true [] NoFile)
  = [ Begin PeerRendezvous "analytics";
      Connect "host=localhost dbname=analytics user=admin1 port=5432 password=secret" false;
      Connect "host=pg-n2 dbname=analytics user=pgedge port=5432" true;
      Execute "SELECT COUNT(*) FROM spock.node;";
      Execute (sub_drop_statement "sub_analytics_n1_n2");
      Sleep 2;
      Execute (sub_create_statement "sub_analytics_n1_n2"
                 "host=pg-n2 dbname=analytics user=pgedge port=5432") ].
Proof.
  assert (Hsome : peers_of Example.analytics <> []) by (vm_compute; discriminate).
  assert (Hall : Forall has_hostname (peers_of Example.analytics))
    by (vm_compute; repeat constructor).
  rewrite (proj1 (proj2 (proj2 (C9_peer_subscription_calls Example.pg_up Example.analytics
                                  true [] NoFile))
                    pg_up_prompt Hsome Hall)).
  reflexivity.
Defined.

(** ** C4: a database without peers is never recorded as subscribed *)

Lemma peer_step_unchanged env pg D db_info :
  force_update env = false ->
  (database_name db_info = D -> peers_of db_info = []) ->
  respects (unchanged D) (peer_step env pg db_info).
Proof.
  intros Hforce Hnone h f. unfold peer_step.
  apply respects_at_get; [typeclasses eauto|]. intros st Hst. cbv zeta.
  destruct (bool_decide _); [apply (respects_skip (unchanged D))|].
  destruct (decide (database_name db_info = D)) as [Heq|Hne].
  - unfold respects_at.
    rewrite (bind_known _ _ h f false f []
               (init_peer_spock_subscriptions_no_peers _ _ _ _ _ (Hnone Heq))).
    reflexivity.
  - apply respects_at_after_unwritten;
      [typeclasses eauto|done|apply init_peer_spock_subscriptions_unwritten|].
    intros [] h'; [|apply (respects_skip (unchanged D))].
    apply respects_at_update_database; [typeclasses eauto|].
    intros st' Hst'. pose proof (read_value _ _ _ Hst') as Hval.
    rewrite Hforce in Hval. destruct Hval as [_ ->].
    unfold unchanged, status_of. cbn [recorded dbs_initialized].
    by rewrite lookup_insert_ne.
Qed.

Lemma peer_step_not_subscribed env pg D db_info :
  (database_name db_info = D -> peers_of db_info = []) ->
  respects (not_subscribed D) (peer_step env pg db_info).
Proof.
  intros Hnone h f. unfold peer_step.
  apply respects_at_get; [typeclasses eauto|]. intros st Hst. cbv zeta.
  destruct (bool_decide _); [apply (respects_skip (not_subscribed D))|].
  destruct (decide (database_name db_info = D)) as [Heq|Hne].
  - unfold respects_at.
    rewrite (bind_known _ _ h f false f []
               (init_peer_spock_subscriptions_no_peers _ _ _ _ _ (Hnone Heq))).
    rewrite after_nil. apply (respects_skip (not_subscribed D)).
  - apply respects_at_after_unwritten;
      [typeclasses eauto| |apply init_peer_spock_subscriptions_unwritten|].
    { intros f0 es Hw Hf0. split; [done|]. rewrite Hw. constructor. }
    intros [] h'; [|apply (respects_skip (not_subscribed D))].
    apply respects_at_update_database; [typeclasses eauto|].
    intros st' Hst' st'' Hf.
    assert (Hread : dbs_initialized st' !! D <> Some SUBSCRIBED).
    { pose proof (read_value _ _ _ Hst') as Hval.
      destruct (force_update env); [by subst st'|]. by destruct Hval as [_ ->]. }
    assert (Hnew : dbs_initialized st'' !! D <> Some SUBSCRIBED).
    { unfold st''. cbn [dbs_initialized]. by rewrite lookup_insert_ne. }
    cbn [writes flat_map app]. unfold status_of. cbn [recorded].
    split; [exact Hnew|]. constructor; [exact Hnew|constructor].
Qed.

(** C4. For a database whose peer list is empty the rendezvous is a no-op:
    [init_peer_spock_subscriptions] returns [False], does nothing and leaves
    the progress file alone; and the loop of [main] over the databases never
    writes [subscribed] for it on that basis, with or without the force
    flag and whatever the servers do for the other databases. Without the
    force flag the status it had, [inited] in particular, is the status it
    has after the loop. *)
Theorem C4_no_peers_stays_inited :
  forall (env : Environ) (pg : Postgres) (dbs_info : list DatabaseInfo) (D : string) h f,
    (forall db_info, db_info ∈ dbs_info -> database_name db_info = D ->
                     peers_of db_info = []) ->
    (forall db_info drop_existing h' f',
        db_info ∈ dbs_info -> database_name db_info = D ->
        init_peer_spock_subscriptions pg db_info drop_existing h' f'
        = mkRun (Returns false) f' [])
    /\ (let r := for_each dbs_info (peer_step env pg) h f in
        (status_of f D <> Some SUBSCRIBED ->
           status_of (file_after r) D <> Some SUBSCRIBED
           /\ Forall (fun st => dbs_initialized st !! D <> Some SUBSCRIBED)
                     (writes (events r)))
        /\ (force_update env = false ->
              status_of (file_after r) D = status_of f D
              /\ (status_of f D = Some INITED ->
                    status_of (file_after r) D = Some INITED))).
Proof.
  intros env pg dbs D h f Hnone. split; [|split].
  - intros db_info drop_existing h' f' Hin Hname.
    apply init_peer_spock_subscriptions_no_peers. by apply Hnone.
  - assert (Hloop : respects (not_subscribed D) (for_each dbs (peer_step env pg))).
    { apply respects_for_each; [typeclasses eauto|].
      intros db_info Hin. apply peer_step_not_subscribed. by apply Hnone. }
    apply (Hloop h f).
  - intros Hforce.
    assert (Hloop : respects (unchanged D) (for_each dbs (peer_step env pg))).
    { apply respects_for_each; [typeclasses eauto|].
      intros db_info Hin. apply peer_step_unchanged; [done|]. by apply Hnone. }
    specialize (Hloop h f). unfold respects_at, unchanged in Hloop.
    split; [done|]. intros Hinited. by rewrite Hloop.
Qed.

Lemma C4_witness :
  status_of (file_after (for_each [Example.analytics_alone]
                                  (peer_step Example.env16 Example.pg_up)
                                  [] Example.analytics_inited)) "analytics"
  = Some INITED.
Proof.
  refine (proj2 (proj2 (proj2 (C4_no_peers_stays_inited Example.env16 Example.pg_up
                                 [Example.analytics_alone] "analytics" []
                                 Example.analytics_inited _)) eq_refl) eq_refl).
  intros db_info Hin _. apply list_elem_of_singleton in Hin. by subst db_info.
Defined.

(** ** C7: a missing progress record stops the process *)

Lemma spock_node_step_missing env pg schemas db_info h f st :
  read_init_status env f = Value st ->
  dbs_initialized st !! database_name db_info = None ->
  spock_node_step env pg schemas db_info h f = mkRun (Exits 1) f [].
Proof.
  intros Hread Hnone. unfold spock_node_step.
  rewrite (bind_get _ _ _ _ _ Hread). cbv zeta. by rewrite Hnone.
Qed.

(** A loop that gets through its first part goes on with the rest. *)
Lemma for_each_reaches {A} (body : A -> prog unit) (pre rest : list A) h f :
  result (for_each pre body h f) = Returns tt ->
  for_each (pre ++ rest) body h f
  = after (events (for_each pre body h f))
      (for_each rest body (h ++ events (for_each pre body h f))
                (file_after (for_each pre body h f))).
Proof.
  revert h f. induction pre as [|x pre IH]; intros h f Hret.
  - cbn. by rewrite app_nil_r, after_nil.
  - cbn [for_each app] in *. unfold mbind, prog_bind in *.
    destruct (body x h f) as [[[]| | |] f1 e1]; cbn [result file_after events] in *;
      try discriminate.
    cbn [after result] in Hret. rewrite (IH _ _ Hret).
    cbn [after events file_after result].
    by rewrite after_after, app_assoc.
Qed.

Lemma for_each_cons_run {A} (body : A -> prog unit) x (xs : list A) h f :
  result (body x h f) = Returns tt ->
  for_each (x :: xs) body h f
  = after (events (body x h f))
      (for_each xs body (h ++ events (body x h f)) (file_after (body x h f))).
Proof.
  intros Hret. cbn [for_each].
  apply (bind_known (body x) (fun _ => for_each xs body) h f tt).
  rewrite <- Hret. symmetry. apply run_eta.
Qed.

(** C7. If the loop of [main] that initialises the spock nodes reaches an
    additional database for which the progress read has no record, the
    process exits with status 1 at that point: nothing more is done and
    nothing is written. *)
Theorem C7_missing_record_exits_nonzero :
  forall (env : Environ) (pg : Postgres) (default_db_info : DatabaseInfo)
         (pre post : list DatabaseInfo) (db_info : DatabaseInfo) h f,
    let dbs_info := pre ++ db_info :: post in
    let schemas := ["public"; "spock"; "pg_catalog"; "information_schema"] in
    let r1 := init_node env pg default_db_info h f in
    let r2 := for_each dbs_info (init_database env pg)
                (h ++ events r1) (file_after r1) in
    let r3 := for_each pre (spock_node_step env pg schemas)
                ((h ++ events r1) ++ events r2) (file_after r2) in
    result r1 = Returns tt ->
    result r2 = Returns tt ->
    result r3 = Returns tt ->
    (exists st, read_init_status env (file_after r3) = Value st
                /\ dbs_initialized st !! database_name db_info = None) ->
    let r := main env pg default_db_info dbs_info h f in
    result r = Exits 1
    /\ exit_code (result r) = Some 1%Z
    /\ file_after r = file_after r3
    /\ events r = events r1 ++ events r2 ++ events r3.
Proof.
  intros env pg ddb pre post db_info h f dbs schemas r1 r2 r3 H1 H2 H3
    (st & Hread & Hnone) r.
  assert (Hloop : for_each dbs (spock_node_step env pg schemas)
                    ((h ++ events r1) ++ events r2) (file_after r2)
                  = mkRun (Exits 1) (file_after r3) (events r3)).
  { unfold dbs. rewrite for_each_reaches by exact H3. fold r3.
    cbn [for_each].
    erewrite bind_exits by (by eapply spock_node_step_missing).
    rewrite after_run. by rewrite app_nil_r. }
  assert (Hmain : r = mkRun (Exits 1) (file_after r3) (events r1 ++ events r2 ++ events r3)).
  { unfold r, main.
    rewrite (bind_known _ _ h f tt (file_after r1) (events r1))
      by (rewrite <- H1; symmetry; apply run_eta).
    erewrite bind_exits; [reflexivity|].
    unfold init_other_databases.
    rewrite (bind_known _ _ _ _ tt (file_after r2) (events r2))
      by (rewrite <- H2; symmetry; apply run_eta).
    erewrite bind_exits; [reflexivity|]. exact Hloop. }
  rewrite Hmain. done.
Qed.

Lemma C7_witness :
  result (main Example.env_force Example.pg_up Example.main_db [Example.analytics]
               [] Example.all_subscribed)
  = Exits 1.
Proof.
  refine (proj1 (C7_missing_record_exits_nonzero Example.env_force Example.pg_up
                   Example.main_db [] [] Example.analytics [] Example.all_subscribed
                   eq_refl eq_refl eq_refl _)).
  exists empty_status. split; reflexivity.
Defined.

(** ** The force flag *)

(** With [FORCE_INIT=true] every read returns the empty record and leaves
    the file as it is, and every status write starts the file over from
    that empty record. *)
Lemma forced_writes_start_over env :
  force_update env = true ->
  (forall f, read_init_status env f = Value empty_status)
  /\ (forall h f, get_init_status env h f = mkRun (Returns empty_status) f [])
  /\ (forall D s h f,
        update_database_init_status env D s h f
        = let st := {| default_db_initialized := false; dbs_initialized := {[ D := s ]} |} in
          mkRun (Returns tt) (Json st) [WriteStatus st])
  /\ (forall b h f,
        update_default_db_init_status env b h f
        = let st := {| default_db_initialized := b; dbs_initialized := ∅ |} in
          mkRun (Returns tt) (Json st) [WriteStatus st]).
Proof.
  intros Hforce.
  assert (Hread : forall f, read_init_status env f = Value empty_status)
    by (intros f; by apply read_with_force).
  split; [done|]. split; [|split].
  - intros h f. unfold get_init_status. by rewrite Hread.
  - intros D s h f. rewrite (update_database_run env D s h f _ (Hread f)).
    cbn [empty_status default_db_initialized dbs_initialized].
    by rewrite insert_empty.
  - intros b h f. by rewrite (update_default_run env b h f _ (Hread f)).
Qed.

(** C5. The force flag makes every read return the empty record and
    leaves the file alone while it is only read. But the run's own status
    writes are made from that empty record: with the flag set, recording
    [analytics] as [created] in a file that has the primary flag and
    [reports] at [subscribed] leaves a file with the flag unset and
    [analytics] alone. The same write without the force flag keeps the flag
    and [reports]. Over a whole forced run of [main] on that file the flag
    the primary bootstrap has just written is wiped in turn by the write
    of the creation phase, and the run ends in [sys.exit(1)] at the next
    loop, which reads an empty record. *)
Theorem C5_forced_write_erases_the_record :
  (forall f h, get_init_status Example.env_force h f = mkRun (Returns empty_status) f [])
  /\ (let r := update_database_init_status Example.env_force "analytics" CREATED []
                 Example.all_subscribed in
      result r = Returns tt
      /\ file_after r = Json {| default_db_initialized := false;
                                dbs_initialized := {[ "analytics" := CREATED ]} |}
      /\ status_of (file_after r) "reports" = None
      /\ default_db_initialized (recorded (file_after r)) = false
      /\ ~ write_keeps_rest Example.env_force "analytics" CREATED Example.all_subscribed)
  /\ (let r := update_database_init_status Example.env16 "analytics" CREATED []
                 Example.all_subscribed in
      status_of (file_after r) "reports" = Some SUBSCRIBED
      /\ default_db_initialized (recorded (file_after r)) = true
      /\ write_keeps_rest Example.env16 "analytics" CREATED Example.all_subscribed)
  /\ (let r := main Example.env_force Example.pg_up Example.main_db [Example.analytics]
                 [] Example.all_subscribed in
      result r = Exits 1
      /\ writes (events r)
         = [ {| default_db_initialized := true; dbs_initialized := ∅ |};
             {| default_db_initialized := false;
                dbs_initialized := {[ "analytics" := CREATED ]} |} ]
      /\ file_after r = Json {| default_db_initialized := false;
                                dbs_initialized := {[ "analytics" := CREATED ]} |}).
Proof.
  destruct (forced_writes_start_over Example.env_force eq_refl)
    as (Hread & Hget & Hdb & _).
  split; [intros f h; apply Hget|]. split; [|split].
  - cbv zeta. rewrite Hdb. cbv zeta. cbn [result file_after recorded default_db_initialized].
    split; [done|]. split; [done|]. split; [done|]. split; [done|].
    intros [Hflag _]. rewrite Hdb in Hflag. discriminate Hflag.
  - cbv zeta.
    rewrite (update_database_run Example.env16 "analytics" CREATED [] Example.all_subscribed
               _ eq_refl).
    cbv zeta. cbn [file_after recorded default_db_initialized].
    split; [done|]. split; [done|].
    unfold write_keeps_rest.
    rewrite (update_database_run Example.env16 "analytics" CREATED [] Example.all_subscribed
               _ eq_refl).
    cbv zeta. cbn [file_after recorded default_db_initialized].
    split; [done|]. intros D' Hne. unfold status_of.
    cbn [recorded dbs_initialized Example.all_subscribed].
    by rewrite lookup_insert_ne.
  - vm_compute. repeat split; reflexivity.
Qed.

(** ** With servers that let everything through in the end *)

Lemma passes_ret {A} (a : A) : passes (mret a).
Proof. intros h f. exists a, []. by split. Qed.

Lemma passes_skip : passes skip.
Proof. apply passes_ret. Qed.

Lemma passes_emit e : quiet e -> passes (emit e).
Proof. intros He h f. exists tt, [e]. split; [done|]. by repeat constructor. Qed.

Lemma passes_sleep secs : passes (sleep secs).
Proof. by apply passes_emit. Qed.

Lemma passes_can_connect pg d : passes (can_connect pg d).
Proof. intros h f. eexists _, _. split; [reflexivity|]. by repeat constructor. Qed.

Lemma passes_value {A} (v : raising A) a : v = Value a -> passes (lift_raising v).
Proof. intros ->. apply passes_ret. Qed.

Lemma passes_bind {A B} (m : prog A) (k : A -> prog B) :
  passes m -> (forall a, passes (k a)) -> passes (m ≫= k).
Proof.
  intros Hm Hk h f. destruct (Hm h f) as (a & es & Hrun & Hq).
  destruct (Hk a (h ++ es) f) as (b & es' & Hrun' & Hq').
  exists b, (es ++ es'). split; [|by apply Forall_app].
  rewrite (bind_known _ _ h f a f es Hrun), Hrun'. reflexivity.
Qed.

Lemma passes_for_each {A} (xs : list A) (body : A -> prog unit) :
  (forall x, x ∈ xs -> passes (body x)) -> passes (for_each xs body).
Proof.
  induction xs as [|x xs IH]; intros Hbody; cbn [for_each]; [apply passes_skip|].
  apply passes_bind; [apply Hbody; by left|].
  intros _. apply IH. intros y Hy. apply Hbody. by right.
Qed.

(** The first step of a sequence gets through. *)
Lemma bind_passes {A B} (m : prog A) (k : A -> prog B) h f :
  passes m ->
  exists a es, Forall quiet es /\ (m ≫= k) h f = after es (k a (h ++ es) f).
Proof.
  intros Hm. destruct (Hm h f) as (a & es & Hrun & Hq).
  exists a, es. split; [done|]. by apply bind_known.
Qed.

Section Cooperative.

Context (pg : Postgres) (Hcoop : cooperative pg).

Lemma passes_connect d autocommit : passes (connect pg d autocommit).
Proof.
  intros h f. destruct (cooperative_connects pg Hcoop h d) as [failed Hc].
  unfold connect. rewrite Hc. eexists _, _. split; [reflexivity|].
  apply Forall_app. split; [by apply quiet_repeat|by repeat constructor].
Qed.

Lemma passes_execute stmt : passes (execute pg stmt).
Proof.
  intros h f. unfold execute. rewrite (cooperative_runs pg Hcoop).
  eexists _, _. split; [reflexivity|]. by repeat constructor.
Qed.

Lemma passes_database_exists name : passes (database_exists pg name).
Proof.
  intros h f. unfold database_exists. cbv zeta. rewrite (cooperative_runs pg Hcoop).
  eexists _, _. split; [reflexivity|]. by repeat constructor.
Qed.

Lemma passes_execute_until_it_works stmt : passes (execute_until_it_works pg stmt).
Proof.
  intros h f. destruct (cooperative_settles pg Hcoop h stmt) as [failed Hs].
  pose proof (quietly_execute_until_it_works pg stmt h f) as [_ Hq].
  unfold execute_until_it_works in *. rewrite Hs in *.
  eexists _, _. split; [reflexivity|exact Hq].
Qed.

Lemma passes_poll_spock_node d : passes (poll_spock_node pg d).
Proof.
  intros h f. destruct (cooperative_registered pg Hcoop h d) as [misses Hs].
  pose proof (quietly_poll_spock_node pg d h f) as [_ Hq].
  unfold poll_spock_node in *. cbv zeta in *. rewrite Hs in *.
  eexists _, _. split; [reflexivity|exact Hq].
Qed.

Lemma passes_wait_for_spock_node d : passes (wait_for_spock_node pg d).
Proof.
  unfold wait_for_spock_node.
  apply passes_bind; [apply passes_connect|]. intros _. apply passes_poll_spock_node.
Qed.

Lemma passes_subscribe_to_peer db_info drop_existing peer :
  has_hostname peer -> passes (subscribe_to_peer pg db_info drop_existing peer).
Proof.
  intros Hhost. unfold subscribe_to_peer.
  apply passes_bind; [by eapply passes_value|]. intros host. cbv zeta.
  apply passes_bind; [apply passes_wait_for_spock_node|]. intros _.
  apply passes_bind.
  { destruct drop_existing; [apply passes_execute_until_it_works|apply passes_skip]. }
  intros _. apply passes_bind; [apply passes_sleep|]. intros _.
  apply passes_execute_until_it_works.
Qed.

(** [init_spock_node] returns, leaves the file alone, and begins one
    phase. *)
Lemma init_spock_node_run db_info schemas h f :
  exists es,
    init_spock_node pg db_info schemas h f
    = mkRun (Returns tt) f (Begin SpockNodeInit (database_name db_info) :: es)
    /\ Forall quiet es.
Proof.
  unfold init_spock_node. rewrite bind_emit.
  match goal with
  | |- context [after _ (?m _ f)] =>
      assert (Hrest : passes m)
  end.
  { repeat first [ apply passes_bind; [|intros _]
                 | apply passes_connect
                 | apply passes_execute
                 | apply passes_for_each; intros ].  }
  destruct (Hrest (h ++ [Begin SpockNodeInit (database_name db_info)]) f)
    as ([] & es & -> & Hq).
  exists es. by split.
Qed.

(** The rendezvous with peers that all have a hostname returns [True],
    leaves the file alone, and begins one phase. *)
Lemma init_peer_spock_subscriptions_passes db_info drop_existing h f :
  peers_of db_info <> [] ->
  Forall has_hostname (peers_of db_info) ->
  exists es,
    init_peer_spock_subscriptions pg db_info drop_existing h f
    = mkRun (Returns true) f (Begin PeerRendezvous (database_name db_info) :: es)
    /\ Forall quiet es.
Proof.
  intros Hsome Hhosts. unfold init_peer_spock_subscriptions. cbv zeta.
  rewrite bool_decide_eq_false_2 by (by destruct (peers_of db_info)).
  rewrite bind_emit.
  match goal with
  | |- context [(?m ≫= ?k) ?h' f] =>
      destruct (bind_passes m k h' f (passes_connect _ _)) as ([] & es1 & Hq1 & ->)
  end.
  match goal with
  | |- context [(?m ≫= ?k) ?h' f] =>
      destruct (bind_passes m k h' f) as ([] & es2 & Hq2 & ->)
  end.
  { apply passes_for_each. intros peer Hpeer. apply passes_subscribe_to_peer.
    rewrite Forall_forall in Hhosts. by apply Hhosts. }
  rewrite ret_run, !after_run. eexists. split; [reflexivity|].
  rewrite app_nil_r. by apply Forall_app.
Qed.

End Cooperative.

(** ** The three loops of [main], with servers that let everything through *)

(** Proves [passes m] for a computation built from the primitives. *)
Ltac passes_tac :=
  repeat first
    [ assumption
    | progress intros
    | apply passes_skip
    | apply passes_ret
    | apply passes_sleep
    | apply passes_connect
    | apply passes_execute
    | apply passes_database_exists
    | apply passes_execute_until_it_works
    | apply passes_poll_spock_node
    | apply passes_wait_for_spock_node
    | apply passes_for_each
    | apply passes_bind
    | match goal with |- passes (if ?b then _ else _) => destruct b end ].

(** Takes the first step of the sequence in the goal, which gets through. *)
Ltac pass :=
  match goal with
  | |- context [(?m ≫= ?k) ?h' ?f'] =>
      let a := fresh "a" in
      let es := fresh "es" in
      let Hq := fresh "Hq" in
      destruct (bind_passes m k h' f') as (a & es & Hq & ->); [solve [passes_tac]|]
  end.

Lemma no_begin_no_phase D (es : list event) :
  Forall (fun e => forall ph db, e <> Begin ph db) es -> phases_for D es = [].
Proof.
  unfold phases_for. induction 1 as [|e es He _ IH]; [done|].
  cbn [flat_map]. rewrite IH. destruct e; try done. by destruct (He ph db).
Qed.

Lemma phases_for_begin D ph db (es : list event) :
  Forall (fun e => forall ph db, e <> Begin ph db) es ->
  phases_for D (Begin ph db :: es) = if bool_decide (D = db) then [ph] else [].
Proof.
  intros Hq. change (Begin ph db :: es) with ([Begin ph db] ++ es).
  rewrite phases_for_app, (no_begin_no_phase D es Hq), app_nil_r. cbn.
  destruct (decide (db = D)) as [->|Hne].
  - by rewrite bool_decide_eq_true_2.
  - rewrite bool_decide_eq_false_2; [done|]. by intros ->.
Qed.

Lemma quiet_no_begin (es : list event) :
  Forall quiet es -> Forall (fun e => forall ph db, e <> Begin ph db) es.
Proof. intros Hq. eapply Forall_impl; [exact Hq|]. by intros [] He ph' db'. Qed.

(** Proves that a list built from quiet lists and writes begins no phase. *)
Ltac no_begin :=
  repeat first
    [ apply Forall_app; split
    | apply Forall_nil_2
    | apply quiet_no_begin; assumption
    | apply Forall_cons; split; [by intros|] ].

Section Loops.

Context (env : Environ) (pg : Postgres).
Context (Hcoop : cooperative pg) (Hforce : force_update env = false).

(** What one call of [init_database] does. *)
Lemma init_database_run db_info h f :
  readable f ->
  let r := init_database env pg db_info h f in
  result r = Returns tt
  /\ readable (file_after r)
  /\ (forall X, status_of (file_after r) X
                = match status_of f X with
                  | Some s => Some s
                  | None => if bool_decide (X = database_name db_info)
                            then Some CREATED else None
                  end)
  /\ (forall D, phases_for D (events r)
                = if bool_decide (D = database_name db_info /\ status_of f D = None)
                  then [DatabaseCreation] else []).
Proof.
  intros Hread. pose proof (read_without_force env f Hforce Hread) as Hf.
  unfold init_database. rewrite (bind_get _ _ _ _ _ Hf). cbv zeta.
  destruct (dbs_initialized (recorded f) !! database_name db_info) as [s|] eqn:Hstatus.
  - rewrite skip_run. cbn [result file_after events].
    split; [done|]. split; [done|]. split.
    + intros X. destruct (status_of f X) eqn:HX; [done|].
      case_bool_decide; [|done]. subst X. unfold status_of in HX. congruence.
    + intros D. rewrite bool_decide_eq_false_2; [done|].
      intros [-> HD]. unfold status_of in HD. congruence.
  - rewrite bind_emit. do 5 pass.
    rewrite (update_database_run env _ _ _ f _ Hf). cbv zeta.
    rewrite !after_run. cbn [result file_after events].
    split; [done|]. split; [done|]. split.
    + intros X. unfold status_of. cbn [recorded dbs_initialized].
      destruct (decide (X = database_name db_info)) as [->|Hne].
      * by rewrite lookup_insert_eq, Hstatus, bool_decide_eq_true_2.
      * rewrite lookup_insert_ne, bool_decide_eq_false_2 by done.
        by destruct (dbs_initialized (recorded f) !! X).
    + intros D. cbn [app]. rewrite phases_for_begin by no_begin.
      destruct (decide (D = database_name db_info)) as [->|Hne].
      * rewrite !bool_decide_eq_true_2; done.
      * rewrite !bool_decide_eq_false_2; [done| |done]. by intros [? _].
Qed.

(** What one step of the spock-node loop does for a database that has a
    record. *)
Lemma spock_node_step_run schemas db_info h f :
  is_Some (status_of f (database_name db_info)) ->
  let r := spock_node_step env pg schemas db_info h f in
  result r = Returns tt
  /\ (forall X, status_of (file_after r) X
                = if bool_decide (X = database_name db_info
                                  /\ status_of f X = Some CREATED)
                  then Some INITED else status_of f X)
  /\ (forall D, phases_for D (events r)
                = if bool_decide (D = database_name db_info
                                  /\ status_of f D = Some CREATED)
                  then [SpockNodeInit] else []).
Proof.
  intros [s Hs].
  pose proof (read_without_force env f Hforce (recorded_readable _ _ _ Hs)) as Hf.
  unfold spock_node_step. rewrite (bind_get _ _ _ _ _ Hf). cbv zeta.
  unfold status_of in Hs. rewrite Hs.
  assert (Hskip : s <> CREATED ->
            forall X, (if bool_decide (X = database_name db_info
                                       /\ status_of f X = Some CREATED)
                       then Some INITED else status_of f X) = status_of f X
                      /\ (if bool_decide (X = database_name db_info
                                          /\ status_of f X = Some CREATED)
                          then [SpockNodeInit] else []) = []).
  { intros Hne X. rewrite bool_decide_eq_false_2; [done|].
    intros [-> HX]. unfold status_of in HX. congruence. }
  destruct s.
  - destruct (init_spock_node_run pg Hcoop db_info schemas h f) as (es & Hrun & Hquiet).
    rewrite (bind_known _ _ h f tt f _ Hrun).
    rewrite (bind_known _ _ _ f tt _ _ (update_database_run env _ _ _ f _ Hf)).
    unfold sleep, emit. rewrite !after_run. cbn [result file_after events].
    split; [done|]. split.
    + intros X. unfold status_of. cbn [recorded dbs_initialized].
      destruct (decide (X = database_name db_info)) as [->|Hne].
      * by rewrite lookup_insert_eq, bool_decide_eq_true_2.
      * rewrite lookup_insert_ne by done.
        rewrite bool_decide_eq_false_2; [done|]. by intros [? _].
    + intros D. cbn [app]. rewrite phases_for_begin by no_begin.
      destruct (decide (D = database_name db_info)) as [->|Hne].
      * rewrite !bool_decide_eq_true_2; done.
      * rewrite !bool_decide_eq_false_2; [done| |done]. by intros [? _].
  - rewrite skip_run. cbn [result file_after events]. split; [done|].
    split; intros X; destruct (Hskip ltac:(discriminate) X) as [H1 H2];
      by rewrite ?H1, ?H2.
  - rewrite skip_run. cbn [result file_after events]. split; [done|].
    split; intros X; destruct (Hskip ltac:(discriminate) X) as [H1 H2];
      by rewrite ?H1, ?H2.
Qed.

(** What one step of the peer loop does when the peers have hostnames. *)
Lemma peer_step_run db_info h f :
  readable f ->
  Forall has_hostname (peers_of db_info) ->
  let r := peer_step env pg db_info h f in
  let with_peers := negb (bool_decide (length (peers_of db_info) = 0)) in
  result r = Returns tt
  /\ readable (file_after r)
  /\ (forall X, status_of (file_after r) X
                = if bool_decide (X = database_name db_info) && with_peers
                  then Some SUBSCRIBED else status_of f X)
  /\ (forall D, phases_for D (events r)
                = if bool_decide (D = database_name db_info) && with_peers
                     && negb (bool_decide (status_of f D = Some SUBSCRIBED))
                  then [PeerRendezvous] else []).
Proof.
  intros Hread Hhosts. pose proof (read_without_force env f Hforce Hread) as Hf.
  unfold peer_step. rewrite (bind_get _ _ _ _ _ Hf). cbv zeta.
  fold (status_of f (database_name db_info)).
  case_bool_decide as Hsub.
  - rewrite skip_run. cbn [result file_after events].
    split; [done|]. split; [done|]. split.
    + intros X. case_bool_decide; [subst X|done].
      by destruct (negb _).
    + intros D. case_bool_decide; [subst D|done].
      rewrite (bool_decide_eq_true_2 _ Hsub). by rewrite andb_false_r.
  - destruct (peers_of db_info) as [|peer peers] eqn:Hpeers.
    + rewrite (bind_known _ _ h f false f []
                 (init_peer_spock_subscriptions_no_peers _ _ _ _ _ Hpeers)).
      rewrite skip_run. cbn.
      split; [done|]. split; [done|]. split; intros X; by rewrite andb_false_r.
    + assert (Hsome : peers_of db_info <> []) by (by rewrite Hpeers).
      rewrite <- Hpeers in Hhosts.
      destruct (init_peer_spock_subscriptions_passes pg Hcoop db_info true h f Hsome Hhosts)
        as (es & Hrun & Hquiet).
      rewrite (bind_known _ _ h f true f _ Hrun).
      rewrite (update_database_run env _ _ _ f _ Hf). cbv zeta.
      rewrite !after_run. cbn [result file_after events length].
      rewrite (bool_decide_eq_false_2 (S (length peers) = 0)) by done. cbn [negb].
      split; [done|]. split; [done|]. split.
      * intros X. unfold status_of. cbn [recorded dbs_initialized].
        rewrite andb_true_r. case_bool_decide as HX.
        -- subst X. by rewrite lookup_insert_eq.
        -- by rewrite lookup_insert_ne.
      * intros D. cbn [app]. rewrite phases_for_begin by no_begin.
        rewrite andb_true_r.
        destruct (decide (D = database_name db_info)) as [->|Hne].
        -- rewrite !bool_decide_eq_true_2 by done.
           by rewrite (bool_decide_eq_false_2 _ Hsub).
        -- by rewrite !(bool_decide_eq_false_2 (D = database_name db_info)).
Qed.

(** Decides the membership tests on the names of the databases. *)
Ltac decide_names :=
  repeat case_bool_decide;
  repeat match goal with
         | H : context [_ ∈ _ :: _] |- _ => rewrite elem_of_cons in H
         end;
  try done; intuition (subst; congruence).

Lemma creation_loop_run (dbs_info : list DatabaseInfo) h f :
  readable f ->
  let r := for_each dbs_info (init_database env pg) h f in
  result r = Returns tt
  /\ readable (file_after r)
  /\ (forall X, status_of (file_after r) X
                = match status_of f X with
                  | Some s => Some s
                  | None => if bool_decide (X ∈ map database_name dbs_info)
                            then Some CREATED else None
                  end)
  /\ (forall D, phases_for D (events r)
                = if bool_decide (D ∈ map database_name dbs_info /\ status_of f D = None)
                  then [DatabaseCreation] else []).
Proof.
  revert h f.
  induction dbs_info as [|db_info rest IH]; intros h f Hread.
  - cbn. split; [done|]. split; [done|]. split.
    + intros X. by destruct (status_of f X).
    + intros D. rewrite bool_decide_eq_false_2; [done|].
      intros [Hin _]. by apply elem_of_nil in Hin.
  - destruct (init_database_run db_info h f Hread) as (Hret & Hread' & Hfile & Hph).
    cbv zeta. rewrite for_each_cons_run by exact Hret.
    destruct (IH (h ++ events (init_database env pg db_info h f))
                 (file_after (init_database env pg db_info h f)) Hread')
      as (Hret' & Hread'' & Hfile' & Hph').
    cbn [after result file_after events]. split; [done|]. split; [done|]. split.
    + intros X. rewrite Hfile', Hfile. cbn [map].
      destruct (status_of f X); [done|].
      decide_names.
    + intros D. rewrite phases_for_app, Hph, Hph', Hfile. cbn [map].
      destruct (status_of f D) eqn:HD; decide_names.
Qed.

Lemma spock_node_loop_run schemas (dbs_info : list DatabaseInfo) h f :
  (forall db_info, db_info ∈ dbs_info ->
                   is_Some (status_of f (database_name db_info))) ->
  let r := for_each dbs_info (spock_node_step env pg schemas) h f in
  result r = Returns tt
  /\ (forall X, status_of (file_after r) X
                = if bool_decide (X ∈ map database_name dbs_info
                                  /\ status_of f X = Some CREATED)
                  then Some INITED else status_of f X)
  /\ (forall D, phases_for D (events r)
                = if bool_decide (D ∈ map database_name dbs_info
                                  /\ status_of f D = Some CREATED)
                  then [SpockNodeInit] else []).
Proof.
  revert h f.
  induction dbs_info as [|db_info rest IH]; intros h f Hall.
  - cbn. split; [done|].
    split; intros X; rewrite bool_decide_eq_false_2; try done;
      intros [Hin _]; by apply elem_of_nil in Hin.
  - destruct (spock_node_step_run schemas db_info h f)
      as (Hret & Hfile & Hph); [apply Hall; by left|].
    cbv zeta. rewrite for_each_cons_run by exact Hret.
    destruct (IH (h ++ events (spock_node_step env pg schemas db_info h f))
                 (file_after (spock_node_step env pg schemas db_info h f)))
      as (Hret' & Hfile' & Hph').
    { intros db' Hin. rewrite Hfile. case_bool_decide; [by eexists|].
      apply Hall. by right. }
    cbn [after result file_after events]. split; [done|]. split.
    + intros X. rewrite Hfile', Hfile. cbn [map]. decide_names.
    + intros D. rewrite phases_for_app, Hph, Hph', Hfile. cbn [map]. decide_names.
Qed.

Lemma peer_loop_run (dbs_info : list DatabaseInfo) h f :
  readable f ->
  Forall (fun db_info => Forall has_hostname (peers_of db_info)) dbs_info ->
  let r := for_each dbs_info (peer_step env pg) h f in
  result r = Returns tt
  /\ (forall X, status_of (file_after r) X
                = if has_peers_for X dbs_info
                  then Some SUBSCRIBED else status_of f X)
  /\ (forall D, phases_for D (events r)
                = if has_peers_for D dbs_info
                     && negb (bool_decide (status_of f D = Some SUBSCRIBED))
                  then [PeerRendezvous] else []).
Proof.
  intros Hread Hhosts. revert h f Hread.
  induction Hhosts as [|db_info rest Hhost _ IH]; intros h f Hread.
  - cbn. done.
  - destruct (peer_step_run db_info h f Hread Hhost) as (Hret & Hread' & Hfile & Hph).
    cbv zeta. rewrite for_each_cons_run by exact Hret.
    destruct (IH (h ++ events (peer_step env pg db_info h f))
                 (file_after (peer_step env pg db_info h f)) Hread')
      as (Hret' & Hfile' & Hph').
    cbn [after result file_after events]. split; [done|]. split.
    + intros X. rewrite Hfile', Hfile. cbn [has_peers_for existsb].
      fold (has_peers_for X rest).
      destruct (has_peers_for X rest); [by rewrite orb_true_r|].
      by rewrite orb_false_r.
    + intros D. rewrite phases_for_app, Hph, Hph', Hfile.
      cbn [has_peers_for existsb]. fold (has_peers_for D rest).
      destruct (bool_decide (D = database_name db_info)
                && negb (bool_decide (length (peers_of db_info) = 0))) eqn:Hhere;
        cbn [orb andb].
      * rewrite (bool_decide_eq_true_2 (Some SUBSCRIBED = Some SUBSCRIBED)) by done.
        cbn [negb]. rewrite andb_false_r, app_nil_r. done.
      * done.
Qed.

(** The three loops together. *)
Lemma init_other_databases_run (dbs_info : list DatabaseInfo) h f :
  readable f ->
  Forall (fun db_info => Forall has_hostname (peers_of db_info)) dbs_info ->
  let r := init_other_databases env pg dbs_info h f in
  result r = Returns tt
  /\ (forall D, D ∈ map database_name dbs_info ->
        phases_for D (events r)
        = match status_of f D with
          | None => [DatabaseCreation; SpockNodeInit]
          | Some CREATED => [SpockNodeInit]
          | Some _ => []
          end
          ++ (if has_peers_for D dbs_info
                 && negb (bool_decide (status_of f D = Some SUBSCRIBED))
              then [PeerRendezvous] else [])
        /\ status_of (file_after r) D
           = if has_peers_for D dbs_info then Some SUBSCRIBED
             else match status_of f D with
                  | Some SUBSCRIBED => Some SUBSCRIBED
                  | _ => Some INITED
                  end)
  /\ (forall D, D ∉ map database_name dbs_info ->
        phases_for D (events r) = []
        /\ status_of (file_after r) D = status_of f D).
Proof.
  intros Hread Hhosts. unfold init_other_databases. cbv zeta.
  destruct (creation_loop_run dbs_info h f Hread) as (Hret1 & Hread1 & Hfile1 & Hph1).
  rewrite (bind_returns _ _ h f tt Hret1).
  set (r1 := for_each dbs_info (init_database env pg) h f) in *.
  assert (Hall : forall db_info, db_info ∈ dbs_info ->
                   is_Some (status_of (file_after r1) (database_name db_info))).
  { intros db_info Hdb. rewrite Hfile1.
    destruct (status_of f (database_name db_info)); [by eexists|].
    rewrite bool_decide_eq_true_2; [by eexists|].
    apply list_elem_of_fmap. by exists db_info. }
  destruct (spock_node_loop_run ["public"; "spock"; "pg_catalog"; "information_schema"]
              dbs_info (h ++ events r1) (file_after r1) Hall)
    as (Hret2 & Hfile2 & Hph2).
  rewrite (bind_returns _ _ _ _ tt Hret2).
  set (r2 := for_each dbs_info (spock_node_step env pg _) (h ++ events r1)
               (file_after r1)) in *.
  assert (Hread2 : readable (file_after r2)).
  { destruct dbs_info as [|db rest]; [exact Hread1|].
    destruct (Hall db ltac:(by left)) as [s Hs].
    assert (Hs2 : is_Some (status_of (file_after r2) (database_name db))).
    { rewrite Hfile2. case_bool_decide; by eexists. }
    destruct Hs2 as [s2 Hs2]. by eapply recorded_readable. }
  destruct (peer_loop_run dbs_info ((h ++ events r1) ++ events r2) (file_after r2)
              Hread2 Hhosts) as (Hret3 & Hfile3 & Hph3).
  set (r3 := for_each dbs_info (peer_step env pg) _ (file_after r2)) in *.
  cbn [after result file_after events].
  split; [done|].
  assert (Hnopeers : forall D, D ∉ map database_name dbs_info ->
                               has_peers_for D dbs_info = false).
  { intros D Hnot. unfold has_peers_for. apply not_true_is_false.
    intros Hex. apply existsb_exists in Hex as (db & Hdb & Hb).
    apply andb_true_iff in Hb as [Heq%bool_decide_eq_true _].
    apply Hnot, list_elem_of_fmap. exists db. split; [done|by apply list_elem_of_In]. }
  split.
  - intros D Hin.
    rewrite !phases_for_app, Hph1, Hph2, Hph3, Hfile3, Hfile2, Hfile1.
    destruct (status_of f D) as [[]|] eqn:HD; destruct (has_peers_for D dbs_info);
      repeat case_bool_decide; cbn [negb andb app]; try done;
      exfalso; intuition congruence.
  - intros D Hnot.
    rewrite !phases_for_app, Hph1, Hph2, Hph3, Hfile3, Hfile2, Hfile1.
    rewrite (Hnopeers D Hnot).
    destruct (status_of f D) as [[]|] eqn:HD;
      repeat case_bool_decide; cbn [negb andb app]; try done;
      exfalso; intuition congruence.
Qed.

End Loops.

(** ** C3: resuming a database that stopped at [created] *)

(** *** A database that has a record is not created again *)

(** A phase other than the creation of [D] may begin. *)
Ltac emits_record_kept :=
  intros; intros ?; split; [assumption|];
  unfold begins; cbn; rewrite ?app_nil_r; repeat case_decide;
  first [ apply not_elem_of_nil
        | let Hin := fresh in
          intros Hin; apply list_elem_of_singleton in Hin; discriminate Hin ].

Lemma update_database_keeps_record env D name s :
  force_update env = false ->
  respects (record_kept D) (update_database_init_status env name s).
Proof.
  intros Hforce h f. apply respects_at_update_database; [typeclasses eauto|].
  intros st Hst st' [s0 Hsome]. pose proof (read_value _ _ _ Hst) as Hval.
  rewrite Hforce in Hval. destruct Hval as [_ ->].
  split; [|unfold begins; cbn; apply not_elem_of_nil].
  unfold status_of in *. subst st'. cbn [recorded dbs_initialized].
  destruct (decide (name = D)) as [->|Hne].
  - rewrite lookup_insert_eq. by eexists.
  - rewrite lookup_insert_ne by done. by eexists.
Qed.

Lemma update_default_keeps_record env D b :
  force_update env = false ->
  respects (record_kept D) (update_default_db_init_status env b).
Proof.
  intros Hforce h f. apply respects_at_update_default; [typeclasses eauto|].
  intros st Hst st' Hsome. pose proof (read_value _ _ _ Hst) as Hval.
  rewrite Hforce in Hval. destruct Hval as [_ ->].
  split; [done|]. unfold begins. cbn. apply not_elem_of_nil.
Qed.

#[global] Hint Resolve update_database_keeps_record update_default_keeps_record : script.

Lemma init_spock_node_keeps_record pg D db_info schemas :
  respects (record_kept D) (init_spock_node pg db_info schemas).
Proof. unfold init_spock_node. respects_with emits_record_kept. Qed.

Lemma init_peer_spock_subscriptions_keeps_record pg D db_info drop_existing :
  respects (record_kept D) (init_peer_spock_subscriptions pg db_info drop_existing).
Proof.
  unfold init_peer_spock_subscriptions, subscribe_to_peer.
  respects_with emits_record_kept.
Qed.

#[global] Hint Resolve init_spock_node_keeps_record
  init_peer_spock_subscriptions_keeps_record : script.

Lemma init_database_keeps_record env pg D db_info :
  force_update env = false ->
  respects (record_kept D) (init_database env pg db_info).
Proof.
  intros Hforce h f. unfold init_database.
  apply respects_at_get; [typeclasses eauto|]. intros st Hst.
  pose proof (read_value _ _ _ Hst) as Hval.
  rewrite Hforce in Hval. destruct Hval as [_ ->]. cbv zeta.
  destruct (dbs_initialized (recorded f) !! database_name db_info) as [s|] eqn:Hstatus.
  - apply (respects_skip (record_kept D)).
  - apply respects_at_after_emit; [typeclasses eauto| |intros].
    { intros [s HD]. split; [by eexists|].
      unfold begins. cbn. rewrite decide_False; [apply not_elem_of_nil|].
      intros Heq. unfold status_of in HD. congruence. }
    past_quiet emits_record_kept.
    by apply update_database_keeps_record.
Qed.

Lemma init_default_database_keeps_record env pg D db_info :
  force_update env = false ->
  respects (record_kept D) (init_default_database env pg db_info).
Proof.
  intros Hforce. unfold init_default_database.
  respects_with emits_record_kept.
Qed.

#[global] Hint Resolve init_database_keeps_record init_default_database_keeps_record
  : script.

Lemma main_keeps_record env pg D default_db_info dbs_info :
  force_update env = false ->
  respects (record_kept D) (main env pg default_db_info dbs_info).
Proof.
  intros Hforce. unfold main, init_node, init_other_databases, spock_node_step, peer_step.
  respects_with emits_record_kept.
Qed.

(** *** The primary phase and the additional databases *)

Lemma update_default_unchanged env D b :
  force_update env = false ->
  respects (unchanged D) (update_default_db_init_status env b).
Proof.
  intros Hforce h f. apply respects_at_update_default; [typeclasses eauto|].
  intros st Hst st'. pose proof (read_value _ _ _ Hst) as Hval.
  rewrite Hforce in Hval. by destruct Hval as [_ ->].
Qed.

#[global] Hint Resolve update_default_unchanged : script.

(** The primary phase leaves the records of the databases as they are. *)
Lemma init_node_unchanged env pg D default_db_info :
  force_update env = false ->
  respects (unchanged D) (init_node env pg default_db_info).
Proof.
  intros Hforce.
  unfold init_node, init_default_database, init_spock_node,
    init_peer_spock_subscriptions, subscribe_to_peer.
  respects_with ltac:(intros; reflexivity).
Qed.

Ltac emits_silent_about :=
  intros; unfold silent_about; cbn; rewrite ?decide_False by done; done.

(** The primary phase begins no phase for another database. *)
Lemma init_node_silent_about env pg D default_db_info :
  database_name default_db_info <> D ->
  respects (silent_about D) (init_node env pg default_db_info).
Proof.
  intros Hne.
  unfold init_node, init_default_database, init_spock_node,
    init_peer_spock_subscriptions, subscribe_to_peer, update_default_db_init_status.
  respects_with emits_silent_about.
Qed.

Lemma cooperative_pg_slow : cooperative Example.pg_slow.
Proof. split; intros h x; cbn; by eexists. Qed.

(** C3, as the specification states it, fails: with [analytics] recorded
    as [created] and a peer [n2], the next run initialises the spock node of
    [analytics] and then, in the same run, also performs the peer
    rendezvous for it. *)
Lemma C3_counterexample :
  ~ (status_of Example.crashed_after_created "analytics" = Some CREATED ->
     phases_for "analytics"
       (events (main Example.env16 Example.pg_up Example.main_db [Example.analytics]
                     [] Example.crashed_after_created))
     = [SpockNodeInit]).
Proof.
  intros Hclaim. specialize (Hclaim eq_refl).
  vm_compute in Hclaim. discriminate Hclaim.
Qed.

(** C3, amended. If the progress file records [created] for an additional
    database [D] and the force flag is not set, the next run does not begin
    the creation phase for [D] again, whatever the servers do. When the
    primary phase of that run returns, the servers let every connection,
    statement and wait through in the end and every peer has a hostname,
    the run returns, having begun for [D] the replication-node
    initialisation once and then, in the same run, the peer rendezvous when
    [D] has peers; it leaves [D] at [subscribed] when [D] has peers and at
    [inited] when it has none. *)
Theorem C3_resume_from_created :
  forall (env : Environ) (pg : Postgres) (default_db_info : DatabaseInfo)
         (dbs_info : list DatabaseInfo) (D : string) h f,
    force_update env = false ->
    status_of f D = Some CREATED ->
    D ∈ map database_name dbs_info ->
    let r := main env pg default_db_info dbs_info h f in
    ~ begins DatabaseCreation D (events r)
    /\ (cooperative pg ->
        result (init_node env pg default_db_info h f) = Returns tt ->
        database_name default_db_info <> D ->
        Forall (fun db_info => Forall has_hostname (peers_of db_info)) dbs_info ->
        result r = Returns tt
        /\ phases_for D (events r)
           = SpockNodeInit :: (if has_peers_for D dbs_info then [PeerRendezvous] else [])
        /\ status_of (file_after r) D
           = Some (if has_peers_for D dbs_info then SUBSCRIBED else INITED)).
Proof.
  intros env pg ddb dbs D h f Hforce Hcreated Hin. cbv zeta. split.
  - apply (main_keeps_record env pg D ddb dbs Hforce h f). rewrite Hcreated. by eexists.
  - intros Hcoop Hnode Hprimary Hhosts.
    set (r1 := init_node env pg ddb h f) in *.
    assert (Hstatus1 : status_of (file_after r1) D = Some CREATED).
    { rewrite <- Hcreated. apply (init_node_unchanged env pg D ddb Hforce h f). }
    assert (Hphases1 : phases_for D (events r1) = [])
      by apply (init_node_silent_about env pg D ddb Hprimary h f).
    assert (Hread1 : readable (file_after r1)) by (by eapply recorded_readable).
    destruct (init_other_databases_run env pg Hcoop Hforce dbs (h ++ events r1)
                (file_after r1) Hread1 Hhosts) as (Hret2 & Hlisted & _).
    destruct (Hlisted D Hin) as [Hphases2 Hstatus2].
    set (r2 := init_other_databases env pg dbs (h ++ events r1) (file_after r1)) in *.
    assert (Hmain : main env pg ddb dbs h f
                    = mkRun (Returns tt) (file_after r2) (events r1 ++ events r2)).
    { unfold main. rewrite (bind_returns (init_node env pg ddb) _ h f tt Hnode). fold r1.
      rewrite (bind_returns (init_other_databases env pg dbs) _ _ _ tt Hret2). fold r2.
      destruct (last dbs) eqn:Hlast.
      - rewrite skip_run, !after_run. by rewrite app_nil_r.
      - apply last_None in Hlast. subst dbs. by apply elem_of_nil in Hin. }
    rewrite Hmain. cbn [result file_after events].
    split; [done|]. split.
    + rewrite phases_for_app, Hphases1, Hphases2, Hstatus1. cbn [app].
      rewrite bool_decide_eq_false_2 by discriminate. by rewrite andb_true_r.
    + rewrite Hstatus2, Hstatus1. by destruct (has_peers_for D dbs).
Qed.

Lemma C3_witness :
  phases_for "analytics"
    (events (main Example.env16 Example.pg_slow Example.main_db [Example.analytics]
                  [] Example.crashed_after_created))
  = [SpockNodeInit; PeerRendezvous].
Proof.
  refine (proj1 (proj2 (proj2 (C3_resume_from_created Example.env16 Example.pg_slow
                                 Example.main_db [Example.analytics] "analytics" []
                                 Example.crashed_after_created eq_refl eq_refl _)
                          cooperative_pg_slow eq_refl _ _))).
  - by left.
  - discriminate.
  - vm_compute. repeat constructor.
Defined.

(** ** The privilege bundle *)


Lemma get_superuser_roles_recognized env roles :
  roles_of_version env = Some roles ->
  get_superuser_roles env = Value (Py.join ", " roles).
Proof.
  unfold roles_of_version, get_superuser_roles.
  destruct (PGV env) as [v|]; [|discriminate].
  destruct (decide (v = "15")) as [->|H15]; [by intros [= <-]|].
  destruct (decide (v = "16")) as [->|H16]; [by intros [= <-]|].
  destruct (decide (v = "17")) as [->|H17]; [by intros [= <-]|].
  intros Hroles. exfalso. revert Hroles.
  repeat (destruct v as [|[[] [] [] [] [] [] [] []] v]; try discriminate; try congruence).
Qed.

Lemma roles_of_version_recognized env :
  recognized_version env <-> is_Some (roles_of_version env).
Proof.
  unfold recognized_version, roles_of_version. split.
  - intros [-> | [-> | ->]]; by eexists.
  - destruct (PGV env) as [v|]; [|by intros [? [=]]].
    destruct (decide (v = "15")) as [->|H15]; [tauto|].
    destruct (decide (v = "16")) as [->|H16]; [tauto|].
    destruct (decide (v = "17")) as [->|H17]; [tauto|].
    intros [roles Hroles]. exfalso. revert Hroles.
    repeat (destruct v as [|[[] [] [] [] [] [] [] []] v]; try discriminate; try congruence).
Qed.

Lemma connections_app (e1 e2 : list event) :
  connections (e1 ++ e2) = connections e1 ++ connections e2.
Proof. apply flat_map_app. Qed.









(** * Properties beyond the claims *)

(** ** Dictionaries *)

Lemma dict_set_elem {V} (k : string) (v : V) d x :
  x ∈ Dict.set k v d -> x = (k, v) \/ x ∈ d.
Proof.
  induction d as [|[k' v'] d IH]; cbn.
  - intros ->%list_elem_of_singleton. by left.
  - destruct (decide (k' = k)).
    + rewrite !elem_of_cons. intros [->|Hin]; [by left|by right; right].
    + rewrite !elem_of_cons. intros [->|Hin]; [by right; left|].
      destruct (IH Hin); [by left|by right; right].
Qed.

Lemma dict_set_keys {V} (k : string) (v : V) d k0 :
  k0 ∈ map fst (Dict.set k v d) <-> k0 = k \/ k0 ∈ map fst d.
Proof.
  induction d as [|[k' v'] d IH]; cbn.
  - rewrite list_elem_of_singleton, elem_of_nil. tauto.
  - destruct (decide (k' = k)) as [->|Hne]; cbn; rewrite !elem_of_cons.
    + tauto.
    + rewrite IH. tauto.
Qed.

Lemma dict_set_nodup {V} (k : string) (v : V) d :
  NoDup (map fst d) -> NoDup (map fst (Dict.set k v d)).
Proof.
  induction d as [|[k' v'] d IH]; cbn; intros Hnd.
  - apply NoDup_singleton.
  - apply NoDup_cons in Hnd as [Hnotin Hnd].
    destruct (decide (k' = k)) as [->|Hne]; cbn.
    + by apply NoDup_cons.
    + apply NoDup_cons. split; [|by apply IH].
      rewrite dict_set_keys. intros [?|?]; [by subst|done].
Qed.

Lemma dict_of_items_from {V} (items acc : list (string * V)) x :
  x ∈ fold_left (fun d item => Dict.set (fst item) (snd item) d) items acc ->
  x ∈ acc \/ x ∈ items.
Proof.
  revert acc. induction items as [|[k v] items IH]; cbn; intros acc Hin; [by left|].
  destruct (IH _ Hin) as [Hacc|Hitems]; [|by right; right].
  destruct (dict_set_elem _ _ _ _ Hacc) as [->|?]; [right; by left|by left].
Qed.

Lemma dict_of_items_nodup_from {V} (items acc : list (string * V)) :
  NoDup (map fst acc) ->
  NoDup (map fst (fold_left (fun d item => Dict.set (fst item) (snd item) d) items acc)).
Proof.
  revert acc. induction items as [|[k v] items IH]; cbn; intros acc Hnd; [done|].
  apply IH. by apply dict_set_nodup.
Qed.

Lemma dict_remove_elem {V} (k : string) (d : list (string * V)) x :
  x ∈ Dict.remove k d <-> x ∈ d /\ fst x <> k.
Proof.
  induction d as [|[k' v'] d IH]; cbn.
  - rewrite elem_of_nil. tauto.
  - destruct (decide (k' = k)) as [->|Hne]; rewrite ?elem_of_cons, IH.
    + split; [tauto|]. intros [[->|?] Hx]; [done|tauto].
    + split; [|tauto]. intros [->|[? ?]]; [by split; [left|]|tauto].
Qed.

Lemma dict_remove_nodup {V} (k : string) (d : list (string * V)) :
  NoDup (map fst d) -> NoDup (map fst (Dict.remove k d)).
Proof.
  induction d as [|[k' v'] d IH]; cbn; intros Hnd; [done|].
  apply NoDup_cons in Hnd as [Hnotin Hnd].
  destruct (decide (k' = k)); [by apply IH|]. cbn.
  apply NoDup_cons. split; [|by apply IH].
  intros Hin. apply Hnotin.
  apply list_elem_of_fmap in Hin as ([k1 v1] & -> & Hin).
  apply dict_remove_elem in Hin as [Hin _].
  apply list_elem_of_fmap. by exists (k1, v1).
Qed.

(** ** The resolver *)

Lemma resolved_users_spec (users : list UserSpec) :
  NoDup (map fst (resolved_users users))
  /\ (forall k user,
        (k, user) ∈ resolved_users users ->
        k = username user
        /\ k <> "pgedge"
        /\ service user = "postgres"
        /\ user ∈ users).
Proof.
  unfold resolved_users, Dict.pop, postgres_users_of, Dict.of_items.
  cbn [snd]. split.
  - apply dict_remove_nodup, dict_of_items_nodup_from. constructor.
  - intros k user Hin.
    apply dict_remove_elem in Hin as [Hin Hk]. cbn in Hk.
    apply dict_of_items_from in Hin as [Hin|Hin]; [by apply elem_of_nil in Hin|].
    apply list_elem_of_fmap in Hin as (u & Heq & Hu).
    injection Heq as -> ->.
    apply list_elem_of_filter in Hu as [Hservice Hu]. done.
Qed.

Lemma text_or_exit_returns v s :
  text_or_exit v = Returns s -> v = Some s /\ Py.truthy s = true.
Proof.
  unfold text_or_exit. destruct v as [s'|]; [|discriminate].
  destruct (Py.truthy s') eqn:Ht; [|discriminate]. by intros [= ->].
Qed.

Lemma list_or_exit_returns {A} (v : option (list A)) l :
  list_or_exit v = Returns l -> v = Some l /\ l <> [].
Proof.
  unfold list_or_exit. destruct v as [[|x rest]|]; try discriminate.
  by intros [= <-].
Qed.

(** What a specification has when [get_default_db_info] returns, and what
    the [DatabaseInfo] returned holds. *)
Lemma get_default_db_info_returns nenv spec info :
  get_default_db_info nenv spec = Returns info ->
  exists name cluster users self_node host pw,
    text_or_exit (spec_name spec) = Returns name
    /\ list_or_exit (spec_nodes spec) = Returns cluster
    /\ list_or_exit (spec_users spec) = Returns users
    /\ get_self_node nenv spec = Returns self_node
    /\ get_hostname self_node = Value host
    /\ text_or_exit (pgedge_password nenv (fst (Dict.pop "pgedge" (postgres_users_of users))))
       = Returns pw
    /\ Py.truthy (fst (get_admin_creds (resolved_users users))) = true
    /\ Py.truthy (snd (get_admin_creds (resolved_users users))) = true
    /\ info
       = {| database_name := name;
            owner := fst (get_admin_creds (resolved_users users));
            nodes := cluster;
            hostname := host;
            node_name := node_spec_name self_node;
            node_id := node_spec_id self_node;
            postgres_users := resolved_users users;
            spock_dsn := dsn name "pgedge" (Some pw) host 5432;
            local_dsn := dsn name (fst (get_admin_creds (resolved_users users)))
                             (Some (snd (get_admin_creds (resolved_users users))))
                             "localhost" 5432;
            internal_dsn := dsn name "pgedge" (Some pw) "localhost" 5432;
            init_dsn := dsn (fmt_optional (INIT_DATABASE nenv))
                            (fmt_optional (INIT_USERNAME nenv))
                            (INIT_PASSWORD nenv) "localhost" 5432;
            init_dbname := fmt_optional (INIT_DATABASE nenv);
            init_username := fmt_optional (INIT_USERNAME nenv);
            pgedge_pw := pw;
            mode := Some (getenv_default (spec_mode spec) "online") |}.
Proof.
  unfold get_default_db_info, mbind, outcome_bind, resolved_users.
  destruct (text_or_exit (spec_name spec)) as [name| | |]; try discriminate.
  destruct (list_or_exit (spec_nodes spec)) as [cluster| | |]; try discriminate.
  destruct (list_or_exit (spec_users spec)) as [users| | |]; try discriminate.
  destruct (get_self_node nenv spec) as [self_node| | |]; try discriminate.
  destruct (get_hostname self_node) as [host|] eqn:Hhost; cbn [of_raising];
    try discriminate.
  cbv zeta.
  destruct (text_or_exit (pgedge_password nenv _)) as [pw| | |] eqn:Hpw;
    try discriminate.
  destruct (Py.truthy (fst _)) eqn:Hu; cbn [negb orb]; try discriminate.
  destruct (Py.truthy (snd _)) eqn:Hp; cbn [negb]; try discriminate.
  intros [= <-]. by exists name, cluster, users, self_node, host, pw.
Qed.

(** [get_admin_creds] gives the first admin of the [postgres] service. *)
Lemma get_admin_creds_found (d : list (string * UserSpec)) :
  Py.truthy (fst (get_admin_creds d)) = true ->
  exists k admin,
    (k, admin) ∈ d
    /\ user_type admin = "admin"
    /\ service admin = "postgres"
    /\ get_admin_creds d = (username admin, password admin).
Proof.
  induction d as [|[k user] rest IH]; cbn [get_admin_creds]; [discriminate|].
  destruct (bool_decide (service user = "postgres")
            && bool_decide (user_type user = "admin")) eqn:Hadmin.
  - apply andb_true_iff in Hadmin
      as [Hservice%bool_decide_eq_true Htype%bool_decide_eq_true].
    intros _. exists k, user. split; [by left|done].
  - intros Hfound. destruct (IH Hfound) as (k' & admin & Hin & Hrest).
    exists k', admin. split; [by right|done].
Qed.

(** X15. When [get_default_db_info] returns, the users it hands to the
    bootstrap are users of the [postgres] service of the specification, each
    under its own name and once, and the [pgedge] user is never among them:
    the bootstrap creates no user of that name. The owner is the first of
    them of type [admin], with a non-empty name and password. *)
Theorem X15_resolved_users_exclude_pgedge :
  forall (nenv : NodeEnviron) (spec : ClusterSpec) (info : DatabaseInfo),
    get_default_db_info nenv spec = Returns info ->
    NoDup (map fst (postgres_users info))
    /\ ("pgedge" ∉ map fst (postgres_users info))
    /\ (forall k user,
          (k, user) ∈ postgres_users info ->
          k = username user
          /\ service user = "postgres"
          /\ exists users, spec_users spec = Some users /\ user ∈ users)
    /\ (exists k admin,
          (k, admin) ∈ postgres_users info
          /\ user_type admin = "admin"
          /\ owner info = username admin
          /\ owner info <> EmptyString
          /\ password admin <> EmptyString).
Proof.
  intros nenv spec info Hret.
  destruct (get_default_db_info_returns _ _ _ Hret)
    as (name & cluster & users & self_node & host & pw
        & _ & _ & Husers & _ & _ & _ & Hau & Hap & ->).
  cbn [postgres_users owner].
  destruct (resolved_users_spec users) as [Hnd Helem].
  apply list_or_exit_returns in Husers as [Husers _].
  split; [done|]. split; [|split].
  - intros Hin. apply list_elem_of_fmap in Hin as ([k user] & Hk & Hin).
    cbn in Hk. subst k. by destruct (Helem _ _ Hin) as (_ & Hne & _).
  - intros k user Hin. destruct (Helem _ _ Hin) as (Hk & _ & Hs & Hu).
    split; [done|]. split; [done|]. by exists users.
  - destruct (get_admin_creds_found _ Hau) as (k & admin & Hin & Htype & _ & Hcreds).
    rewrite Hcreds in *. cbn [fst snd] in *.
    exists k, admin. split; [done|]. split; [done|]. split; [done|].
    split; intros Hempty; rewrite Hempty in *; discriminate.
Qed.

Lemma X15_witness :
  exists info, get_default_db_info Cluster.nenv Cluster.spec = Returns info
               /\ "pgedge" ∉ map fst (postgres_users info).
Proof.
  eexists. split; [reflexivity|].
  exact (proj1 (proj2 (X15_resolved_users_exclude_pgedge Cluster.nenv Cluster.spec _
                         eq_refl))).
Defined.

Lemma Forall2_map_of {A B} (P : A -> B -> Prop) (F : A -> B) (l : list A) :
  (forall x, P x (F x)) -> Forall2 P l (map F l).
Proof. intros HP. induction l; cbn; by constructor. Qed.

(** X14. When [get_default_db_info] returns, [get_dbs_info] returns too: it
    makes the same checks on the same specification. It gives one
    [DatabaseInfo] per additional database, in order, under the name of the
    database, owned by its owner or else by the admin user, and with the
    node, the users, the mode and the seed connection of the default
    database; its internal connection is the one to the default database. *)
Theorem X14_dbs_info_follow_default :
  forall (nenv : NodeEnviron) (spec : ClusterSpec) (info : DatabaseInfo),
    get_default_db_info nenv spec = Returns info ->
    exists infos,
      get_dbs_info nenv spec = Returns infos
      /\ Forall2 (fun db db_info =>
                    database_name db_info = db_spec_name db
                    /\ owner db_info = owner_or (owner info) db
                    /\ spock_dsn db_info
                       = dsn (db_spec_name db) "pgedge" (Some (pgedge_pw info))
                             (hostname info) 5432
                    /\ same_node db_info info)
                 (databases_of spec) infos.
Proof.
  intros nenv spec info Hret.
  destruct (get_default_db_info_returns _ _ _ Hret)
    as (name & cluster & users & self_node & host & pw
        & Hname & Hnodes & Husers & Hself & Hhost & Hpw & Hau & Hap & ->).
  unfold get_dbs_info, databases_of, mbind, outcome_bind. rewrite Hname.
  destruct (spec_databases spec) as [[|db dbs]|].
  - exists []. split; [done|constructor].
  - rewrite Hnodes, Husers, Hself, Hhost. cbn [of_raising]. cbv zeta.
    fold (resolved_users users). rewrite Hpw, Hau, Hap. cbn [negb orb].
    eexists. split; [reflexivity|].
    apply Forall2_map_of. intros d. by repeat split.
  - exists []. split; [done|constructor].
Qed.

Lemma X14_witness :
  exists infos,
    get_dbs_info Cluster.nenv Cluster.spec = Returns infos
    /\ map database_name infos = ["analytics"].
Proof.
  destruct (X14_dbs_info_follow_default Cluster.nenv Cluster.spec _ eq_refl)
    as (infos & Hinfos & Hall).
  exists infos. split; [exact Hinfos|].
  clear Hinfos. cbn in Hall.
  inversion Hall as [|d i ds rest (Hn & _) Hrest]; subst.
  inversion Hrest; subst. cbn. by rewrite Hn.
Defined.

(** ** Fatal configuration errors *)

Lemma text_or_exit_none v : no_text v -> text_or_exit v = Exits 1.
Proof. by intros [->| ->]. Qed.

Lemma list_or_exit_none {A} (v : option (list A)) : no_items v -> list_or_exit v = Exits 1.
Proof. by intros [->| ->]. Qed.

Lemma get_self_node_unknown nenv spec cluster :
  spec_nodes spec = Some cluster -> self_unknown nenv spec ->
  get_self_node nenv spec = Exits 1.
Proof.
  intros Hnodes [Hself Hnone]. unfold get_self_node. rewrite Hnodes, Hself.
  destruct (List.find _ cluster) as [node|] eqn:Hfind; [|done].
  apply find_some in Hfind as [Hin Hid%bool_decide_eq_true].
  destruct (Hnone cluster node Hnodes); [by apply list_elem_of_In|done].
Qed.

(** X16. A specification without a name, without nodes, without users, or
    in which this node cannot be found makes [get_default_db_info] exit with
    status 1, and so does a missing configuration file: [main] then ends
    with that status before it connects to anything or writes anything. *)
Theorem X16_configuration_errors_exit :
  forall (env : Environ) (nenv : NodeEnviron) (pg : Postgres) (spec : ClusterSpec) h f,
    (no_text (spec_name spec) \/ no_items (spec_nodes spec)
     \/ no_items (spec_users spec) \/ self_unknown nenv spec) ->
    get_default_db_info nenv spec = Exits 1
    /\ script_main env nenv pg (Some spec) h f = mkRun (Exits 1) f []
    /\ script_main env nenv pg None h f = mkRun (Exits 1) f [].
Proof.
  intros env nenv pg spec h f Hbad.
  assert (Hexit : get_default_db_info nenv spec = Exits 1).
  { unfold get_default_db_info, mbind, outcome_bind.
    destruct (text_or_exit (spec_name spec)) as [name| | |] eqn:Hname;
      try (destruct (spec_name spec) as [s|]; [cbn in Hname; destruct (Py.truthy s)|];
           by inversion Hname).
    destruct (list_or_exit (spec_nodes spec)) as [cluster| | |] eqn:Hnodes;
      try (destruct (spec_nodes spec) as [[|]|]; by inversion Hnodes).
    destruct (list_or_exit (spec_users spec)) as [users| | |] eqn:Husers;
      try (destruct (spec_users spec) as [[|]|]; by inversion Husers).
    destruct Hbad as [Hbad|[Hbad|[Hbad|Hbad]]].
    - by rewrite (text_or_exit_none _ Hbad) in Hname.
    - by rewrite (list_or_exit_none _ Hbad) in Hnodes.
    - by rewrite (list_or_exit_none _ Hbad) in Husers.
    - apply list_or_exit_returns in Hnodes as [Hnodes _].
      by rewrite (get_self_node_unknown _ _ _ Hnodes Hbad). }
  split; [done|]. split; [|done].
  unfold script_main. rewrite Hexit. reflexivity.
Qed.

Lemma X16_witness :
  script_main Example.env16 Cluster.nenv Example.pg_up
    (Some {| spec_name := Some "main"; spec_nodes := Some [Example.n2];
             spec_users := Some [Cluster.pgedge]; spec_mode := None;
             spec_self := None; spec_databases := None |}) [] NoFile
  = mkRun (Exits 1) NoFile [].
Proof.
  refine (proj1 (proj2 (X16_configuration_errors_exit Example.env16 Cluster.nenv
                          Example.pg_up _ [] NoFile _))).
  right; right; right. split; [reflexivity|].
  intros cluster node [= <-] Hin. apply list_elem_of_singleton in Hin. by subst node.
Defined.

(** ** This node and its peers *)

Lemma peers_of_spec db_info p :
  p ∈ peers_of db_info <-> p ∈ nodes db_info /\ node_spec_id p <> node_id db_info.
Proof. unfold peers_of. rewrite list_elem_of_filter. tauto. Qed.

Lemma filter_drops {A} (P : A -> Prop) `{!forall x, Decision (P x)} (l : list A) x :
  x ∈ l -> ~ P x -> length (filter P l) < length l.
Proof.
  induction l as [|y l IH]; [by intros ?%elem_of_nil|].
  intros Hin HP. rewrite filter_cons. destruct (decide (P y)) as [Hy|Hy].
  - cbn. apply elem_of_cons in Hin as [->|Hin]; [done|].
    specialize (IH Hin HP). lia.
  - cbn. pose proof (length_filter P l). lia.
Qed.

Lemma find_first {A} (p : A -> bool) (l : list A) x :
  List.find p l = Some x ->
  exists before after,
    l = before ++ x :: after /\ p x = true /\ Forall (fun y => p y = false) before.
Proof.
  induction l as [|y l IH]; [discriminate|]. cbn [List.find].
  destruct (p y) eqn:Hy.
  - intros [= ->]. by exists [], l.
  - intros (before & after & -> & Hx & Hbefore)%IH.
    exists (y :: before), after. split; [done|]. split; [done|]. by constructor.
Qed.

(** X17. The node the resolver takes for this one is the [self] entry of
    the specification when there is one, and otherwise the first node whose
    id is [NODE_ID] (default [-1]): no node listed before it has that id;
    [NODE_NAME] plays no part. The peers of the rendezvous are the nodes
    with another id: when this node is found by its id it is not among
    them, so there are fewer peers than nodes. *)
Theorem X17_self_node_and_peers :
  forall (nenv : NodeEnviron) (spec : ClusterSpec) (info : DatabaseInfo),
    get_default_db_info nenv spec = Returns info ->
    (forall self_node,
        spec_self spec = Some self_node ->
        node_id info = node_spec_id self_node
        /\ node_name info = node_spec_name self_node
        /\ get_hostname self_node = Value (hostname info))
    /\ (spec_self spec = None ->
        node_id info = getenv_default (NODE_ID nenv) "-1"
        /\ (exists node, node ∈ nodes info
                         /\ node_spec_id node = node_id info
                         /\ node_spec_name node = node_name info)
        /\ length (peers_of info) < length (nodes info)
        /\ (exists before node after,
              nodes info = before ++ node :: after
              /\ node_spec_id node = node_id info
              /\ node_spec_name node = node_name info
              /\ get_hostname node = Value (hostname info)
              /\ Forall (fun earlier => node_spec_id earlier <> node_id info) before))
    /\ (forall p, p ∈ peers_of info
                  <-> p ∈ nodes info /\ node_spec_id p <> node_id info)
    /\ spec_nodes spec = Some (nodes info).
Proof.
  intros nenv spec info Hret.
  destruct (get_default_db_info_returns _ _ _ Hret)
    as (name & cluster & users & self_node & host & pw
        & _ & Hnodes & _ & Hself & Hhost & _ & _ & _ & ->).
  apply list_or_exit_returns in Hnodes as [Hnodes _].
  unfold get_self_node in Hself. rewrite Hnodes in Hself.
  split; [|split; [|split]].
  - intros s Hs. rewrite Hs in Hself. injection Hself as ->. by cbn.
  - intros Hnone. rewrite Hnone in Hself. cbv zeta in Hself.
    destruct (List.find _ cluster) as [node|] eqn:Hfind; [|discriminate].
    injection Hself as ->.
    pose proof (find_first _ _ _ Hfind) as (before & after & Hsplit & _ & Hbefore).
    apply find_some in Hfind as [Hin%list_elem_of_In Hid%bool_decide_eq_true].
    cbn [node_id nodes node_name hostname].
    split; [done|]. split; [by exists self_node|]. split.
    + unfold peers_of. cbn [node_id nodes].
      apply (filter_drops _ cluster self_node Hin). by intros Hne.
    + exists before, self_node, after. repeat split; try done.
      eapply Forall_impl; [exact Hbefore|].
      intros earlier Hearlier. cbn beta in Hearlier.
      apply bool_decide_eq_false in Hearlier. by rewrite Hid.
  - intros p. apply peers_of_spec.
  - done.
Qed.

Lemma X17_witness :
  exists info, get_default_db_info Cluster.nenv Cluster.spec = Returns info
               /\ node_id info = "1".
Proof.
  eexists. split; [reflexivity|].
  exact (proj1 (proj1 (proj2 (X17_self_node_and_peers Cluster.nenv Cluster.spec _ eq_refl))
                  eq_refl)).
Defined.

(** ** [main] from the configuration file *)

Lemma bind_ext {A B} (m : prog A) (k k' : A -> prog B) h f :
  (forall a h' f', k a h' f' = k' a h' f') ->
  (m ≫= k) h f = (m ≫= k') h f.
Proof.
  intros Hk. unfold mbind, prog_bind.
  destruct (result (m h f)); by rewrite ?Hk.
Qed.

Lemma bind_lift_returns {A B} (a : A) (k : A -> prog B) h f :
  (lift_outcome (Returns a) ≫= k) h f = k a h f.
Proof.
  rewrite (bind_known _ _ h f a f []); [|done].
  by rewrite app_nil_r, after_nil.
Qed.

(** Once [get_default_db_info] has returned, so does [get_dbs_info], and
    the run is [main] on the two results. *)
Lemma script_main_resolved env nenv pg spec info h f :
  get_default_db_info nenv spec = Returns info ->
  exists infos,
    get_dbs_info nenv spec = Returns infos
    /\ map database_name infos = map db_spec_name (databases_of spec)
    /\ script_main env nenv pg (Some spec) h f = main env pg info infos h f.
Proof.
  intros Hret.
  destruct (get_default_db_info_returns _ _ _ Hret)
    as (name & cluster & users & self_node & host & pw
        & Hname & Hnodes & Husers & Hself & Hhost & Hpw & Hau & Hap & _).
  assert (Hdbs : exists infos, get_dbs_info nenv spec = Returns infos
                               /\ map database_name infos
                                  = map db_spec_name (databases_of spec)).
  { unfold get_dbs_info, databases_of, mbind, outcome_bind. rewrite Hname.
    destruct (spec_databases spec) as [[|db dbs]|]; [by exists []| |by exists []].
    rewrite Hnodes, Husers, Hself, Hhost. cbn [of_raising]. cbv zeta.
    fold (resolved_users users). rewrite Hpw, Hau, Hap. cbn [negb orb].
    eexists. split; [reflexivity|].
    rewrite map_map. reflexivity. }
  destruct Hdbs as (infos & Hinfos & Hnames).
  exists infos. split; [done|]. split; [done|].
  unfold script_main, main. rewrite Hret, Hinfos, bind_lift_returns.
  apply bind_ext. intros [] h' f'. by rewrite bind_lift_returns.
Qed.

(** X18. [main], run from the configuration file, is [main] run on what
    the resolver makes of the specification: when [get_default_db_info]
    returns, the call of [get_dbs_info] that comes after the primary phase
    returns as well, and the run is the one of the phases on the two
    results. When the resolver does not return, the run ends as the
    resolver does, with nothing done and nothing written. *)
Theorem X18_main_runs_on_the_resolved_topology :
  forall (env : Environ) (nenv : NodeEnviron) (pg : Postgres) (spec : ClusterSpec) h f,
    match get_default_db_info nenv spec with
    | Returns info =>
        exists infos,
          get_dbs_info nenv spec = Returns infos
          /\ map database_name infos = map db_spec_name (databases_of spec)
          /\ script_main env nenv pg (Some spec) h f = main env pg info infos h f
    | stopped =>
        script_main env nenv pg (Some spec) h f
        = mkRun (match stopped with
                 | Exits code => Exits code
                 | Raises e => Raises e
                 | _ => Blocks
                 end) f []
    end.
Proof.
  intros env nenv pg spec h f.
  destruct (get_default_db_info nenv spec) as [info|code|e|] eqn:Hret;
    try (unfold script_main; by rewrite Hret).
  by apply script_main_resolved.
Qed.


(** ** The grants of [init_spock_node] *)

Lemma flat_map_length_const {A B} (F : A -> list B) (l : list A) n :
  (forall x, length (F x) = n) -> length (flat_map F l) = n * length l.
Proof.
  intros HF. induction l as [|x l IH]; cbn; [lia|].
  rewrite length_app, HF, IH. lia.
Qed.

Lemma flat_map_mono {A B} (F : A -> list B) (l1 l2 : list A) y :
  (forall x, x ∈ l1 -> x ∈ l2) -> y ∈ flat_map F l1 -> y ∈ flat_map F l2.
Proof.
  intros Hsub. rewrite !list_elem_of_In, !in_flat_map.
  intros (x & Hx & Hy). exists x. split; [|done].
  apply list_elem_of_In, Hsub. by apply list_elem_of_In.
Qed.

Lemma alter_user_statements_public user dbname schemas stmt :
  "public" ∈ schemas ->
  stmt ∈ alter_user_statements user dbname ["public"] ->
  stmt ∈ alter_user_statements user dbname schemas.
Proof.
  intros Hpublic. unfold alter_user_statements. cbv zeta.
  destruct (bool_decide (user_type user ∈ _)).
  - destruct (bool_decide (user_type user = "internal_read_only"));
      rewrite ?elem_of_app; intros Hin;
      repeat match goal with
             | H : _ \/ _ |- _ => destruct H as [H|H]
             end;
      try (by left; left); try (by left); try (by right);
      try (left; right; eapply flat_map_mono; [|exact Hin];
           intros x ->%list_elem_of_singleton; exact Hpublic);
      try (right; eapply flat_map_mono; [|exact Hin];
           intros x ->%list_elem_of_singleton; exact Hpublic).
  - rewrite !elem_of_app.
    intros [Hin|Hin]; [by left|right].
    eapply flat_map_mono; [|exact Hin].
    intros x ->%list_elem_of_singleton. exact Hpublic.
Qed.

(** X4. [alter_user_statements] gives one [GRANT CONNECT] and then, per
    schema, three statements to the read-only user types and five to the
    others, with two more for [internal_read_only]; and whatever it grants
    over the schema [public] alone it also grants over any list of schemas
    that has [public] in it. *)
Theorem X4_grants_per_schema :
  forall (user : UserSpec) (dbname : string) (schemas : list string),
    length (alter_user_statements user dbname schemas)
    = (if bool_decide (read_only_type user)
       then 1 + 3 * length schemas
            + (if bool_decide (user_type user = "internal_read_only") then 2 else 0)
       else 1 + 5 * length schemas)
    /\ (alter_user_statements user dbname schemas) !! 0
       = Some ("GRANT CONNECT ON DATABASE " +:+ dbname +:+ " TO " +:+ username user +:+ ";")
    /\ ("public" ∈ schemas ->
        forall stmt, stmt ∈ alter_user_statements user dbname ["public"] ->
                     stmt ∈ alter_user_statements user dbname schemas).
Proof.
  intros user dbname schemas. split; [|split].
  - unfold alter_user_statements, read_only_type. cbv zeta.
    destruct (bool_decide (user_type user ∈ _)).
    + destruct (bool_decide (user_type user = "internal_read_only"));
        rewrite ?length_app; cbn [length];
        rewrite (flat_map_length_const _ schemas 3) by done; lia.
    + rewrite length_app. cbn [length].
      rewrite (flat_map_length_const _ schemas 5) by done. lia.
  - unfold alter_user_statements. cbv zeta.
    destruct (bool_decide (user_type user ∈ _)); [|done].
    by destruct (bool_decide (user_type user = "internal_read_only")).
  - intros Hpublic stmt. by apply alter_user_statements_public.
Qed.

Lemma X4_witness :
  "GRANT USAGE, CREATE ON SCHEMA public TO admin1;"
  ∈ alter_user_statements Example.admin1 "analytics"
      ["public"; "spock"; "pg_catalog"; "information_schema"].
Proof.
  apply (proj2 (proj2 (X4_grants_per_schema Example.admin1 "analytics"
                         ["public"; "spock"; "pg_catalog"; "information_schema"]))).
  - by left.
  - apply list_elem_of_In. vm_compute. right; left; reflexivity.
Defined.

(** ** Names and connection strings *)

Lemma append_cancel_l (s a b : string) : s +:+ a = s +:+ b -> a = b.
Proof. induction s as [|c s IH]; cbn; [done|]. intros [= H]. by apply IH. Qed.

(** X2. For one database on one node the name of a subscription
    determines the name of the peer: two peers with different names never
    get the same subscription name. *)
Theorem X2_subscription_names_tell_peers_apart :
  forall (database self p q : string),
    subscription_name_of database self p = subscription_name_of database self q ->
    p = q.
Proof.
  intros database self p q Hname. unfold subscription_name_of in Hname.
  by repeat apply append_cancel_l in Hname.
Qed.

Lemma X2_witness :
  node_spec_name Example.n2 = "n2".
Proof.
  exact (X2_subscription_names_tell_peers_apart "analytics" "n1"
           (node_spec_name Example.n2) "n2" eq_refl).
Defined.

Lemma append_assoc (a b c : string) : (a +:+ b) +:+ c = a +:+ (b +:+ c).
Proof. induction a as [|x a IH]; [done|]. exact (f_equal (String x) IH). Qed.

(** X1. A connection string always has the host, the database, the user
    and the port, in that order; the password comes last and only when
    there is one: an empty password is left out like a missing one. *)
Theorem X1_dsn_fields :
  forall (dbname user host : string) (port : N) (pw : string),
    dsn dbname user None host port
    = "host=" +:+ host +:+ " dbname=" +:+ dbname +:+ " user=" +:+ user
      +:+ " port=" +:+ pretty port
    /\ dsn dbname user (Some EmptyString) host port = dsn dbname user None host port
    /\ (pw <> EmptyString ->
        dsn dbname user (Some pw) host port
        = dsn dbname user None host port +:+ " password=" +:+ pw).
Proof.
  intros dbname user host port pw.
  assert (Hbase : dsn dbname user None host port
                  = "host=" +:+ host +:+ " dbname=" +:+ dbname +:+ " user=" +:+ user
                    +:+ " port=" +:+ pretty port).
  { unfold dsn. cbn [Py.join]. by rewrite !append_assoc. }
  split; [done|]. split; [done|].
  intros Hpw. rewrite Hbase. unfold dsn.
  destruct pw as [|c pw]; [done|]. cbn [Py.truthy app Py.join].
  rewrite !append_assoc. reflexivity.
Qed.

Lemma X1_witness :
  dsn "main" "pgedge" (Some "pw") "pg-n1" 5432
  = "host=pg-n1 dbname=main user=pgedge port=5432 password=pw".
Proof.
  rewrite (proj2 (proj2 (X1_dsn_fields "main" "pgedge" "pg-n1" 5432 "pw"))) by discriminate.
  reflexivity.
Defined.


(** ** Runs of [main] *)

Lemma init_default_database_done env pg db_info h f st :
  read_init_status env f = Value st ->
  default_db_initialized st = true ->
  init_default_database env pg db_info h f = mkRun (Returns tt) f [].
Proof.
  intros Hread Hflag. unfold init_default_database.
  rewrite (bind_get _ _ _ _ _ Hread). cbv zeta. by rewrite Hflag.
Qed.

Lemma for_each_nothing {A} (body : A -> prog unit) (xs : list A) f :
  (forall x h, x ∈ xs -> body x h f = mkRun (Returns tt) f []) ->
  forall h, for_each xs body h f = mkRun (Returns tt) f [].
Proof.
  induction xs as [|x xs IH]; intros Hbody h; [done|].
  cbn [for_each].
  rewrite (bind_known _ _ h f tt f [] (Hbody x h ltac:(by left))).
  rewrite app_nil_r, after_nil. apply IH. intros y h' Hy. apply Hbody. by right.
Qed.

(** The three loops do nothing on databases that are all subscribed. *)
Lemma init_other_databases_finished env pg (dbs_info : list DatabaseInfo) h f :
  force_update env = false ->
  (forall db_info, db_info ∈ dbs_info ->
                   status_of f (database_name db_info) = Some SUBSCRIBED) ->
  init_other_databases env pg dbs_info h f = mkRun (Returns tt) f [].
Proof.
  intros Hforce Hall. unfold init_other_databases.
  destruct dbs_info as [|db0 dbs_info]; [done|].
  assert (Hread : read_init_status env f = Value (recorded f)).
  { apply read_without_force; [done|].
    eapply recorded_readable, (Hall db0). by left. }
  revert Hall. generalize (db0 :: dbs_info). clear db0 dbs_info.
  intros dbs_info Hall.
  rewrite (bind_known _ _ h f tt f []).
  2:{ apply for_each_nothing. intros db h' Hdb. unfold init_database.
      rewrite (bind_get _ _ _ _ _ Hread). cbv zeta.
      specialize (Hall db Hdb). unfold status_of in Hall. by rewrite Hall. }
  rewrite (bind_known _ _ _ f tt f []).
  2:{ apply for_each_nothing. intros db h' Hdb. unfold spock_node_step.
      rewrite (bind_get _ _ _ _ _ Hread). cbv zeta.
      specialize (Hall db Hdb). unfold status_of in Hall. by rewrite Hall. }
  rewrite !after_nil.
  apply for_each_nothing. intros db h' Hdb. unfold peer_step.
  rewrite (bind_get _ _ _ _ _ Hread). cbv zeta.
  specialize (Hall db Hdb). unfold status_of in Hall. rewrite Hall.
  by rewrite bool_decide_eq_true_2.
Qed.

(** X6. Running [main] again on a node that has finished (no force flag,
    primary flag set, every additional database [subscribed]) does nothing
    but pause and probe: it opens no connection, executes no statement,
    writes nothing, leaves the progress file as it is and returns. *)
Theorem X6_rerun_of_a_finished_node_does_nothing :
  forall (env : Environ) (pg : Postgres) (default_db_info : DatabaseInfo)
         (dbs_info : list DatabaseInfo) h f,
    force_update env = false ->
    mode default_db_info <> Some "offline" ->
    default_db_initialized (recorded f) = true ->
    dbs_info <> [] ->
    (forall db_info, db_info ∈ dbs_info ->
                     status_of f (database_name db_info) = Some SUBSCRIBED) ->
    main env pg default_db_info dbs_info h f
    = mkRun (Returns tt) f
        ([Sleep 3; CanConnect (init_dsn default_db_info)]
         ++ (if seed_reachable pg h default_db_info then []
             else [CanConnect (local_dsn default_db_info)])).
Proof.
  intros env pg ddb dbs h f Hforce Hmode Hflag Hsome Hall.
  assert (Hread : read_init_status env f = Value (recorded f))
    by (apply read_without_force; [done|by apply flagged_readable]).
  assert (Hnode : init_node env pg ddb h f
                  = mkRun (Returns tt) f
                      ([Sleep 3; CanConnect (init_dsn ddb)]
                       ++ (if seed_reachable pg h ddb then []
                           else [CanConnect (local_dsn ddb)]))).
  { rewrite init_node_online by done.
    destruct (seed_reachable pg h ddb); [|destruct (admin_reachable pg h ddb)];
      rewrite ?(init_default_database_done env pg ddb _ f _ Hread Hflag); reflexivity. }
  unfold main. rewrite (bind_known _ _ h f tt f _ Hnode).
  rewrite (bind_known _ _ _ f tt f []
             (init_other_databases_finished env pg dbs _ f Hforce Hall)).
  destruct (last dbs) eqn:Hlast.
  - unfold after, skip, mret, prog_ret. cbn [result file_after events].
    by rewrite !app_nil_r.
  - apply last_None in Hlast. done.
Qed.

Lemma X6_witness :
  statements (events (main Example.env16 Example.pg_up Example.main_db
                           [Example.analytics] [] Cluster.finished)) = []
  /\ file_after (main Example.env16 Example.pg_up Example.main_db
                      [Example.analytics] [] Cluster.finished) = Cluster.finished.
Proof.
  rewrite (X6_rerun_of_a_finished_node_does_nothing Example.env16 Example.pg_up
             Example.main_db [Example.analytics] [] Cluster.finished).
  - split; reflexivity.
  - reflexivity.
  - discriminate.
  - reflexivity.
  - discriminate.
  - intros db Hdb. apply list_elem_of_singleton in Hdb. by subst db.
Defined.

Lemma main_without_databases env pg default_db_info h f :
  let r1 := init_node env pg default_db_info h f in
  let r := main env pg default_db_info [] h f in
  result r <> Returns tt
  /\ (result r1 = Returns tt ->
      r = mkRun (Raises (UnboundLocalError "db_info")) (file_after r1) (events r1)
      /\ exit_code (result r) = Some 1%Z).
Proof.
  revert env pg default_db_info h f. intros env pg ddb h f. cbv zeta.
  assert (Hraise : result (init_node env pg ddb h f) = Returns tt ->
            main env pg ddb [] h f
            = mkRun (Raises (UnboundLocalError "db_info"))
                (file_after (init_node env pg ddb h f))
                (events (init_node env pg ddb h f))).
  { intros Hret. unfold main. rewrite (bind_returns _ _ h f tt Hret).
    unfold init_other_databases. cbn [for_each last].
    rewrite !bind_skip. unfold after, raise. cbn [result file_after events].
    by rewrite app_nil_r. }
  split.
  - destruct (result (init_node env pg ddb h f)) as [[]| | |] eqn:Hr1.
    + rewrite (Hraise eq_refl). discriminate.
    + unfold main.
      rewrite (proj1 (bind_stops _ _ h f ltac:(by rewrite Hr1))). by rewrite Hr1.
    + unfold main.
      rewrite (proj1 (bind_stops _ _ h f ltac:(by rewrite Hr1))). by rewrite Hr1.
    + unfold main.
      rewrite (proj1 (bind_stops _ _ h f ltac:(by rewrite Hr1))). by rewrite Hr1.
  - intros Hret. rewrite (Hraise Hret). done.
Qed.


(** X7. With no additional database [main] cannot return: once the
    primary phase is over, the last line reads the variable of loops that
    never ran, and the run ends with [UnboundLocalError], after everything
    the primary phase did. So a specification without additional databases
    never gives a run that returns. *)
Theorem X7_no_additional_database_never_returns :
  forall (env : Environ) (nenv : NodeEnviron) (pg : Postgres)
         (default_db_info : DatabaseInfo) (spec : ClusterSpec) h f,
    let r1 := init_node env pg default_db_info h f in
    let r := main env pg default_db_info [] h f in
    result r <> Returns tt
    /\ (result r1 = Returns tt ->
        r = mkRun (Raises (UnboundLocalError "db_info")) (file_after r1) (events r1)
        /\ exit_code (result r) = Some 1%Z)
    /\ (databases_of spec = [] ->
        result (script_main env nenv pg (Some spec) h f) <> Returns tt).
Proof.
  intros env nenv pg ddb spec h f. cbv zeta.
  destruct (main_without_databases env pg ddb h f) as [Hnot Hraise].
  split; [done|]. split; [done|].
  intros Hnone.
  destruct (get_default_db_info nenv spec) as [info|code|e|] eqn:Hret;
    try (unfold script_main; by rewrite Hret).
  destruct (script_main_resolved env nenv pg spec info h f Hret)
    as (infos & _ & Hnames & ->).
  rewrite Hnone in Hnames. destruct infos; [|discriminate].
  apply main_without_databases.
Qed.

Lemma X7_witness :
  result (main Example.env16 Example.pg_up Example.main_db [] [] Cluster.finished)
  = Raises (UnboundLocalError "db_info").
Proof.
  destruct (proj1 (proj2 (X7_no_additional_database_never_returns Example.env16
                            Cluster.nenv Example.pg_up Example.main_db
                            Cluster.spec_without_databases [] Cluster.finished))
              eq_refl) as [Hrun _].
  by rewrite Hrun.
Defined.

(** ** The force flag over a whole run *)

(** With the force flag and servers that let everything through,
    [init_database] runs the creation phase and leaves a file with the
    single record of its database. *)
Lemma init_database_forced env pg db_info h f :
  cooperative pg ->
  force_update env = true ->
  let r := init_database env pg db_info h f in
  result r = Returns tt
  /\ file_after r
     = Json {| default_db_initialized := false;
               dbs_initialized := {[ database_name db_info := CREATED ]} |}
  /\ exists es, events r = Begin DatabaseCreation (database_name db_info) :: es.
Proof.
  intros Hcoop Hforce.
  destruct (forced_writes_start_over env Hforce) as (Hread & _ & Hupdate & _).
  unfold init_database. rewrite (bind_get _ _ _ _ _ (Hread f)). cbv zeta.
  cbn [empty_status dbs_initialized]. rewrite lookup_empty.
  rewrite bind_emit. do 5 pass. rewrite Hupdate. cbv zeta.
  rewrite !after_run. cbn [result file_after events app].
  split; [done|]. split; [done|]. by eexists.
Qed.

Lemma creation_loop_forced env pg (pre : list DatabaseInfo) last_db h f :
  cooperative pg ->
  force_update env = true ->
  let r := for_each (pre ++ [last_db]) (init_database env pg) h f in
  result r = Returns tt
  /\ file_after r
     = Json {| default_db_initialized := false;
               dbs_initialized := {[ database_name last_db := CREATED ]} |}
  /\ forall db_info, db_info ∈ pre ++ [last_db] ->
                     begins DatabaseCreation (database_name db_info) (events r).
Proof.
  intros Hcoop Hforce. revert h f.
  assert (Hbegun : forall db h f,
             begins DatabaseCreation (database_name db)
                    (events (init_database env pg db h f))).
  { intros db h f.
    destruct (init_database_forced env pg db h f Hcoop Hforce) as (_ & _ & es & ->).
    unfold begins. cbn. rewrite decide_True by done. by left. }
  induction pre as [|db pre IH]; intros h f; cbn [app].
  - destruct (init_database_forced env pg last_db h f Hcoop Hforce) as (Hret & Hfile & _).
    cbv zeta. rewrite for_each_cons_run by exact Hret.
    cbn [for_each after result file_after events]. unfold skip, mret, prog_ret.
    cbn [result file_after events]. split; [done|]. split; [done|].
    intros db Hdb. apply list_elem_of_singleton in Hdb. subst db.
    rewrite app_nil_r. apply Hbegun.
  - destruct (init_database_forced env pg db h f Hcoop Hforce) as (Hret & _ & _).
    cbv zeta. rewrite for_each_cons_run by exact Hret.
    destruct (IH (h ++ events (init_database env pg db h f))
                 (file_after (init_database env pg db h f)))
      as (Hret' & Hfile' & Hall').
    cbn [after result file_after events]. split; [done|]. split; [done|].
    intros db' Hdb'. rewrite begins_app.
    apply elem_of_cons in Hdb' as [->|Hdb']; [left; apply Hbegun|right; by apply Hall'].
Qed.

Lemma spock_node_loop_forced env pg schemas (pre : list DatabaseInfo) last_db h f :
  force_update env = true ->
  for_each (pre ++ [last_db]) (spock_node_step env pg schemas) h f
  = mkRun (Exits 1) f [].
Proof.
  intros Hforce.
  destruct (forced_writes_start_over env Hforce) as (Hread & _).
  destruct pre; cbn [app for_each]; apply bind_exits;
    apply (spock_node_step_missing _ _ _ _ _ _ _ (Hread _)), lookup_empty.
Qed.

(** With the force flag the loops over a non-empty list stop in the
    creation loop, or exit at the first step of the next one. *)
Lemma init_other_databases_forced env pg (pre : list DatabaseInfo) last_db h f :
  force_update env = true ->
  let r2 := for_each (pre ++ [last_db]) (init_database env pg) h f in
  let r := init_other_databases env pg (pre ++ [last_db]) h f in
  file_after r = file_after r2
  /\ events r = events r2
  /\ result r <> Returns tt
  /\ (result r2 = Returns tt -> result r = Exits 1).
Proof.
  intros Hforce. cbv zeta.
  destruct (forced_writes_start_over env Hforce) as (Hread & _).
  destruct (result (for_each (pre ++ [last_db]) (init_database env pg) h f))
    as [[]| | |] eqn:Hret2.
  - assert (Hloops : init_other_databases env pg (pre ++ [last_db]) h f
                     = mkRun (Exits 1)
                         (file_after (for_each (pre ++ [last_db]) (init_database env pg) h f))
                         (events (for_each (pre ++ [last_db]) (init_database env pg) h f))).
    { unfold init_other_databases. rewrite (bind_returns _ _ _ _ tt Hret2).
      erewrite bind_exits; [|by apply spock_node_loop_forced].
      unfold after. cbn [result file_after events]. by rewrite app_nil_r. }
    rewrite Hloops. done.
  - unfold init_other_databases.
    destruct (bind_stops (for_each (pre ++ [last_db]) (init_database env pg))
                (fun _ => for_each (pre ++ [last_db])
                            (spock_node_step env pg
                               ["public"; "spock"; "pg_catalog"; "information_schema"]) ;;
                          for_each (pre ++ [last_db]) (peer_step env pg)) h f)
      as (Hres & Hfile & Hev); [by rewrite Hret2|].
    rewrite Hret2 in Hres. rewrite Hres, Hfile, Hev. done.
  - unfold init_other_databases.
    destruct (bind_stops (for_each (pre ++ [last_db]) (init_database env pg))
                (fun _ => for_each (pre ++ [last_db])
                            (spock_node_step env pg
                               ["public"; "spock"; "pg_catalog"; "information_schema"]) ;;
                          for_each (pre ++ [last_db]) (peer_step env pg)) h f)
      as (Hres & Hfile & Hev); [by rewrite Hret2|].
    rewrite Hret2 in Hres. rewrite Hres, Hfile, Hev. done.
  - unfold init_other_databases.
    destruct (bind_stops (for_each (pre ++ [last_db]) (init_database env pg))
                (fun _ => for_each (pre ++ [last_db])
                            (spock_node_step env pg
                               ["public"; "spock"; "pg_catalog"; "information_schema"]) ;;
                          for_each (pre ++ [last_db]) (peer_step env pg)) h f)
      as (Hres & Hfile & Hev); [by rewrite Hret2|].
    rewrite Hret2 in Hres. rewrite Hres, Hfile, Hev. done.
Qed.

(** X8. With the force flag and at least one additional database, a run
    that gets past the primary phase never returns and never initialises a
    spock node, whatever the servers do. Provided every connection and
    statement of the creation phase succeeds in the end, the run ends in
    [sys.exit(1)]: the creation phase is run again for every database, each
    write starts the file over, so it ends with the single record of the
    last database at [created]; and the next loop, which reads an empty
    record, exits. *)
Theorem X8_forced_run_recreates_and_exits :
  forall (env : Environ) (pg : Postgres) (default_db_info : DatabaseInfo)
         (pre : list DatabaseInfo) (last_db : DatabaseInfo) h f,
    force_update env = true ->
    result (init_node env pg default_db_info h f) = Returns tt ->
    let r := main env pg default_db_info (pre ++ [last_db]) h f in
    result r <> Returns tt
    /\ (forall db_info, ~ begins SpockNodeInit (database_name db_info)
                          (events (init_other_databases env pg (pre ++ [last_db])
                                     (h ++ events (init_node env pg default_db_info h f))
                                     (file_after (init_node env pg default_db_info h f)))))
    /\ (cooperative pg ->
        result r = Exits 1
        /\ file_after r
           = Json {| default_db_initialized := false;
                     dbs_initialized := {[ database_name last_db := CREATED ]} |}
        /\ (forall db_info, db_info ∈ pre ++ [last_db] ->
                            begins DatabaseCreation (database_name db_info) (events r))).
Proof.
  intros env pg ddb pre last_db h f Hforce Hnode. cbv zeta.
  set (r1 := init_node env pg ddb h f) in *.
  destruct (init_other_databases_forced env pg pre last_db (h ++ events r1)
              (file_after r1) Hforce) as (Hfile & Hev & Hnot & Hexit).
  set (r2 := for_each (pre ++ [last_db]) (init_database env pg) (h ++ events r1)
               (file_after r1)) in *.
  set (r3 := init_other_databases env pg (pre ++ [last_db]) (h ++ events r1)
               (file_after r1)) in *.
  assert (Hmain : main env pg ddb (pre ++ [last_db]) h f
                  = after (events r1)
                      ((init_other_databases env pg (pre ++ [last_db]) ;;
                        match last (pre ++ [last_db]) with
                        | Some _ => skip
                        | None => raise (UnboundLocalError "db_info")
                        end) (h ++ events r1) (file_after r1))).
  { unfold main. subst r1. by rewrite (bind_returns (init_node env pg ddb) _ h f tt Hnode). }
  destruct (bind_stops (init_other_databases env pg (pre ++ [last_db]))
              (fun _ => match last (pre ++ [last_db]) with
                        | Some _ => skip
                        | None => raise (UnboundLocalError "db_info")
                        end) (h ++ events r1) (file_after r1))
    as (Hres' & Hfile' & Hev').
  { intros []. exact Hnot. }
  fold r3 in Hres', Hfile', Hev'.
  split; [|split].
  - rewrite Hmain. cbn [after result]. rewrite Hres'.
    destruct (result r3) as [[]| | |]; done.
  - intros db. rewrite Hev.
    assert (Hcreation : respects (without_phase SpockNodeInit)
                          (for_each (pre ++ [last_db]) (init_database env pg))).
    { unfold init_database, update_database_init_status.
      respects_with emits_without_phase. }
    apply (without_phase_not_begun SpockNodeInit _ _ (Hcreation _ _)).
  - intros Hcoop.
    destruct (creation_loop_forced env pg pre last_db (h ++ events r1) (file_after r1)
                Hcoop Hforce) as (Hret2 & Hfile2 & Hall2).
    fold r2 in Hret2, Hfile2, Hall2.
    rewrite Hmain. cbn [after result file_after events].
    rewrite Hres', Hfile', Hev', (Hexit Hret2), Hfile, Hev.
    split; [done|]. split; [done|].
    intros db Hdb. rewrite begins_app. right. by apply Hall2.
Qed.

Lemma X8_witness :
  result (main Example.env_force Example.pg_slow Example.main_db [Example.analytics]
               [] Cluster.finished)
  = Exits 1.
Proof.
  exact (proj1 (proj2 (proj2 (X8_forced_run_recreates_and_exits Example.env_force
                                Example.pg_slow Example.main_db [] Example.analytics
                                [] Cluster.finished eq_refl eq_refl))
                  cooperative_pg_slow)).
Defined.

(** ** What a run without the force flag never does *)

(** A primitive that returns, raises or blocks. *)
Ltac ends_here := intros ? ?; exact I.

Lemma never_exits_bind {A B} (m : prog A) (k : A -> prog B) :
  never_exits m -> (forall a, never_exits (k a)) -> never_exits (m ≫= k).
Proof.
  intros Hm Hk h f. specialize (Hm h f). unfold mbind, prog_bind.
  destruct (result (m h f)) as [a| | |]; cbn [after result]; try done. apply Hk.
Qed.

Lemma never_exits_for_each {A} (xs : list A) (body : A -> prog unit) :
  (forall x, never_exits (body x)) -> never_exits (for_each xs body).
Proof.
  intros Hbody. induction xs as [|x xs IH]; cbn [for_each]; [ends_here|].
  apply never_exits_bind; [apply Hbody|by intros _].
Qed.

Lemma never_exits_lift_raising {A} (v : raising A) : never_exits (lift_raising v).
Proof. destruct v; ends_here. Qed.

Lemma never_exits_get env : never_exits (get_init_status env).
Proof. intros h f. unfold get_init_status. by destruct (read_init_status env f). Qed.

Lemma never_exits_connect pg d autocommit : never_exits (connect pg d autocommit).
Proof. intros h f. unfold connect. by destruct (connects pg h d). Qed.

Lemma never_exits_execute pg stmt : never_exits (execute pg stmt).
Proof. intros h f. unfold execute. by destruct (runs pg h stmt). Qed.

Lemma never_exits_database_exists pg name : never_exits (database_exists pg name).
Proof. intros h f. unfold database_exists. cbv zeta. by destruct (runs pg h _). Qed.

Lemma never_exits_execute_until_it_works pg stmt :
  never_exits (execute_until_it_works pg stmt).
Proof. intros h f. unfold execute_until_it_works. by destruct (settles pg h stmt). Qed.

Lemma never_exits_poll_spock_node pg d : never_exits (poll_spock_node pg d).
Proof. intros h f. unfold poll_spock_node. cbv zeta. by destruct (registered pg h d). Qed.

(** Proves [never_exits m] for a computation built from the primitives,
    none of which is [sys.exit]. *)
Ltac never_exits_tac :=
  repeat first
    [ progress intros
    | progress cbv zeta
    | apply never_exits_get
    | apply never_exits_connect
    | apply never_exits_execute
    | apply never_exits_database_exists
    | apply never_exits_execute_until_it_works
    | apply never_exits_poll_spock_node
    | apply never_exits_lift_raising
    | apply never_exits_for_each
    | apply never_exits_bind
    | match goal with
      | |- never_exits (if ?b then _ else _) => destruct b
      | |- never_exits (match ?x with _ => _ end) => destruct x
      end
    | ends_here ].

Lemma update_database_never_exits env D s :
  never_exits (update_database_init_status env D s).
Proof. unfold update_database_init_status. never_exits_tac. Qed.

Lemma init_spock_node_never_exits pg db_info schemas :
  never_exits (init_spock_node pg db_info schemas).
Proof. unfold init_spock_node. never_exits_tac. Qed.

Lemma init_peer_spock_subscriptions_never_exits pg db_info drop_existing :
  never_exits (init_peer_spock_subscriptions pg db_info drop_existing).
Proof.
  unfold init_peer_spock_subscriptions, subscribe_to_peer, wait_for_spock_node,
    spock_sub_drop, spock_sub_create.
  never_exits_tac.
Qed.

Lemma init_database_never_exits env pg db_info : never_exits (init_database env pg db_info).
Proof. unfold init_database, update_database_init_status. never_exits_tac. Qed.

Lemma peer_step_never_exits env pg db_info : never_exits (peer_step env pg db_info).
Proof.
  unfold peer_step. apply never_exits_bind; [apply never_exits_get|]. intros st. cbv zeta.
  destruct (bool_decide _); [ends_here|].
  apply never_exits_bind; [apply init_peer_spock_subscriptions_never_exits|].
  intros []; [apply update_database_never_exits|ends_here].
Qed.

Lemma ends_without_exit_bind {A B} (m : prog A) (k : A -> prog B) h f :
  ends_without_exit (result (m h f)) ->
  (forall a, never_exits (k a)) ->
  ends_without_exit (result ((m ≫= k) h f)).
Proof.
  intros Hm Hk. unfold mbind, prog_bind.
  destruct (result (m h f)) as [a| | |]; cbn [after result]; try done. apply Hk.
Qed.

(** A sequence that returns went through a first step that left the file
    alone. *)
Lemma bind_quietly_returns {A B} (m : prog A) (k : A -> prog B) h f b :
  quietly m ->
  result ((m ≫= k) h f) = Returns b ->
  exists a es, (m ≫= k) h f = after es (k a (h ++ es) f)
               /\ result (k a (h ++ es) f) = Returns b.
Proof.
  intros Hq Hret. destruct (bind_result_returns _ _ _ _ _ Hret) as (a & Hm & Hk).
  destruct (Hq h f) as [Hfile _]. rewrite Hfile in Hk.
  exists a, (events (m h f)). split; [|done].
  rewrite (bind_returns _ _ h f a Hm). by rewrite Hfile.
Qed.

(** A call of [init_database] that returns leaves a record of its
    database. *)
Lemma init_database_returns_record env pg db_info h f :
  force_update env = false ->
  result (init_database env pg db_info h f) = Returns tt ->
  is_Some (status_of (file_after (init_database env pg db_info h f))
             (database_name db_info)).
Proof.
  intros Hforce. unfold init_database.
  destruct (read_init_status env f) as [st|e] eqn:Hread;
    [|by rewrite (bind_get_raises _ _ _ _ _ Hread)].
  rewrite (bind_get _ _ _ _ _ Hread). cbv zeta.
  pose proof (read_value _ _ _ Hread) as Hval. rewrite Hforce in Hval.
  destruct Hval as [_ ->].
  destruct (dbs_initialized (recorded f) !! database_name db_info) as [s|] eqn:Hstatus.
  - intros _. rewrite skip_run. cbn [file_after]. unfold status_of. by eexists.
  - rewrite bind_emit. cbn [after result file_after]. intros Hret.
    do 5 (let a := fresh "a" in
            let es := fresh "es" in
            let Heq := fresh "Heq" in
            apply bind_quietly_returns in Hret as (a & es & Heq & Hret);
            [rewrite Heq; clear Heq; cbn [after file_after]|solve [quietly_tac]]).
    rewrite (update_database_run env _ _ _ f _ Hread). cbv zeta. cbn [file_after].
    unfold status_of. cbn [recorded dbs_initialized]. rewrite lookup_insert_eq. by eexists.
Qed.

(** After a creation loop that returns every listed database has a
    record. *)
Lemma creation_loop_records env pg (dbs_info : list DatabaseInfo) h f :
  force_update env = false ->
  result (for_each dbs_info (init_database env pg) h f) = Returns tt ->
  forall db_info,
    db_info ∈ dbs_info ->
    is_Some (status_of (file_after (for_each dbs_info (init_database env pg) h f))
               (database_name db_info)).
Proof.
  intros Hforce. revert h f.
  induction dbs_info as [|x xs IH]; intros h f Hret db Hdb;
    [by apply elem_of_nil in Hdb|].
  cbn [for_each] in *.
  destruct (bind_result_returns _ _ _ _ _ Hret) as ([] & Hx & Hxs).
  rewrite (bind_returns _ _ h f tt Hx). cbn [after file_after].
  apply elem_of_cons in Hdb as [->|Hdb]; [|by apply IH].
  assert (Hloop : respects (record_kept (database_name x))
                    (for_each xs (init_database env pg))).
  { apply respects_for_each; [typeclasses eauto|].
    intros; by apply init_database_keeps_record. }
  apply (Hloop _ _). by apply init_database_returns_record.
Qed.

Lemma spock_node_step_keeps_record env pg D schemas db_info :
  force_update env = false ->
  respects (record_kept D) (spock_node_step env pg schemas db_info).
Proof. intros Hforce. unfold spock_node_step. respects_with emits_record_kept. Qed.

Lemma peer_step_keeps_record env pg D db_info :
  force_update env = false ->
  respects (record_kept D) (peer_step env pg db_info).
Proof. intros Hforce. unfold peer_step. respects_with emits_record_kept. Qed.

(** The spock-node loop over databases that all have a record does not
    exit. *)
Lemma spock_node_loop_never_exits env pg schemas (dbs_info : list DatabaseInfo) h f :
  force_update env = false ->
  (forall db_info, db_info ∈ dbs_info ->
                   is_Some (status_of f (database_name db_info))) ->
  ends_without_exit (result (for_each dbs_info (spock_node_step env pg schemas) h f)).
Proof.
  intros Hforce. revert h f.
  induction dbs_info as [|x xs IH]; intros h f Hall; [done|].
  cbn [for_each].
  assert (Hx : ends_without_exit (result (spock_node_step env pg schemas x h f))).
  { destruct (Hall x ltac:(by left)) as [s Hs].
    pose proof (read_without_force env f Hforce (recorded_readable _ _ _ Hs)) as Hread.
    unfold spock_node_step. rewrite (bind_get _ _ _ _ _ Hread). cbv zeta.
    unfold status_of in Hs. rewrite Hs.
    destruct s; [|done..].
    apply never_exits_bind; [apply init_spock_node_never_exits|]. intros _.
    apply never_exits_bind; [apply update_database_never_exits|]. intros _.
    ends_here. }
  unfold mbind, prog_bind.
  destruct (result (spock_node_step env pg schemas x h f)) as [[]| | |];
    cbn [after result]; try done.
  apply IH. intros db Hdb.
  apply (spock_node_step_keeps_record env pg (database_name db) schemas x Hforce h f).
  apply Hall. by right.
Qed.

(** X9. Without the force flag the three loops of [main] never end by
    [sys.exit], whatever the servers do and whatever the progress file
    holds: the creation loop has no exit, and once it has returned every
    additional database has a record, so the spock-node loop never finds
    one missing. The loops return, block, or end with an exception (a
    statement or connection that fails, a file that is not text, the
    [KeyError] of a peer without hostname); and when the creation loop has
    returned, every listed database still has a record when they end. *)
Theorem X9_loops_never_exit_without_force :
  forall (env : Environ) (pg : Postgres) (dbs_info : list DatabaseInfo) h f,
    force_update env = false ->
    let r := init_other_databases env pg dbs_info h f in
    ends_without_exit (result r)
    /\ (result (for_each dbs_info (init_database env pg) h f) = Returns tt ->
        forall db_info, db_info ∈ dbs_info ->
                        is_Some (status_of (file_after r) (database_name db_info)))
    /\ ~ (exists c, result r = Exits c).
Proof.
  intros env pg dbs h f Hforce. cbv zeta.
  assert (Hends : ends_without_exit (result (init_other_databases env pg dbs h f))).
  { unfold init_other_databases.
    pose proof (never_exits_for_each dbs (init_database env pg)
                  (init_database_never_exits env pg) h f) as Hcreation.
    unfold mbind at 1, prog_bind.
    destruct (result (for_each dbs (init_database env pg) h f)) as [[]| | |] eqn:Hret1;
      cbn [after result]; try done.
    apply ends_without_exit_bind.
    - apply spock_node_loop_never_exits; [done|].
      by apply creation_loop_records.
    - intros _. apply never_exits_for_each, peer_step_never_exits. }
  split; [done|]. split.
  - intros Hret1 db Hdb. unfold init_other_databases.
    rewrite (bind_returns _ _ h f tt Hret1). cbn [after file_after].
    assert (Hrest : respects (record_kept (database_name db))
                      (for_each dbs (spock_node_step env pg
                                       ["public"; "spock"; "pg_catalog"; "information_schema"]) ;;
                       for_each dbs (peer_step env pg))).
    { apply respects_bind; [typeclasses eauto| |intros _];
        (apply respects_for_each; [typeclasses eauto|]); intros.
      - by apply spock_node_step_keeps_record.
      - by apply peer_step_keeps_record. }
    apply (Hrest _ _). by apply creation_loop_records.
  - intros [c Hc]. by rewrite Hc in Hends.
Qed.

Lemma X9_witness :
  ends_without_exit
    (result (init_other_databases Example.env16 Example.pg_up [Cluster.analytics_lost_peer]
               [] NoFile)).
Proof.
  exact (proj1 (X9_loops_never_exit_without_force Example.env16 Example.pg_up
                  [Cluster.analytics_lost_peer] [] NoFile eq_refl)).
Defined.

(** ** The primary flag *)

Ltac emits_flag_kept := intros; unfold flag_kept; intros; assumption.

Lemma update_database_keeps_flag env D s :
  force_update env = false ->
  respects flag_kept (update_database_init_status env D s).
Proof.
  intros Hforce h f. apply respects_at_update_database; [typeclasses eauto|].
  intros st Hst st' Hflag. pose proof (read_value _ _ _ Hst) as Hval.
  rewrite Hforce in Hval. by destruct Hval as [_ ->].
Qed.

Lemma update_default_sets_flag env :
  respects flag_kept (update_default_db_init_status env true).
Proof.
  intros h f. apply respects_at_update_default; [typeclasses eauto|].
  by intros st Hst st' Hflag.
Qed.

#[global] Hint Resolve update_database_keeps_flag update_default_sets_flag : script.

(** X10. Without the force flag a run of [main] never clears the primary
    flag: a file that has [default_db_initialized] set still has it after
    the run, however the run ends. *)
Theorem X10_primary_flag_is_never_cleared :
  forall (env : Environ) (pg : Postgres) (default_db_info : DatabaseInfo)
         (dbs_info : list DatabaseInfo) h f,
    force_update env = false ->
    default_db_initialized (recorded f) = true ->
    default_db_initialized
      (recorded (file_after (main env pg default_db_info dbs_info h f))) = true.
Proof.
  intros env pg ddb dbs h f Hforce Hflag.
  assert (Hmain : respects flag_kept (main env pg ddb dbs)).
  { unfold main, init_node, init_other_databases, init_default_database, init_database,
      spock_node_step, peer_step, init_spock_node, init_peer_spock_subscriptions,
      subscribe_to_peer.
    respects_with emits_flag_kept. }
  by apply (Hmain h f).
Qed.

Lemma X10_witness :
  default_db_initialized
    (recorded (file_after (main Example.env16 Example.pg_up Example.main_db
                             [Example.analytics] [] Example.crashed_after_created)))
  = true.
Proof.
  exact (X10_primary_flag_is_never_cleared Example.env16 Example.pg_up Example.main_db
           [Example.analytics] [] Example.crashed_after_created eq_refl eq_refl).
Defined.

(** ** A cluster of one node *)

(** X11. On a node without peers the primary bootstrap never records its
    completion: whatever the environment and the servers and however it
    ends, [init_default_database] leaves the progress file as it is and
    writes nothing, so the primary flag stays unset and, when the read of
    the file returns a record whose flag is false, the bootstrap is entered
    on this call and again on the next one. *)
Theorem X11_single_node_never_records_the_bootstrap :
  forall (env : Environ) (pg : Postgres) (db_info : DatabaseInfo) h f,
    peers_of db_info = [] ->
    let r := init_default_database env pg db_info h f in
    file_after r = f
    /\ writes (events r) = []
    /\ ((exists st, read_init_status env f = Value st
                    /\ default_db_initialized st = false) ->
        begins PrimaryBootstrap (database_name db_info) (events r)
        /\ begins PrimaryBootstrap (database_name db_info)
             (events (init_default_database env pg db_info (h ++ events r) (file_after r)))).
Proof.
  intros env pg db_info h f Hnone. cbv zeta.
  assert (Hunwritten : forall h, respects_at unwritten (init_default_database env pg db_info) h f).
  { intros h0. unfold init_default_database.
    apply respects_at_get; [typeclasses eauto|]. intros st Hst. cbv zeta.
    destruct (default_db_initialized st);
      [apply (respects_skip unwritten)|].
    repeat (lazymatch goal with
            | |- respects_at _ (init_peer_spock_subscriptions _ _ _ ≫= _) _ _ => fail
            | _ => idtac
            end;
            apply respects_at_after_unwritten;
            [ typeclasses eauto
            | done
            | solve [ respects_with ltac:(intros; split; reflexivity) ]
            | intros ]).
    unfold respects_at.
    rewrite (bind_known _ _ _ f false f []
               (init_peer_spock_subscriptions_no_peers _ _ _ _ _ Hnone)).
    cbn [negb]. rewrite after_nil. apply (respects_skip unwritten). }
  destruct (Hunwritten h) as [Hfile Hwrites].
  split; [done|]. split; [done|].
  intros Hflag. split.
  - by apply init_default_database_begins.
  - rewrite Hfile. by apply init_default_database_begins.
Qed.

Lemma X11_witness :
  file_after (init_default_database Example.env16 Example.pg_up
                (Example.info_of "main" [Example.n1]) [] NoFile) = NoFile.
Proof.
  exact (proj1 (X11_single_node_never_records_the_bootstrap Example.env16 Example.pg_up
                  (Example.info_of "main" [Example.n1]) [] NoFile eq_refl)).
Defined.

(** ** The sessions of [init_spock_node] *)

Lemma execute_runs pg stmt h f :
  cooperative pg -> execute pg stmt h f = mkRun (Returns tt) f [Execute stmt].
Proof. intros Hcoop. unfold execute. by rewrite (cooperative_runs pg Hcoop). Qed.

Lemma for_each_execute_runs pg (stmts : list string) h f :
  cooperative pg ->
  for_each stmts (execute pg) h f = mkRun (Returns tt) f (map Execute stmts).
Proof.
  intros Hcoop. revert h.
  induction stmts as [|s stmts IH]; intros h; cbn [for_each map]; [done|].
  rewrite (bind_known _ _ h f tt f _ (execute_runs pg s h f Hcoop)), IH. done.
Qed.

Lemma connect_gets_through pg d autocommit h f :
  cooperative pg ->
  exists failed,
    connect pg d autocommit h f
    = mkRun (Returns tt) f (repeat (Sleep 2) failed ++ [Connect d autocommit]).
Proof.
  intros Hcoop. destruct (cooperative_connects pg Hcoop h d) as [failed Hconnect].
  exists failed. unfold connect. by rewrite Hconnect.
Qed.

(** One step of symbolic execution of a sequence, with servers that let
    everything through in the end. *)
Ltac step_through Hcoop :=
  match goal with
  | |- context [(connect ?pg ?d ?a ≫= ?k) ?h ?f] =>
      let failed := fresh "failed" in
      let H := fresh in
      destruct (connect_gets_through pg d a h f Hcoop) as [failed H];
      rewrite (bind_known (connect pg d a) k h f tt f _ H); clear H
  | |- context [(execute ?pg ?s ≫= ?k) ?h ?f] =>
      rewrite (bind_known (execute pg s) k h f tt f _ (execute_runs pg s h f Hcoop))
  | |- context [(for_each ?l (execute ?pg) ≫= ?k) ?h ?f] =>
      rewrite (bind_known (for_each l (execute pg)) k h f tt f _
                 (for_each_execute_runs pg l h f Hcoop))
  end.

Lemma until_connect_execute (l : list string) (tr : list event) :
  until_connect (map Execute l ++ tr) = l ++ until_connect tr.
Proof. induction l as [|s l IH]; cbn; [done|]. by rewrite IH. Qed.

Lemma until_connect_session failed d autocommit stmts (tr : list event) :
  until_connect (session_events failed d autocommit stmts ++ tr) = [].
Proof. unfold session_events. induction failed as [|n IH]; cbn; [done|]. exact IH. Qed.

Lemma sessions_execute (l : list string) (tr : list event) :
  sessions (map Execute l ++ tr) = sessions tr.
Proof. induction l as [|s l IH]; cbn; done. Qed.

Lemma sessions_session failed d autocommit stmts (tr : list event) :
  sessions (session_events failed d autocommit stmts ++ tr)
  = (d, autocommit, stmts ++ until_connect tr) :: sessions tr.
Proof.
  unfold session_events. induction failed as [|n IH]; cbn [repeat app sessions]; [|exact IH].
  by rewrite until_connect_execute, sessions_execute.
Qed.

Lemma grants_for_public db_info schemas stmt :
  "public" ∈ schemas ->
  stmt ∈ grants_for db_info ["public"] -> stmt ∈ grants_for db_info schemas.
Proof.
  intros Hpublic. unfold grants_for.
  rewrite !list_elem_of_In, !in_flat_map. intros (user & Huser & Hin).
  exists user. split; [done|].
  apply list_elem_of_In, alter_user_statements_public; [done|].
  by apply list_elem_of_In.
Qed.

Lemma init_spock_node_events pg db_info schemas h f :
  cooperative pg ->
  exists failed1 failed2 failed3 first,
    init_spock_node pg db_info schemas h f
    = mkRun (Returns tt) f
        (Begin SpockNodeInit (database_name db_info)
         :: session_events failed1 (spock_dsn db_info) false
              ("SET log_statement = 'none';" :: first)
         ++ session_events failed2 (local_dsn db_info) true
              ("SET log_statement = 'none';" :: grants_for db_info ["public"])
         ++ session_events failed3 (spock_dsn db_info) false
              ("SET log_statement = 'none';" :: grants_for db_info schemas))
    /\ first !! 0 = Some "CREATE EXTENSION IF NOT EXISTS spock;"
    /\ (forall stmt, stmt ∈ grants_for db_info schemas -> stmt ∈ first)
    /\ last first
       = Some ("SELECT spock.node_create(node_name := '" +:+ node_name db_info
               +:+ "', dsn := '" +:+ spock_dsn db_info
               +:+ "') WHERE '" +:+ node_name db_info
               +:+ "' NOT IN (SELECT node_name FROM spock.node);").
Proof.
  intros Hcoop. unfold init_spock_node. cbv zeta.
  rewrite bind_emit.
  do 3 step_through Hcoop. do 3 step_through Hcoop. do 2 step_through Hcoop.
  rewrite for_each_execute_runs by done.
  rewrite !after_after, after_run.
  exists failed, failed0, failed1. eexists. split; [|split; [|split]].
  - f_equal. unfold session_events, grants_for. cbn [map app].
    rewrite <- !app_assoc. cbn [app]. reflexivity.
  - case_bool_decide; reflexivity.
  - intros stmt Hin. rewrite !elem_of_app. unfold grants_for in Hin. tauto.
  - by rewrite !app_assoc, last_snoc.
Qed.

(** X5. [init_spock_node] never touches the progress file and never ends
    by [sys.exit], whatever the servers do. Provided every connection is
    accepted in the end and every statement succeeds, it returns after
    three sessions: on the spock connection without autocommit, on the
    admin connection with autocommit, and on the spock connection again.
    The first creates the extensions first and registers the node last;
    the third repeats the grants of the first, and the second, over
    [public] alone, grants nothing the first has not granted when [public]
    is among the schemas. *)
Theorem X5_spock_node_sessions :
  forall (pg : Postgres) (db_info : DatabaseInfo) (schemas : list string) h f,
    let r := init_spock_node pg db_info schemas h f in
    file_after r = f
    /\ writes (events r) = []
    /\ ends_without_exit (result r)
    /\ (cooperative pg ->
        result r = Returns tt
        /\ exists first,
             sessions (events r)
             = [ (spock_dsn db_info, false, "SET log_statement = 'none';" :: first);
                 (local_dsn db_info, true,
                  "SET log_statement = 'none';" :: grants_for db_info ["public"]);
                 (spock_dsn db_info, false,
                  "SET log_statement = 'none';" :: grants_for db_info schemas) ]
             /\ first !! 0 = Some "CREATE EXTENSION IF NOT EXISTS spock;"
             /\ last first
                = Some ("SELECT spock.node_create(node_name := '" +:+ node_name db_info
                        +:+ "', dsn := '" +:+ spock_dsn db_info
                        +:+ "') WHERE '" +:+ node_name db_info
                        +:+ "' NOT IN (SELECT node_name FROM spock.node);")
             /\ (forall stmt, stmt ∈ grants_for db_info schemas -> stmt ∈ first)
             /\ ("public" ∈ schemas ->
                 forall stmt, stmt ∈ grants_for db_info ["public"] -> stmt ∈ first)).
Proof.
  intros pg db_info schemas h f. cbv zeta.
  destruct (init_spock_node_unwritten pg db_info schemas h f) as [Hfile Hw].
  split; [done|]. split; [done|].
  split; [apply init_spock_node_never_exits|].
  intros Hcoop.
  destruct (init_spock_node_events pg db_info schemas h f Hcoop)
    as (n1 & n2 & n3 & first & Hrun & Hhead & Hgrants & Hlast).
  rewrite Hrun. cbn [result events]. split; [done|].
  exists first. split; [|split; [done|split; [done|split; [done|]]]].
  - cbn [sessions].
    rewrite <- (app_nil_r (session_events n3 _ _ _)).
    rewrite !sessions_session, !until_connect_session.
    cbn [until_connect sessions]. by rewrite !app_nil_r.
  - intros Hpublic stmt Hin. by apply Hgrants, grants_for_public.
Qed.

Lemma X5_witness :
  exists first,
    sessions (events (init_spock_node Example.pg_slow Example.analytics
                        ["public"; "spock"] [] NoFile))
    = [ (spock_dsn Example.analytics, false, "SET log_statement = 'none';" :: first);
        (local_dsn Example.analytics, true,
         "SET log_statement = 'none';" :: grants_for Example.analytics ["public"]);
        (spock_dsn Example.analytics, false,
         "SET log_statement = 'none';" :: grants_for Example.analytics ["public"; "spock"]) ]
    /\ forall stmt, stmt ∈ grants_for Example.analytics ["public"] -> stmt ∈ first.
Proof.
  destruct (proj2 (proj2 (proj2 (proj2 (X5_spock_node_sessions Example.pg_slow
                                          Example.analytics ["public"; "spock"] [] NoFile)))
                     cooperative_pg_slow))
    as (first & Hsessions & _ & _ & _ & Hpublic).
  exists first. split; [exact Hsessions|].
  apply Hpublic. by left.
Defined.

(** ** The primary bootstrap, when it succeeds *)

Lemma connections_execute (l : list string) : connections (map Execute l) = [].
Proof. induction l; cbn; done. Qed.

Lemma connections_rendezvous db_info drop_existing (peers : list NodeSpec) :
  connections (flat_map (rendezvous_events db_info drop_existing) peers)
  = map (fun peer => (dsn (database_name db_info) "pgedge" None (hostname_of peer) 5432,
                      true)) peers.
Proof.
  induction peers as [|peer peers IH]; cbn [flat_map map]; [done|].
  rewrite connections_app, IH. unfold rendezvous_events. by destruct drop_existing.
Qed.

Lemma quiet_rendezvous db_info drop_existing (peers : list NodeSpec) :
  Forall quiet (flat_map (rendezvous_events db_info drop_existing) peers).
Proof.
  induction peers as [|peer peers IH]; cbn [flat_map]; [constructor|].
  apply Forall_app. split; [|exact IH].
  unfold rendezvous_events. destruct drop_existing; by repeat constructor.
Qed.

Lemma init_spock_node_prompt pg db_info schemas h f :
  prompt pg ->
  exists first,
    init_spock_node pg db_info schemas h f
    = mkRun (Returns tt) f
        ([ Begin SpockNodeInit (database_name db_info);
           Connect (spock_dsn db_info) false;
           Execute "SET log_statement = 'none';" ]
         ++ map Execute first
         ++ [ Connect (local_dsn db_info) true;
              Execute "SET log_statement = 'none';" ]
         ++ map Execute (grants_for db_info ["public"])
         ++ [ Connect (spock_dsn db_info) false;
              Execute "SET log_statement = 'none';" ]
         ++ map Execute (grants_for db_info schemas)).
Proof.
  intros Hp. eexists. unfold init_spock_node. cbv zeta.
  do 3 step. do 2 step. do 2 step. do 2 step.
  rewrite (for_each_execute pg Hp). rewrite !after_after, after_run.
  f_equal. rewrite <- !app_assoc. reflexivity.
Qed.

Lemma init_default_database_events env pg db_info h f st :
  prompt pg ->
  read_init_status env f = Value st ->
  default_db_initialized st = false ->
  Py.truthy (init_dsn db_info) = true ->
  recognized_version env ->
  peers_of db_info <> [] ->
  Forall has_hostname (peers_of db_info) ->
  let st' := {| default_db_initialized := true;
                dbs_initialized := dbs_initialized st |} in
  exists batch first,
    init_default_database env pg db_info h f
    = mkRun (Returns tt) (Json st')
        ((([ Begin PrimaryBootstrap (database_name db_info);
             Connect (init_dsn db_info) true;
             Execute "SET log_statement = 'none';" ]
           ++ map Execute batch)
          ++ ([ Connect (internal_dsn db_info) true;
                Execute "SET log_statement = 'none';" ]
              ++ map Execute [ "DROP DATABASE " +:+ init_dbname db_info +:+ ";";
                               "DROP USER " +:+ init_username db_info +:+ ";" ])
          ++ ([ Begin SpockNodeInit (database_name db_info);
                Connect (spock_dsn db_info) false;
                Execute "SET log_statement = 'none';" ]
              ++ map Execute first
              ++ [ Connect (local_dsn db_info) true;
                   Execute "SET log_statement = 'none';" ]
              ++ map Execute (grants_for db_info ["public"])
              ++ [ Connect (spock_dsn db_info) false;
                   Execute "SET log_statement = 'none';" ]
              ++ map Execute (grants_for db_info
                                ["public"; "spock"; "pg_catalog"; "information_schema"]))
          ++ [Sleep 5]
          ++ (Begin PeerRendezvous (database_name db_info)
              :: Connect (local_dsn db_info) false
              :: flat_map (rendezvous_events db_info true) (peers_of db_info)))
         ++ [WriteStatus st']).
Proof.
  intros Hp Hread Hflag Hdsn Hversion Hsome Hhosts. cbv zeta.
  apply roles_of_version_recognized in Hversion as [roles Hroles].
  apply get_superuser_roles_recognized in Hroles.
  unfold init_default_database. rewrite (bind_get _ _ _ _ _ Hread). cbv zeta. rewrite Hflag.
  step. step. rewrite Hdsn. cbn [negb]. step. step.
  rewrite Hroles. cbn [lift_raising]. rewrite bind_ret.
  step. do 3 step.
  match goal with
  | |- context [(init_spock_node pg db_info ?schemas ≫= ?k) ?h' f] =>
      destruct (init_spock_node_prompt pg db_info schemas h' f Hp) as [first Hnode];
      rewrite (bind_known _ k h' f tt f _ Hnode); clear Hnode
  end.
  step.
  rewrite (bind_known _ _ _ f true f _
             (init_peer_spock_subscriptions_run pg db_info true _ f Hp Hsome Hhosts)).
  cbn [negb]. rewrite (update_default_run env true _ f st Hread). cbv zeta.
  rewrite !after_after, after_run.
  eexists _, first. f_equal. rewrite <- !app_assoc. reflexivity.
Qed.

(** X12. When the primary bootstrap runs on a node with peers (the read of
    the progress file returns a record whose flag is not set, a version the
    script knows, peers with hostnames) and every connection and statement
    succeeds at the first attempt, it returns after the three phases in
    order, bootstrap, spock node, rendezvous, over six connections of its
    own (the seed database, the internal connection on which the seed
    database and user are dropped, the three sessions of the spock node and
    the admin connection of the rendezvous) followed by one connection to
    each peer, on which the registration of the peer's node is awaited.
    Only then does it write the progress file, once, setting the primary
    flag and keeping the statuses it read. *)
Theorem X12_primary_bootstrap_run :
  forall (env : Environ) (pg : Postgres) (db_info : DatabaseInfo) h f st,
    prompt pg ->
    read_init_status env f = Value st ->
    default_db_initialized st = false ->
    Py.truthy (init_dsn db_info) = true ->
    recognized_version env ->
    peers_of db_info <> [] ->
    Forall has_hostname (peers_of db_info) ->
    let r := init_default_database env pg db_info h f in
    let st' := {| default_db_initialized := true;
                  dbs_initialized := dbs_initialized st |} in
    result r = Returns tt
    /\ file_after r = Json st'
    /\ (exists es, events r = es ++ [WriteStatus st'] /\ writes es = [])
    /\ phases_for (database_name db_info) (events r)
       = [PrimaryBootstrap; SpockNodeInit; PeerRendezvous]
    /\ connections (events r)
       = [ (init_dsn db_info, true); (internal_dsn db_info, true);
           (spock_dsn db_info, false); (local_dsn db_info, true);
           (spock_dsn db_info, false); (local_dsn db_info, false) ]
         ++ map (fun peer =>
                   (dsn (database_name db_info) "pgedge" None (hostname_of peer) 5432, true))
                (peers_of db_info).
Proof.
  intros env pg db_info h f st Hp Hread Hflag Hdsn Hversion Hsome Hhosts. cbv zeta.
  destruct (init_default_database_events env pg db_info h f st
              Hp Hread Hflag Hdsn Hversion Hsome Hhosts)
    as (batch & first & ->).
  cbn [result file_after events]. split; [done|]. split; [done|]. split; [|split].
  - eexists. split; [reflexivity|].
    rewrite !writes_app.
    rewrite !(quiet_no_write (map Execute _)) by apply quiet_map_execute.
    cbn [writes flat_map app].
    change (flat_map _ (flat_map (rendezvous_events db_info true) (peers_of db_info)))
      with (writes (flat_map (rendezvous_events db_info true) (peers_of db_info))).
    by rewrite (quiet_no_write _ (quiet_rendezvous db_info true (peers_of db_info))).
  - rewrite !phases_for_app.
    rewrite !(quiet_no_phase _ (map Execute _)) by apply quiet_map_execute.
    cbn [phases_for flat_map app].
    change (flat_map _ (flat_map (rendezvous_events db_info true) (peers_of db_info)))
      with (phases_for (database_name db_info)
              (flat_map (rendezvous_events db_info true) (peers_of db_info))).
    rewrite (quiet_no_phase _ _ (quiet_rendezvous db_info true (peers_of db_info))).
    by rewrite !decide_True by done.
  - rewrite !connections_app, !connections_execute.
    cbn [connections flat_map app].
    change (flat_map _ (flat_map (rendezvous_events db_info true) (peers_of db_info)))
      with (connections (flat_map (rendezvous_events db_info true) (peers_of db_info))).
    by rewrite connections_rendezvous, app_nil_r.
Qed.

Lemma X12_witness :
  connections (events (init_default_database Example.env16 Example.pg_up Example.main_db
                         [] NoFile))
  = [ (init_dsn Example.main_db, true); (internal_dsn Example.main_db, true);
      (spock_dsn Example.main_db, false); (local_dsn Example.main_db, true);
      (spock_dsn Example.main_db, false); (local_dsn Example.main_db, false);
      ("host=pg-n2 dbname=main user=pgedge port=5432", true) ].
Proof.
  refine (proj2 (proj2 (proj2 (proj2
            (X12_primary_bootstrap_run Example.env16 Example.pg_up Example.main_db [] NoFile
               empty_status pg_up_prompt eq_refl eq_refl eq_refl _ _ _))))).
  - right. by left.
  - vm_compute. discriminate.
  - vm_compute. repeat constructor.
Defined.

(** ** The creation phase of one database *)

Lemma written_last_or_never_after {A} st f (es : list event) (r : run A) :
  writes es = [] ->
  written_last_or_never st f r -> written_last_or_never st f (after es r).
Proof.
  intros Hes [(a & es' & Hret & Hfile & Hev & Hw)|(Hnot & Hfile & Hw)].
  - left. exists a, (es ++ es'). cbn [after result file_after events].
    rewrite Hev, app_assoc, writes_app, Hes, Hw. done.
  - right. cbn [after result file_after events]. by rewrite writes_app, Hes, Hw.
Qed.

(** A step that leaves the file alone and a continuation that writes last
    or never. *)
Lemma written_last_or_never_bind {A B} st f (m : prog A) (k : A -> prog B) h :
  quietly m ->
  (forall a h', written_last_or_never st f (k a h' f)) ->
  written_last_or_never st f ((m ≫= k) h f).
Proof.
  intros Hq Hk. destruct (Hq h f) as [Hfile Hquiet].
  unfold mbind, prog_bind.
  destruct (result (m h f)) as [a| | |] eqn:Hret.
  - apply written_last_or_never_after; [by apply quiet_no_write|].
    rewrite Hfile. apply Hk.
  - right. cbn [result file_after events]. by rewrite (quiet_no_write _ Hquiet).
  - right. cbn [result file_after events]. by rewrite (quiet_no_write _ Hquiet).
  - right. cbn [result file_after events]. by rewrite (quiet_no_write _ Hquiet).
Qed.

Lemma database_exists_runs pg name h f :
  cooperative pg ->
  database_exists pg name h f
  = mkRun (Returns (has_database pg h name)) f
      [ExecuteParams "SELECT 1 FROM pg_database WHERE datname = %s" [name]].
Proof.
  intros Hcoop. unfold database_exists. cbv zeta. by rewrite (cooperative_runs pg Hcoop).
Qed.

(** X13. [init_database] does nothing at all for a database that has a
    record in what it reads. For one that has none, whatever the servers
    do, it writes at most once: either it returns, having written
    [created] as its last effect, or it does not return and the progress
    file is as it was. Provided the connection is accepted in the end and
    every statement succeeds, it connects on the internal connection, asks
    [pg_database], creates the database only when that finds no row,
    grants the privileges to the owner and to [pgedge] in any case, and
    writes [created] last. *)
Theorem X13_creation_is_checked_for_existence :
  forall (env : Environ) (pg : Postgres) (db_info : DatabaseInfo) h f st,
    read_init_status env f = Value st ->
    let name := database_name db_info in
    let r := init_database env pg db_info h f in
    let st' := {| default_db_initialized := default_db_initialized st;
                  dbs_initialized := <[name := CREATED]> (dbs_initialized st) |} in
    (is_Some (dbs_initialized st !! name) -> r = mkRun (Returns tt) f [])
    /\ (dbs_initialized st !! name = None ->
        written_last_or_never st' f r
        /\ (cooperative pg ->
            exists failed,
              let asked := ((h ++ [Begin DatabaseCreation name])
                            ++ repeat (Sleep 2) failed
                            ++ [Connect (internal_dsn db_info) true])
                           ++ [Execute "SET log_statement = 'none';"] in
              r = mkRun (Returns tt) (Json st')
                    ([Begin DatabaseCreation name]
                     ++ repeat (Sleep 2) failed
                     ++ [ Connect (internal_dsn db_info) true;
                          Execute "SET log_statement = 'none';";
                          ExecuteParams "SELECT 1 FROM pg_database WHERE datname = %s"
                                        [name] ]
                     ++ (if has_database pg asked name then []
                         else [ Execute ("CREATE DATABASE " +:+ name +:+ " OWNER "
                                         +:+ owner db_info +:+ ";") ])
                     ++ [ Execute ("GRANT ALL PRIVILEGES ON DATABASE " +:+ name +:+ " TO "
                                   +:+ owner db_info +:+ ";");
                          Execute ("GRANT ALL PRIVILEGES ON DATABASE " +:+ name
                                   +:+ " TO pgedge;");
                          WriteStatus st' ]))).
Proof.
  intros env pg db_info h f st Hread. cbv zeta. split; [|intros Hnone; split].
  - intros [s Hs]. unfold init_database.
    rewrite (bind_get _ _ _ _ _ Hread). cbv zeta. by rewrite Hs.
  - unfold init_database. rewrite (bind_get _ _ _ _ _ Hread). cbv zeta. rewrite Hnone.
    rewrite bind_emit. apply written_last_or_never_after; [done|].
    do 5 (apply written_last_or_never_bind; [solve [quietly_tac]|intros]).
    rewrite (update_database_run env _ _ _ f _ Hread). cbv zeta.
    left. exists tt, []. done.
  - intros Hcoop. unfold init_database.
    rewrite (bind_get _ _ _ _ _ Hread). cbv zeta. rewrite Hnone.
    rewrite bind_emit. do 2 step_through Hcoop.
    match goal with
    | |- context [(database_exists pg ?n ≫= ?k) ?h' f] =>
        rewrite (bind_known _ k h' f _ f _ (database_exists_runs pg n h' f Hcoop))
    end.
    exists failed. cbv zeta.
    destruct (has_database pg _ (database_name db_info)); cbn [negb].
    + rewrite bind_skip. step_through Hcoop.
      rewrite (update_database_run env _ _ _ f _ Hread). cbv zeta.
      rewrite !after_after, after_run. f_equal.
      rewrite <- !app_assoc. reflexivity.
    + do 2 step_through Hcoop.
      rewrite (update_database_run env _ _ _ f _ Hread). cbv zeta.
      rewrite !after_after, after_run. f_equal.
      rewrite <- !app_assoc. reflexivity.
Qed.

Lemma X13_witness :
  init_database Example.env16 Example.pg_up Example.analytics [] Cluster.finished
  = mkRun (Returns tt) Cluster.finished [].
Proof.
  refine (proj1 (X13_creation_is_checked_for_existence Example.env16 Example.pg_up
                   Example.analytics [] Cluster.finished _ eq_refl) _).
  by eexists.
Defined.

(** ** A peer without hostname *)

Lemma get_hostname_missing peer :
  node_hostname peer = None -> internal_hostname peer = None ->
  get_hostname peer = Raise (KeyError "internal_hostname").
Proof. intros H1 H2. unfold get_hostname. by rewrite H1, H2. Qed.

(** A loop with an element at which the body cannot return does not
    return. *)
Lemma for_each_never_returns {A} (body : A -> prog unit) (xs : list A) x h f :
  x ∈ xs ->
  (forall h f, result (body x h f) <> Returns tt) ->
  result (for_each xs body h f) <> Returns tt.
Proof.
  intros Hin Hx. revert h f.
  induction xs as [|y xs IH]; intros h f; [by apply elem_of_nil in Hin|].
  cbn [for_each]. intros Hret.
  destruct (bind_result_returns _ _ _ _ _ Hret) as ([] & Hy & Hrest).
  apply elem_of_cons in Hin as [->|Hin]; [by apply (Hx h f)|].
  by apply (IH Hin _ _ Hrest).
Qed.

(** X3. [get_hostname] takes [hostname] when the node has it and
    [internal_hostname] otherwise. When a peer has neither, the rendezvous
    never returns, whatever the servers do, and the progress file is left
    as it is. Provided every connection and statement succeeds at the
    first attempt, it ends with [KeyError] at that peer: the statements for
    the peers before it have been sent, on a connection opened without
    autocommit that the exception leaves without a commit, and nothing is
    done for the peers after it. *)
Theorem X3_peer_without_hostname_stops_the_rendezvous :
  forall (pg : Postgres) (db_info : DatabaseInfo) (drop_existing : bool)
         (before after_it : list NodeSpec) (peer : NodeSpec) h f,
    peers_of db_info = before ++ peer :: after_it ->
    node_hostname peer = None ->
    internal_hostname peer = None ->
    let r := init_peer_spock_subscriptions pg db_info drop_existing h f in
    (forall subscribed, result r <> Returns subscribed)
    /\ file_after r = f
    /\ writes (events r) = []
    /\ (prompt pg ->
        Forall has_hostname before ->
        r = mkRun (Raises (KeyError "internal_hostname")) f
              (Begin PeerRendezvous (database_name db_info)
               :: Connect (local_dsn db_info) false
               :: flat_map (rendezvous_events db_info drop_existing) before))
    /\ (forall node host, node_hostname node = Some host ->
                          get_hostname node = Value host)
    /\ (forall node host, node_hostname node = None ->
                          internal_hostname node = Some host ->
                          get_hostname node = Value host).
Proof.
  intros pg db_info drop_existing before after_it peer h f Hpeers Hn Hi. cbv zeta.
  destruct (init_peer_spock_subscriptions_unwritten pg db_info drop_existing h f)
    as [Hfile Hw].
  split; [|split; [done|split; [done|split; [|split]]]].
  - intros b Hret. unfold init_peer_spock_subscriptions in Hret. cbv zeta in Hret.
    rewrite Hpeers in Hret.
    rewrite bool_decide_eq_false_2 in Hret by (rewrite length_app; cbn; lia).
    destruct (bind_result_returns _ _ _ _ _ Hret) as ([] & _ & Hret1).
    destruct (bind_result_returns _ _ _ _ _ Hret1) as ([] & _ & Hret2).
    destruct (bind_result_returns _ _ _ _ _ Hret2) as ([] & Hloop & _).
    revert Hloop. apply (for_each_never_returns _ _ peer).
    + apply elem_of_app. right. by left.
    + intros h' f'. unfold subscribe_to_peer. rewrite (get_hostname_missing _ Hn Hi).
      cbn [lift_raising]. by rewrite bind_raise.
  - intros Hp Hbefore.
    unfold init_peer_spock_subscriptions. cbv zeta. rewrite Hpeers.
    rewrite bool_decide_eq_false_2 by (rewrite length_app; cbn; lia).
    step. step.
    erewrite bind_raises; [reflexivity|].
    rewrite for_each_reaches
      by (by rewrite (subscribe_to_peers_run _ _ _ _ _ _ Hp Hbefore)).
    rewrite (subscribe_to_peers_run _ _ _ _ _ _ Hp Hbefore).
    cbn [events file_after for_each].
    erewrite bind_raises; [unfold after; cbn; by rewrite app_nil_r|].
    unfold subscribe_to_peer. rewrite (get_hostname_missing _ Hn Hi).
    cbn [lift_raising]. by rewrite bind_raise.
  - intros node host Hh. unfold get_hostname. by rewrite Hh.
  - intros node host Hh Hih. unfold get_hostname. by rewrite Hh, Hih.
Qed.

Lemma X3_witness :
  init_peer_spock_subscriptions Example.pg_up Cluster.analytics_lost_peer true [] NoFile
  = mkRun (Raises (KeyError "internal_hostname")) NoFile
      (Begin PeerRendezvous "analytics"
       :: Connect (local_dsn Cluster.analytics_lost_peer) false
       :: rendezvous_events Cluster.analytics_lost_peer true Example.n2).
Proof.
  rewrite (proj1 (proj2 (proj2 (proj2
             (X3_peer_without_hostname_stops_the_rendezvous Example.pg_up
                Cluster.analytics_lost_peer true [Example.n2] [] Cluster.n3 [] NoFile
                eq_refl eq_refl eq_refl))))
             pg_up_prompt ltac:(repeat constructor)).
  reflexivity.
Defined.

(** ** What one run of the loops does *)

(** X19. Without the force flag, with a progress file the script can read
    and hostnames for all peers, and provided every connection is accepted
    and every statement succeeds in the end, one run of the three loops
    returns and performs for each additional database exactly the phases
    that remain, each once and in order: creation when it has no record,
    the spock node when it is then at [created], the rendezvous when it
    has peers and is not [subscribed]. It leaves every additional database
    at [subscribed] when it has peers and at [inited] otherwise (or where
    it already was, beyond that), and does not touch the record of any
    other database. *)
Theorem X19_one_run_does_what_remains :
  forall (env : Environ) (pg : Postgres) (dbs_info : list DatabaseInfo)
         (D : string) h f,
    cooperative pg ->
    force_update env = false ->
    readable f ->
    Forall (fun db_info => Forall has_hostname (peers_of db_info)) dbs_info ->
    let r := init_other_databases env pg dbs_info h f in
    let rendezvous := if has_peers_for D dbs_info then [PeerRendezvous] else [] in
    result r = Returns tt
    /\ (D ∈ map database_name dbs_info ->
        phases_for D (events r)
        = match status_of f D with
          | None => [DatabaseCreation; SpockNodeInit] ++ rendezvous
          | Some CREATED => [SpockNodeInit] ++ rendezvous
          | Some INITED => rendezvous
          | Some SUBSCRIBED => []
          end
        /\ status_of (file_after r) D
           = if has_peers_for D dbs_info then Some SUBSCRIBED
             else match status_of f D with
                  | Some SUBSCRIBED => Some SUBSCRIBED
                  | _ => Some INITED
                  end)
    /\ (D ∉ map database_name dbs_info ->
        phases_for D (events r) = []
        /\ status_of (file_after r) D = status_of f D).
Proof.
  intros env pg dbs D h f Hcoop Hforce Hread Hhosts. cbv zeta.
  destruct (init_other_databases_run env pg Hcoop Hforce dbs h f Hread Hhosts)
    as (Hret & Hlisted & Hother).
  split; [done|]. split; [|apply Hother].
  intros Hin. destruct (Hlisted D Hin) as [Hph Hst].
  split; [|done]. rewrite Hph.
  destruct (status_of f D) as [[]|]; destruct (has_peers_for D dbs);
    repeat case_bool_decide; cbn [negb andb app]; done.
Qed.

Lemma X19_witness :
  phases_for "analytics"
    (events (init_other_databases Example.env16 Example.pg_slow [Example.analytics]
                                  [] NoFile))
  = [DatabaseCreation; SpockNodeInit; PeerRendezvous].
Proof.
  refine (proj1 (proj1 (proj2 (X19_one_run_does_what_remains Example.env16 Example.pg_slow
                                 [Example.analytics] "analytics" [] NoFile
                                 cooperative_pg_slow eq_refl _ _))
                  _)).
  - discriminate.
  - vm_compute. repeat constructor.
  - by left.
Defined.

(** ** Runs that do not get through *)

(** A server that refuses [CREATE DATABASE] stops the creation phase at
    that statement: the exception goes up, nothing is granted and the
    progress file is not written. *)
Lemma creation_refused :
  init_database Example.env16 Example.pg_no_create Example.analytics [] NoFile
  = mkRun (Raises (DatabaseError "permission denied to create database")) NoFile
      [ Begin DatabaseCreation "analytics";
        Connect (internal_dsn Example.analytics) true;
        Execute "SET log_statement = 'none';";
        ExecuteParams "SELECT 1 FROM pg_database WHERE datname = %s" ["analytics"];
        Execute "CREATE DATABASE analytics OWNER admin1;" ].
Proof. vm_compute. reflexivity. Qed.

(** A peer that never registers its node keeps the rendezvous waiting
    for ever, on the connection to that peer: no subscription is dropped
    or created and the progress file is not written. *)
Lemma rendezvous_waits_for_the_peer :
  init_peer_spock_subscriptions Example.pg_silent_peers Example.analytics true [] NoFile
  = mkRun Blocks NoFile
      [ Begin PeerRendezvous "analytics";
        Connect (local_dsn Example.analytics) false;
        Connect "host=pg-n2 dbname=analytics user=pgedge port=5432" true ].
Proof. vm_compute. reflexivity. Qed.

(** With such a peer a database recorded as [created] gets its spock node
    and is recorded as [inited], and the run of [main] stops there. *)
Lemma resume_waits_for_the_peer :
  let r := main Example.env16 Example.pg_silent_peers Example.main_db [Example.analytics]
             [] Example.crashed_after_created in
  result r = Blocks
  /\ status_of (file_after r) "analytics" = Some INITED
  /\ phases_for "analytics" (events r) = [SpockNodeInit; PeerRendezvous].
Proof. vm_compute. repeat split; reflexivity. Qed.
